(** * Multi-region dashboard: a shallow embedding of the request handlers

    The development follows the layout of the Python package:
    [Py] holds the few pieces of the Python runtime the code relies on
    (truthiness, [round], [sorted], the random module, exceptions),
    [Config] is [app/config.py], [Database] is [app/database.py],
    [FeatureFlags] is [app/feature_flags.py] and [Api] is
    [app/routers/api.py].

    Conventions of the embedding:
    - a Python [float] is an exact rational ([Q]) and its arithmetic is
      exact; [round(x, 2)] rounds the rational to the nearest hundredth,
      ties to even. Next to a rounding tie a value that the code
      computes on floats may differ from this one in its last digit;
    - a [dict] whose iteration order is observable ([REGIONS], the
      [results] of the fan-out) is an association list in insertion
      order; the flag store, only read by key, is a [gmap];
    - the random module is a tape of raw draws read at a position kept in
      the handler state;
    - an exception that a callee may raise is the [Raise] case of
      [Result]; handlers log the calls they make in a trace. *)

From Stdlib Require Import QArith Qround ZArith Lia List Ascii.
From Stdlib Require Import Sorted Permutation Lqa.
From stdpp Require Import base strings pretty gmap list.

Local Open Scope Z_scope.

(* ================================================================== *)
(** ** The Python runtime, as far as the code uses it *)
(* ================================================================== *)

Module Py.

(** Exceptions, as the instances of [Exception] that an [except
    Exception] clause catches: the class name and [str(e)]. What derives
    from [BaseException] only (the cancellation of a task, an interrupt)
    is outside the model. *)
Record Exception := mkException { exc_class : string; exc_str : string }.

Definition str (e : Exception) : string := exc_str e.

(** Outcome of a call that may raise. *)
Inductive Result (A : Type) : Type :=
| Ok (a : A)
| Raise (e : Exception).
Arguments Ok {A} a.
Arguments Raise {A} e.

Definition rbind {A B} (r : Result A) (k : A -> Result B) : Result B :=
  match r with
  | Ok a => k a
  | Raise e => Raise e
  end.

(** [row[...]] on the [None] that [fetchrow] returns when no row matches. *)
Definition none_not_subscriptable : Exception :=
  mkException "TypeError" "'NoneType' object is not subscriptable".

Definition subscript {A} (row : option A) : Result A :=
  match row with
  | Some r => Ok r
  | None => Raise none_not_subscriptable
  end.

(** [min()] and [max()] of an empty sequence. *)
Definition min_empty : Exception :=
  mkException "ValueError" "min() arg is an empty sequence".

(** [x or d] on a nullable integer, float and string column. *)
Definition or_int (x : option Z) (d : Z) : Z :=
  match x with
  | Some v => if Z.eqb v 0 then d else v
  | None => d
  end.

Definition or_float (x : option Q) (d : Q) : Q :=
  match x with
  | Some v => if Qeq_bool v 0 then d else v
  | None => d
  end.

Definition or_str (x : option string) (d : string) : string :=
  match x with
  | Some EmptyString => d
  | Some v => v
  | None => d
  end.

(** [round(x)]: nearest integer, ties to even. *)
Definition round_half_even (x : Q) : Z :=
  let f := Qfloor x in
  match Qcompare (x - inject_Z f) (1 # 2) with
  | Lt => f
  | Gt => f + 1
  | Eq => if Z.even f then f else f + 1
  end.

(** [round(x, 2)]. *)
Definition round2 (x : Q) : Q := Qmake (round_half_even (x * 100)) 100.

(** [min], [max] and [sum] of a list of floats, given its head. *)
Definition qmin (a b : Q) : Q := if Qle_bool a b then a else b.
Definition qmax (a b : Q) : Q := if Qle_bool b a then a else b.

Definition min_of (x : Q) (l : list Q) : Q := fold_left qmin l x.
Definition max_of (x : Q) (l : list Q) : Q := fold_left qmax l x.
Definition sum (l : list Q) : Q := fold_left Qplus l 0%Q.

(** [range(n)] for an [int] n: empty when n is not positive. *)
Definition range (n : Z) : list nat := seq 0 (Z.to_nat n).

(** [s.replace(a, b)] for single characters. *)
Fixpoint replace_char (a b : ascii) (s : string) : string :=
  match s with
  | EmptyString => EmptyString
  | String c s' =>
      String (if Ascii.eqb c a then b else c) (replace_char a b s')
  end.

(** [s.lower()] on the ASCII letters. *)
Definition lower_ascii (c : ascii) : ascii :=
  let n := nat_of_ascii c in
  if (Nat.leb 65 n && Nat.leb n 90)%bool then ascii_of_nat (n + 32) else c.

Fixpoint lower (s : string) : string :=
  match s with
  | EmptyString => EmptyString
  | String c s' => String (lower_ascii c) (lower s')
  end.

(** *** Ordered dictionaries

    Insertion-ordered, one entry per key: assignment to a key that is
    present keeps its position, a new key goes last. *)
Section OrderedDict.
Context {V : Type}.

Fixpoint od_get (d : list (string * V)) (k : string) : option V :=
  match d with
  | [] => None
  | (k', v) :: d' => if String.eqb k' k then Some v else od_get d' k
  end.

Fixpoint od_set (d : list (string * V)) (k : string) (v : V)
  : list (string * V) :=
  match d with
  | [] => [(k, v)]
  | (k', v') :: d' =>
      if String.eqb k' k then (k, v) :: d' else (k', v') :: od_set d' k v
  end.

Definition od_keys (d : list (string * V)) : list string := map fst d.
End OrderedDict.

(** *** [sorted(items, key=...)]

    The keys of the fan-out are floats or [float('inf')]. Python's sort
    is stable and compares keys with [<] only. *)
Inductive Key := Finite (q : Q) | Infinity.

Definition key_lt (a b : Key) : bool :=
  match a, b with
  | Finite x, Finite y => negb (Qle_bool y x)
  | Finite _, Infinity => true
  | Infinity, _ => false
  end.

Section Sorted.
Context {A : Type} (key : A -> Key).

(** Insert [x] behind every element that is not greater than it. *)
Fixpoint insert_by (x : A) (l : list A) : list A :=
  match l with
  | [] => [x]
  | y :: l' =>
      if key_lt (key x) (key y) then x :: y :: l' else y :: insert_by x l'
  end.

Definition sorted (l : list A) : list A :=
  fold_left (fun acc x => insert_by x acc) l [].
End Sorted.

(** *** The random module

    [random.random()] is a 53-bit draw divided by 2^53; the tape gives
    the raw draws. *)
Definition two53 : Z := 2 ^ 53.

Definition random (tape : nat -> Z) (pos : nat) : Q :=
  Qmake (tape pos mod two53) (Z.to_pos two53).

(** [random.uniform(a, b)] is [a + (b - a) * random()]. *)
Definition uniform (tape : nat -> Z) (pos : nat) (a b : Q) : Q :=
  (a + (b - a) * random tape pos)%Q.

(** [random.randint(a, b)]: an integer of [a..b], here the raw draw
    reduced to the width of the interval. *)
Definition randint (tape : nat -> Z) (pos : nat) (a b : Z) : Z :=
  a + tape pos mod (b - a + 1).

End Py.

Notation "'try' x <- r ; k" := (Py.rbind r (fun x => k))
  (at level 10, x name, r at level 100, k at level 200, only parsing).

(* ================================================================== *)
(** ** app/config.py *)
(* ================================================================== *)

Module Config.

Record RegionConfig := mkRegion {
  name : string;
  role : string;
  env_key : string;
  color : string
}.

(** The [dsn] property: [os.getenv(self.env_key)]. *)
Definition dsn (environ : gmap string string) (r : RegionConfig)
  : option string := environ !! env_key r.

(** Truthiness of a DSN: unset and empty are both false. *)
Definition dsn_truthy (d : option string) : bool :=
  match d with
  | Some EmptyString => false
  | Some _ => true
  | None => false
  end.

Definition REGIONS : list (string * RegionConfig) :=
  [ ("us-east",
     mkRegion "US East (Virginia)" "PRIMARY" "AIVEN_PG_US_EAST" "#10b981");
    ("eu-west",
     mkRegion "EU West (Ireland)" "REPLICA" "AIVEN_PG_EU_WEST" "#3b82f6");
    ("asia-pacific",
     mkRegion "Asia Pacific (Singapore)" "REPLICA" "AIVEN_PG_ASIA_PACIFIC"
              "#f59e0b") ].

(** [DEFAULTS["load_test_concurrent"]]. *)
Definition load_test_concurrent : Z := 10.

End Config.

(* ================================================================== *)
(** ** app/database.py *)
(* ================================================================== *)

Module Database.
Import Py.

Record ConnectionResult := mkConnectionResult {
  success : bool;
  latency_ms : Q;
  server_ip : string;
  server_port : Z;
  backend_pid : Z;
  database : string;
  pg_version : string;
  error : string
}.

Record HealthMetrics := mkHealthMetrics {
  cache_hit_ratio : Q;
  active_connections : Z;
  max_connections : Z;
  db_size_mb : Q
}.

Record LoadTestResult := mkLoadTestResult {
  concurrent : Z;
  min_ms : Q;
  max_ms : Q;
  avg_ms : Q;
  results : list Q
}.

(** [ConnectionResult(success=False, error=msg)]: the other fields keep
    the defaults of the dataclass. *)
Definition failed (msg : string) : ConnectionResult :=
  mkConnectionResult false 0 "" 0 0 "" "" msg.

(** *** The database driver

    The rows of the four queries, with their nullable columns, and a
    pooled connection as what its calls answer: each [fetchrow] raises
    or returns a row or [None]; [elapsed] is the time in seconds between
    the two readings of [time.perf_counter()] around its use. *)
Record InfoRow := mkInfoRow {
  row_server_ip : option string;
  row_server_port : option Z;
  row_backend_pid : option Z;
  row_database : option string;
  row_pg_version : option string
}.

Record CacheRow := mkCacheRow { row_cache_hit_ratio : option Q }.

Record CountsRow := mkCountsRow {
  row_active_connections : option Z;
  row_max_connections : option Z
}.

Record SizeRow := mkSizeRow { row_db_size_mb : option Q }.

Record Connection := mkConnection {
  fetch_info : Result (option InfoRow);
  fetch_cache : Result (option CacheRow);
  fetch_counts : Result (option CountsRow);
  fetch_size : Result (option SizeRow);
  fetchval_1 : Result unit;
  release : Result unit;
  elapsed : Q
}.

(** A pool answers its n-th [acquire()]. *)
Record Pool := mkPool { acquire : nat -> Result Connection }.

(** [async with pool.acquire() as conn: body]: the connection is
    released on the way out, also when the body raised; an exception of
    the release replaces the outcome of the body. *)
Definition with_conn {A} (pool : Pool) (n : nat)
    (body : Connection -> Result A) : Result A :=
  match acquire pool n with
  | Raise e => Raise e
  | Ok conn =>
      match body conn, release conn with
      | _, Raise e => Raise e
      | outcome, Ok _ => outcome
      end
  end.

(** [db_manager.get_pool(region_id)]. *)
Definition get_pool (pools : gmap string Pool) (region_id : string)
  : option Pool := pools !! region_id.

(** The [try] block of [test_connection]. *)
Definition connection_attempt (pool : Pool) : Result ConnectionResult :=
  with_conn pool 0 (fun conn =>
    try row <- fetch_info conn;
    let latency := (elapsed conn * 1000)%Q in
    try r <- subscript row;
    Ok (mkConnectionResult
          true
          (round2 latency)
          (match row_server_ip r with Some ip => ip | None => "" end)
          (or_int (row_server_port r) 0)
          (or_int (row_backend_pid r) 0)
          (or_str (row_database r) "")
          (or_str (row_pg_version r) "")
          "")).

Definition test_connection (pools : gmap string Pool) (region_id : string)
  : ConnectionResult :=
  match get_pool pools region_id with
  | None => failed "No connection pool available"
  | Some pool =>
      match connection_attempt pool with
      | Ok result => result
      | Raise e => failed (str e)
      end
  end.

(** The [try] block of [get_health_metrics]. *)
Definition metrics_attempt (pool : Pool) : Result HealthMetrics :=
  with_conn pool 0 (fun conn =>
    try cache_row <- fetch_cache conn;
    try conn_row <- fetch_counts conn;
    try size_row <- fetch_size conn;
    try c <- subscript cache_row;
    try n <- subscript conn_row;
    try s <- subscript size_row;
    Ok (mkHealthMetrics
          (or_float (row_cache_hit_ratio c) 0)
          (or_int (row_active_connections n) 0)
          (or_int (row_max_connections n) 0)
          (round2 (or_float (row_db_size_mb s) 0)))).

Definition get_health_metrics (pools : gmap string Pool) (region_id : string)
  : option HealthMetrics :=
  match get_pool pools region_id with
  | None => None
  | Some pool =>
      match metrics_attempt pool with
      | Ok metrics => Some metrics
      | Raise _ => None
      end
  end.

(** The nested [single_query] of the load test, as its n-th task. *)
Definition single_query (pool : Pool) (n : nat) : Result Q :=
  with_conn pool n (fun conn =>
    try _ <- fetchval_1 conn;
    Ok (elapsed conn * 1000)%Q).

(** [[r for r in results if isinstance(r, (int, float))]]. *)
Fixpoint valid_only (gathered : list (Result Q)) : list Q :=
  match gathered with
  | [] => []
  | Ok r :: rest => r :: valid_only rest
  | Raise _ :: rest => valid_only rest
  end.

Definition run_load_test (pools : gmap string Pool) (region_id : string)
    (concurrent : Z) : option LoadTestResult :=
  match get_pool pools region_id with
  | None => None
  | Some pool =>
      let tasks := range concurrent in
      let gathered := map (single_query pool) tasks in
      match valid_only gathered with
      | [] => None
      | r :: rest =>
          let valid_results := r :: rest in
          Some (mkLoadTestResult
                  concurrent
                  (round2 (min_of r rest))
                  (round2 (max_of r rest))
                  (round2 (Py.sum valid_results
                           / inject_Z (Z.of_nat (length valid_results))))
                  (map round2 valid_results))
      end
  end.

End Database.

(* ================================================================== *)
(** ** app/feature_flags.py *)
(* ================================================================== *)

Module FeatureFlags.
Import Py.

(** A flag is a [bool] or an [int]; [isinstance(v, bool)] tells them
    apart. *)
Inductive FlagValue := FBool (b : bool) | FInt (n : Z).

Definition is_bool (v : FlagValue) : bool :=
  match v with FBool _ => true | FInt _ => false end.

Definition truthy (v : FlagValue) : bool :=
  match v with FBool b => b | FInt n => negb (Z.eqb n 0) end.

(** [os.getenv("DEMO_MODE", "true").lower() == "true"]. *)
Definition DEMO_MODE (environ : gmap string string) : bool :=
  String.eqb (lower (default "true" (environ !! "DEMO_MODE"))) "true".

(** The store [_demo_flags] as the module creates it. *)
Definition initial_demo_flags : gmap string FlagValue :=
  <["region-us-east-enabled" := FBool true]>
  (<["region-eu-west-enabled" := FBool true]>
  (<["region-asia-pacific-enabled" := FBool true]>
  (<["enable-health-checks" := FBool true]>
  (<["enable-load-testing" := FBool true]>
  (<["dashboard-refresh-seconds" := FInt 30]> ∅))))).

(** The optional flag service: [variation(flag_key, context, default)],
    the context built from the user key. *)
Record LdClient := mkLdClient {
  variation : string -> string -> FlagValue -> FlagValue
}.

Section Evaluation.
Variable demo : bool.
Variable ld_client : option LdClient.
Variable flags : gmap string FlagValue.

Definition is_region_enabled (region_id user_key : string) : FlagValue :=
  let flag_key := "region-" +:+ region_id +:+ "-enabled" in
  match demo, ld_client with
  | false, Some client => variation client flag_key user_key (FBool true)
  | _, _ => default (FBool true) (flags !! flag_key)
  end.

Definition is_feature_enabled (feature user_key : string) : FlagValue :=
  let flag_key := "enable-" +:+ replace_char "_" "-" feature in
  match demo, ld_client with
  | false, Some client => variation client flag_key user_key (FBool true)
  | _, _ => default (FBool true) (flags !! flag_key)
  end.

Definition get_refresh_interval (user_key : string) : FlagValue :=
  match demo, ld_client with
  | false, Some client =>
      variation client "dashboard-refresh-seconds" user_key (FInt 30)
  | _, _ => default (FInt 30) (flags !! "dashboard-refresh-seconds")
  end.
End Evaluation.

(** [get_demo_flags] hands out a copy of the store. *)
Definition get_demo_flags (flags : gmap string FlagValue)
  : gmap string FlagValue := flags.

(** [toggle_demo_flag]: the returned flag and the store afterwards. *)
Definition toggle_demo_flag (flags : gmap string FlagValue)
    (flag_key : string) : bool * gmap string FlagValue :=
  match flags !! flag_key with
  | Some (FBool b) => (true, <[flag_key := FBool (negb b)]> flags)
  | Some (FInt _) => (false, flags)
  | None => (false, flags)
  end.

End FeatureFlags.

(* ================================================================== *)
(** ** app/routers/api.py *)
(* ================================================================== *)

Module Api.
Import Py Config Database FeatureFlags.

(** *** What a handler runs in

    [Env] is what a request finds and does not change: the process
    environment, the flag service if one was set up, the connection
    pools and the tape of random draws. [World] is what it changes: the
    flag store, the position on the tape and the trace of what it did. *)
Inductive Callee :=
| SimulateConnection
| TestConnection
| SimulateHealth
| GetHealthMetrics
| SimulateLoadTest
| RunLoadTest
| ToggleDemoFlag.

Inductive Event :=
| Sleep (seconds : Q)
| Call (f : Callee) (arg : string)
| Return (f : Callee) (arg : string).

Record Env := mkEnv {
  environ : gmap string string;
  ld_client : option LdClient;
  pools : gmap string Pool;
  tape : nat -> Z
}.

Record World := mkWorld {
  demo_flags : gmap string FlagValue;
  rng_pos : nat;
  trace : list Event
}.

Definition M (A : Type) : Type := World -> A * World.

Definition ret {A} (a : A) : M A := fun w => (a, w).

Definition bind {A B} (m : M A) (k : A -> M B) : M B :=
  fun w => let (a, w') := m w in k a w'.

Notation "'run' x <- m ; k" := (bind m (fun x => k))
  (at level 10, x name, m at level 100, k at level 200, only parsing).

Definition log (ev : Event) : M unit :=
  fun w => (tt, mkWorld (demo_flags w) (rng_pos w) (trace w ++ [ev])).

Definition draw : M nat :=
  fun w => (rng_pos w, mkWorld (demo_flags w) (S (rng_pos w)) (trace w)).

Definition read_flags : M (gmap string FlagValue) :=
  fun w => (demo_flags w, w).

Definition write_flags (flags : gmap string FlagValue) : M unit :=
  fun w => (tt, mkWorld flags (rng_pos w) (trace w)).

(** [await asyncio.sleep(seconds)]. *)
Definition sleep (seconds : Q) : M unit := log (Sleep seconds).

(** *** Responses

    An HTML fragment, or a template with the entries of its context
    (the [request] entry apart); an exception that leaves a handler is
    the server's error response. *)
Inductive Context :=
| CtxRegion (region : RegionConfig)
| CtxConnection (region : RegionConfig) (result : ConnectionResult)
| CtxAllResults (results : list (string * ConnectionResult))
                (regions : list (string * RegionConfig))
| CtxMetrics (metrics : HealthMetrics)
| CtxLoadTest (region : RegionConfig) (result : LoadTestResult)
| CtxFlags (flags : gmap string FlagValue).

Inductive Response :=
| HTMLResponse (content : string)
| TemplateResponse (name : string) (context : Context)
| Unhandled (e : Exception).

Record Request := mkRequest { headers : gmap string string }.

Definition dq : string := String (ascii_of_nat 34) EmptyString.

(** [<div class="cls">text</div>]. *)
Definition div (cls text : string) : string :=
  "<div class=" +:+ dq +:+ cls +:+ dq +:+ ">" +:+ text +:+ "</div>".

Definition unknown_region : string := div "text-red-400" "❌ Unknown region".
Definition no_regions_enabled : string :=
  div "text-amber-400" "⚠️ No regions enabled".
Definition health_checks_disabled : string :=
  div "text-amber-400" "⚠️ Health checks disabled".
Definition load_testing_disabled : string :=
  div "text-amber-400" "⚠️ Load testing disabled".
Definition region_disabled : string :=
  div "text-amber-400" "⚠️ Region disabled".
Definition failed_to_fetch_metrics : string :=
  div "text-red-400" "❌ Failed to fetch metrics".
Definition load_test_failed : string :=
  div "text-red-400" "❌ Load test failed".
Definition not_in_demo_mode : string :=
  div "text-red-400" "❌ Not in demo mode".

(** [KeyError(k)], with the key as its text; Python shows the key
    through [repr], which the handlers never come to do. *)
Definition key_error (k : string) : Exception := mkException "KeyError" k.

Section Handlers.
Variable env : Env.

Definition demo : bool := DEMO_MODE (environ env).

(** [request.headers.get("X-User-ID", "anonymous")]: the headers of a
    request are kept under their names in lower case, and the name
    asked for is lowered before it is looked up. *)
Definition user_key_of (request : Request) : string :=
  default "anonymous" (headers request !! lower "X-User-ID").

Definition random_uniform (a b : Q) : M Q :=
  run pos <- draw; ret (uniform (tape env) pos a b).

Definition random_randint (a b : Z) : M Z :=
  run pos <- draw; ret (randint (tape env) pos a b).

(** *** Demo mode simulators *)

(** The baseline table of both simulators, with its default. *)
Definition base_latency (region_id : string) : Z :=
  default 100
    (od_get [("us-east", 25); ("eu-west", 120); ("asia-pacific", 180)]
            region_id).

Definition simulate_connection (region_id : string) : M ConnectionResult :=
  run jitter <- random_uniform (-10) 20;
  run a <- random_randint 1 255;
  run b <- random_randint 1 255;
  run c <- random_randint 1 255;
  run pid <- random_randint 10000 50000;
  ret (mkConnectionResult
         true
         (round2 (inject_Z (base_latency region_id) + jitter))
         ("10." +:+ pretty a +:+ "." +:+ pretty b +:+ "." +:+ pretty c)
         6543
         pid
         "defaultdb"
         "PostgreSQL 16.2"
         "").

Definition simulate_health : M HealthMetrics :=
  run ratio <- random_uniform 0 (45 # 10);
  run active <- random_randint 5 25;
  run size <- random_uniform 100 500;
  ret (mkHealthMetrics (round2 (95 + ratio)) active 100 (round2 size)).

(** The comprehension of the simulated load test, one draw a call. *)
Fixpoint simulate_samples (base : Z) (calls : list nat) : M (list Q) :=
  match calls with
  | [] => ret []
  | i :: rest =>
      run jitter <- random_uniform (-5) 30;
      run more <- simulate_samples base rest;
      ret (round2 (inject_Z base + jitter
                   + inject_Z (Z.of_nat i) * (15 # 10)) :: more)
  end.

Definition simulate_load_test (region_id : string) (concurrent : Z)
  : M (Result LoadTestResult) :=
  let base := base_latency region_id in
  run results <- simulate_samples base (range concurrent);
  match results with
  | [] => ret (Raise min_empty)
  | r :: rest =>
      ret (Ok (mkLoadTestResult
                 concurrent
                 (min_of r rest)
                 (max_of r rest)
                 (round2 (Py.sum results
                          / inject_Z (Z.of_nat (length results))))
                 results))
  end.

(** *** The calls a handler makes, logged on entry and on return *)

Definition logged {A} (f : Callee) (arg : string) (m : M A) : M A :=
  run _ <- log (Call f arg);
  run a <- m;
  run _ <- log (Return f arg);
  ret a.

(** The result of one region, simulated or real. *)
Definition connection_result (region_id : string) (region : RegionConfig)
  : M ConnectionResult :=
  if demo || negb (dsn_truthy (dsn (environ env) region)) then
    logged SimulateConnection region_id (simulate_connection region_id)
  else
    logged TestConnection region_id
           (ret (test_connection (pools env) region_id)).

Definition region_enabled (region_id user_key : string) : M bool :=
  run flags <- read_flags;
  ret (truthy (is_region_enabled demo (ld_client env) flags
                                 region_id user_key)).

Definition feature_enabled (feature user_key : string) : M bool :=
  run flags <- read_flags;
  ret (truthy (is_feature_enabled demo (ld_client env) flags
                                  feature user_key)).

(** *** Region testing endpoints *)

Definition test_region (region_id : string) (request : Request)
  : M Response :=
  let user_key := user_key_of request in
  match od_get REGIONS region_id with
  | None => ret (HTMLResponse unknown_region)
  | Some region =>
      run enabled <- region_enabled region_id user_key;
      if negb enabled then
        ret (TemplateResponse "partials/region_disabled.html"
                              (CtxRegion region))
      else
        run jitter <- random_uniform 0 (4 # 10);
        run _ <- sleep ((3 # 10) + jitter);
        run result <- connection_result region_id region;
        ret (TemplateResponse "partials/connection_result.html"
                              (CtxConnection region result))
  end.

(** [[rid for rid in REGIONS if is_region_enabled(rid, user_key)]]. *)
Fixpoint enabled_regions (user_key : string) (rids : list string)
  : M (list string) :=
  match rids with
  | [] => ret []
  | rid :: rest =>
      run enabled <- region_enabled rid user_key;
      run more <- enabled_regions user_key rest;
      ret (if enabled then rid :: more else more)
  end.

(** The loop that fills [results], one region after the other. *)
Fixpoint test_each (enabled : list string)
    (results : list (string * ConnectionResult))
  : M (Result (list (string * ConnectionResult))) :=
  match enabled with
  | [] => ret (Ok results)
  | region_id :: rest =>
      match od_get REGIONS region_id with
      | None => ret (Raise (key_error region_id))
      | Some region =>
          run result <- connection_result region_id region;
          test_each rest (od_set results region_id result)
      end
  end.

(** The sort key of the fan-out:
    [x[1].latency_ms if x[1].success else float('inf')]. *)
Definition latency_key (x : string * ConnectionResult) : Key :=
  if success (snd x) then Finite (latency_ms (snd x)) else Infinity.

Definition test_all_regions (request : Request) : M Response :=
  let user_key := user_key_of request in
  run enabled <- enabled_regions user_key (od_keys REGIONS);
  match enabled with
  | [] => ret (HTMLResponse no_regions_enabled)
  | _ :: _ =>
      run jitter <- random_uniform 0 (5 # 10);
      run _ <- sleep ((5 # 10) + jitter);
      run tested <- test_each enabled [];
      match tested with
      | Raise e => ret (Unhandled e)
      | Ok results =>
          let sorted_results := sorted latency_key results in
          ret (TemplateResponse "partials/all_results.html"
                                (CtxAllResults sorted_results REGIONS))
      end
  end.

(** *** Health metrics endpoint *)

Definition region_health (region_id : string) (request : Request)
  : M Response :=
  let user_key := user_key_of request in
  match od_get REGIONS region_id with
  | None => ret (HTMLResponse unknown_region)
  | Some region =>
      run feature <- feature_enabled "health-checks" user_key;
      if negb feature then ret (HTMLResponse health_checks_disabled)
      else
        run enabled <- region_enabled region_id user_key;
        if negb enabled then ret (HTMLResponse region_disabled)
        else
          run jitter <- random_uniform 0 (2 # 10);
          run _ <- sleep ((2 # 10) + jitter);
          run metrics <-
            (if demo || negb (dsn_truthy (dsn (environ env) region)) then
               logged SimulateHealth region_id
                      (run m <- simulate_health; ret (Some m))
             else
               logged GetHealthMetrics region_id
                      (ret (get_health_metrics (pools env) region_id)));
          match metrics with
          | None => ret (HTMLResponse failed_to_fetch_metrics)
          | Some m =>
              ret (TemplateResponse "partials/health_metrics.html"
                                    (CtxMetrics m))
          end
  end.

(** *** Load testing endpoint *)

Definition load_test (region_id : string) (request : Request)
  : M Response :=
  let user_key := user_key_of request in
  match od_get REGIONS region_id with
  | None => ret (HTMLResponse unknown_region)
  | Some region =>
      run feature <- feature_enabled "load-testing" user_key;
      if negb feature then ret (HTMLResponse load_testing_disabled)
      else
        run enabled <- region_enabled region_id user_key;
        if negb enabled then ret (HTMLResponse region_disabled)
        else
          let concurrent := load_test_concurrent in
          run jitter <- random_uniform 0 (5 # 10);
          run _ <- sleep ((15 # 10) + jitter);
          run outcome <-
            (if demo || negb (dsn_truthy (dsn (environ env) region)) then
               logged SimulateLoadTest region_id
                 (run r <- simulate_load_test region_id concurrent;
                  ret (match r with
                       | Ok result => Ok (Some result)
                       | Raise e => Raise e
                       end))
             else
               logged RunLoadTest region_id
                 (ret (Ok (run_load_test (pools env) region_id
                                         concurrent))));
          match outcome with
          | Raise e => ret (Unhandled e)
          | Ok None => ret (HTMLResponse load_test_failed)
          | Ok (Some result) =>
              ret (TemplateResponse "partials/load_test_result.html"
                                    (CtxLoadTest region result))
          end
  end.

(** *** Feature flag endpoints *)

Definition flag_panel : M Response :=
  run flags <- read_flags;
  ret (TemplateResponse "partials/flag_panel.html"
                        (CtxFlags (get_demo_flags flags))).

Definition toggle_flag (flag_key : string) (request : Request)
  : M Response :=
  if negb demo then ret (HTMLResponse not_in_demo_mode)
  else
    run _ <- logged ToggleDemoFlag flag_key
               (run flags <- read_flags;
                let (toggled, flags') := toggle_demo_flag flags flag_key in
                run _ <- write_flags flags';
                ret toggled);
    flag_panel.

Definition get_flags (request : Request) : M Response := flag_panel.

Definition get_flag_panel (request : Request) : M Response := flag_panel.

(** *** Compatibility routes *)

Definition test_connection_get := test_region.
Definition health_get := region_health.
Definition all_results_get := test_all_regions.
Definition load_test_compat := load_test.

End Handlers.
End Api.

(* ================================================================== *)
(** ** app/database.py: the pool manager *)
(* ================================================================== *)

Module DatabaseManager.
Import Py Config Database.

(** The driver as the manager meets it: whether the import of asyncpg
    succeeded, what [create_pool] answers for a DSN, and what the
    [close()] of the pool of a region answers. *)
Record Driver := mkDriver {
  ASYNCPG_AVAILABLE : bool;
  create_pool : string -> Result Pool;
  close_pool : string -> Result unit
}.

(** The loop of [initialize] over the items of the registry: the pools
    afterwards and the lines printed. *)
Fixpoint connect_regions (driver : Driver) (environ : gmap string string)
    (regions : list (string * RegionConfig)) (pools : list (string * Pool))
  : list (string * Pool) * list string :=
  match regions with
  | [] => (pools, [])
  | (region_id, config) :: rest =>
      match dsn environ config with
      | Some (String c s as d) =>
          match create_pool driver d with
          | Ok pool =>
              let (pools', out) :=
                connect_regions driver environ rest
                                (od_set pools region_id pool) in
              (pools', ("✅ Connected to " +:+ name config) :: out)
          | Raise e =>
              let (pools', out) :=
                connect_regions driver environ rest pools in
              (pools',
               ("❌ Failed to connect to " +:+ name config +:+ ": "
                  +:+ str e) :: out)
          end
      | _ =>
          let (pools', out) := connect_regions driver environ rest pools in
          (pools', ("⚠️  No DSN configured for " +:+ name config) :: out)
      end
  end.

Definition initialize (driver : Driver) (environ : gmap string string)
    (pools : list (string * Pool)) : list (string * Pool) * list string :=
  if negb (ASYNCPG_AVAILABLE driver) then
    (pools, ["⚠️  asyncpg not available - database connections disabled"])
  else connect_regions driver environ REGIONS pools.

(** The loop of [close]: the lines printed, and whether the loop got
    through or was left by an exception. *)
Fixpoint close_pools (driver : Driver) (items : list (string * Pool))
  : list string * Result unit :=
  match items with
  | [] => ([], Ok tt)
  | (region_id, _) :: rest =>
      match close_pool driver region_id with
      | Raise e => ([], Raise e)
      | Ok _ =>
          match od_get REGIONS region_id with
          | None => ([], Raise (mkException "KeyError" region_id))
          | Some region =>
              let (out, outcome) := close_pools driver rest in
              (("✅ Closed pool for " +:+ name region) :: out, outcome)
          end
      end
  end.

(** [close]: the pools afterwards, the lines printed and the outcome.
    [self._pools.clear()] is reached only when the loop got through. *)
Definition close (driver : Driver) (pools : list (string * Pool))
  : list (string * Pool) * list string * Result unit :=
  let (out, outcome) := close_pools driver pools in
  match outcome with
  | Ok _ => ([], out, Ok tt)
  | Raise e => (pools, out, Raise e)
  end.

(** [get_pool] on the manager's own dictionary. *)
Definition get_pool (pools : list (string * Pool)) (region_id : string)
  : option Pool := od_get pools region_id.

(** The dictionary as the map that the database functions look up. *)
Definition pool_map (pools : list (string * Pool)) : gmap string Pool :=
  list_to_map pools.

End DatabaseManager.

(* ================================================================== *)
(** ** app/feature_flags.py: the flag service *)
(* ================================================================== *)

Module FlagService.
Import Py FeatureFlags.

(** The SDK as the module meets it: whether its import succeeded, the
    client that [LDClient(Config(sdk_key))] builds and whether that
    client reports itself initialized. *)
Record Sdk := mkSdk {
  LD_AVAILABLE : bool;
  LDClient : string -> LdClient;
  is_initialized : string -> bool
}.

(** [init_launchdarkly]: the global [_ld_client] afterwards, which was
    [None] before, and the line printed. *)
Definition init_launchdarkly (demo : bool) (sdk : Sdk)
    (environ : gmap string string) : option LdClient * list string :=
  if demo then
    (None, ["🚩 Running in DEMO MODE - using simulated feature flags"])
  else if negb (LD_AVAILABLE sdk) then
    (None, ["⚠️  LaunchDarkly SDK not installed - using demo flags"])
  else
    match environ !! "LAUNCHDARKLY_SDK_KEY" with
    | Some (String c s as sdk_key) =>
        (Some (LDClient sdk sdk_key),
         [if is_initialized sdk sdk_key
          then "✅ LaunchDarkly client initialized"
          else "❌ LaunchDarkly client failed to initialize"])
    | _ => (None, ["⚠️  LAUNCHDARKLY_SDK_KEY not set - using demo flags"])
    end.

(** [shutdown_launchdarkly]: the lines printed. *)
Definition shutdown_launchdarkly (ld_client : option LdClient)
  : list string :=
  match ld_client with
  | Some _ => ["✅ LaunchDarkly client closed"]
  | None => []
  end.

(** [FeatureFlags.close]. *)
Definition close (ld_client : option LdClient) : list string :=
  shutdown_launchdarkly ld_client.

End FlagService.

(* ================================================================== *)
(** ** app/routers/pages.py *)
(* ================================================================== *)

Module Pages.
Import Py Config FeatureFlags Api.

(** An entry of [regions_data]. *)
Record RegionCard := mkRegionCard {
  id : string;
  name : string;
  role : string;
  color : string;
  enabled : FlagValue;
  configured : bool
}.

(** The context of [index.html], the [request] entry apart. *)
Record DashboardContext := mkDashboardContext {
  regions : list (string * RegionCard);
  health_checks_enabled : FlagValue;
  load_testing_enabled : FlagValue;
  refresh_interval : FlagValue;
  demo_mode : bool;
  flags : gmap string FlagValue
}.

Section Dashboard.
Variable env : Env.

(** The loop that fills [regions_data]. *)
Fixpoint region_cards (user_key : string)
    (items : list (string * RegionConfig))
    (regions_data : list (string * RegionCard))
  : M (list (string * RegionCard)) :=
  match items with
  | [] => ret regions_data
  | (region_id, region) :: rest =>
      bind read_flags (fun store =>
        region_cards user_key rest
          (od_set regions_data region_id
             (mkRegionCard
                region_id
                (Config.name region)
                (Config.role region)
                (Config.color region)
                (is_region_enabled (demo env) (ld_client env) store
                                   region_id user_key)
                (match dsn (environ env) region with
                 | Some _ => true
                 | None => false
                 end))))
  end.

Definition dashboard (request : Request) : M (string * DashboardContext) :=
  let user_key := user_key_of request in
  bind (region_cards user_key REGIONS []) (fun regions_data =>
  bind read_flags (fun store =>
    ret ("index.html",
         mkDashboardContext
           regions_data
           (is_feature_enabled (demo env) (ld_client env) store
                               "health-checks" user_key)
           (is_feature_enabled (demo env) (ld_client env) store
                               "load-testing" user_key)
           (get_refresh_interval (demo env) (ld_client env) store user_key)
           (demo env)
           (if demo env then get_demo_flags store else ∅)))).

End Dashboard.
End Pages.

(* ================================================================== *)
(** ** app/main.py *)
(* ================================================================== *)

Module Main.
Import Py Config Database FeatureFlags Api.

(** *** The lifespan of the application *)

(** Startup: the pools come from [db_manager.initialize()]; nothing
    calls [init_launchdarkly], so the global [_ld_client] keeps the
    [None] the module gave it. *)
Definition startup (driver : DatabaseManager.Driver)
    (environ : gmap string string)
  : list (string * Pool) * option LdClient * list string :=
  let (pools, out) := DatabaseManager.initialize driver environ [] in
  (pools, None, "Starting up..." :: out).

(** The environment that the handlers of the started application run
    in. *)
Definition running (driver : DatabaseManager.Driver)
    (environ : gmap string string) (tape : nat -> Z) : Env :=
  let '(pools, client, _) := startup driver environ in
  mkEnv environ client (DatabaseManager.pool_map pools) tape.

(** Shutdown: the pools afterwards, the lines printed and the outcome;
    [feature_flags.close()] is reached only when closing the pools did
    not raise. *)
Definition shutdown (driver : DatabaseManager.Driver)
    (pools : list (string * Pool)) (ld_client : option LdClient)
  : list (string * Pool) * list string * Result unit :=
  let '(pools', out, outcome) := DatabaseManager.close driver pools in
  match outcome with
  | Ok _ =>
      (pools', "Shutting down..." :: out ++ FlagService.close ld_client,
       Ok tt)
  | Raise e => (pools', "Shutting down..." :: out, Raise e)
  end.

(** *** The routes

    A path is the list of its segments; a route is a mount under a
    prefix or a method with a pattern of literal segments and
    parameters. The routes that the framework adds for its own
    documentation pages are not listed. *)
Inductive Method := GET | POST.

Inductive Segment := Lit (text : string) | Param.

Inductive Endpoint :=
| Static
| Dashboard
| Root
| TestRegion
| TestAllRegions
| RegionHealth
| LoadTest
| ToggleFlag
| GetFlags
| GetFlagPanel
| TestConnectionGet
| HealthGet
| AllResultsGet
| LoadTestCompat.

Inductive Route :=
| Mount (prefix : list string) (endpoint : Endpoint)
| At (method : Method) (pattern : list Segment) (endpoint : Endpoint).

Definition method_eqb (a b : Method) : bool :=
  match a, b with
  | GET, GET => true
  | POST, POST => true
  | _, _ => false
  end.

(** The parameters that a pattern captures from a path, when the path
    has the shape of the pattern; a parameter takes one non-empty
    segment. *)
Fixpoint match_pattern (pattern : list Segment) (path : list string)
  : option (list string) :=
  match pattern, path with
  | [], [] => Some []
  | Lit text :: pattern', segment :: path' =>
      if String.eqb text segment then match_pattern pattern' path'
      else None
  | Param :: pattern', segment :: path' =>
      match segment with
      | EmptyString => None
      | String _ _ =>
          match match_pattern pattern' path' with
          | Some captured => Some (segment :: captured)
          | None => None
          end
      end
  | _, _ => None
  end.

Fixpoint starts_with (prefix path : list string) : option (list string) :=
  match prefix, path with
  | [], rest => Some rest
  | p :: prefix', segment :: path' =>
      if String.eqb p segment then starts_with prefix' path' else None
  | _ :: _, [] => None
  end.

Definition match_route (route : Route) (method : Method)
    (path : list string) : option (Endpoint * list string) :=
  match route with
  | Mount prefix endpoint =>
      match starts_with prefix path with
      | Some rest => Some (endpoint, rest)
      | None => None
      end
  | At m pattern endpoint =>
      if method_eqb m method then
        match match_pattern pattern path with
        | Some captured => Some (endpoint, captured)
        | None => None
        end
      else None
  end.

(** [include_router(router, prefix=...)]. *)
Definition include_router (prefix : list string) (router : list Route)
  : list Route :=
  map (fun route =>
         match route with
         | Mount p endpoint => Mount (prefix ++ p) endpoint
         | At m pattern endpoint =>
             At m (map Lit prefix ++ pattern) endpoint
         end) router.

(** The decorators of [pages.py] and of [api.py], in their order. *)
Definition pages_router : list Route := [At GET [] Dashboard].

Definition api_router : list Route :=
  [ At POST [Lit "regions"; Param; Lit "test"] TestRegion;
    At POST [Lit "regions"; Lit "test-all"] TestAllRegions;
    At POST [Lit "regions"; Param; Lit "health"] RegionHealth;
    At POST [Lit "regions"; Param; Lit "load-test"] LoadTest;
    At POST [Lit "flags"; Param; Lit "toggle"] ToggleFlag;
    At GET [Lit "flags"] GetFlags;
    At GET [Lit "flag-panel"] GetFlagPanel;
    At GET [Lit "test-connection"; Param] TestConnectionGet;
    At GET [Lit "health"; Param] HealthGet;
    At GET [Lit "all-results"] AllResultsGet;
    At POST [Lit "load-test"; Param] LoadTestCompat ].

(** The routes of [app], as [main.py] adds them. *)
Definition routes : list Route :=
  [Mount ["static"] Static]
    ++ include_router [] pages_router
    ++ include_router ["api"] api_router
    ++ [At GET [] Root].

(** The first route that matches takes the request. *)
Fixpoint dispatch (table : list Route) (method : Method)
    (path : list string) : option (Endpoint * list string) :=
  match table with
  | [] => None
  | route :: rest =>
      match match_route route method path with
      | Some found => Some found
      | None => dispatch rest method path
      end
  end.

(** What the application answers. *)
Inductive AppResponse :=
| Fragment (response : Response)
| Page (name : string) (context : Pages.DashboardContext)
| BarePage (name : string)
| StaticFile (path : list string)
| NotFound.

(** [root]. *)
Definition root (request : Request) : M AppResponse :=
  ret (BarePage "index.html").

Section Serving.
Variable env : Env.

Definition fragment (m : M Response) : M AppResponse :=
  bind m (fun response => ret (Fragment response)).

Definition call (endpoint : Endpoint) (captured : list string)
    (request : Request) : M AppResponse :=
  match endpoint, captured with
  | Static, path => ret (StaticFile path)
  | Dashboard, [] =>
      bind (Pages.dashboard env request) (fun page =>
        ret (Page (fst page) (snd page)))
  | Root, [] => root request
  | TestRegion, [region_id] => fragment (test_region env region_id request)
  | TestAllRegions, [] => fragment (test_all_regions env request)
  | RegionHealth, [region_id] =>
      fragment (region_health env region_id request)
  | LoadTest, [region_id] => fragment (load_test env region_id request)
  | ToggleFlag, [flag_key] => fragment (toggle_flag env flag_key request)
  | GetFlags, [] => fragment (get_flags request)
  | GetFlagPanel, [] => fragment (get_flag_panel request)
  | TestConnectionGet, [region_id] =>
      fragment (test_connection_get env region_id request)
  | HealthGet, [region_id] => fragment (health_get env region_id request)
  | AllResultsGet, [] => fragment (all_results_get env request)
  | LoadTestCompat, [region_id] =>
      fragment (load_test_compat env region_id request)
  | _, _ => ret NotFound
  end.

Definition serve (method : Method) (path : list string)
    (request : Request) : M AppResponse :=
  match dispatch routes method path with
  | Some (endpoint, captured) => call endpoint captured request
  | None => ret NotFound
  end.

(** A request as it arrives, and a run of requests one after the
    other. *)
Record Arrival := mkArrival {
  arrival_method : Method;
  arrival_path : list string;
  arrival_request : Request
}.

Fixpoint serve_all (arrivals : list Arrival) (w : World)
  : list AppResponse * World :=
  match arrivals with
  | [] => ([], w)
  | a :: rest =>
      let (response, w1) :=
        serve (arrival_method a) (arrival_path a) (arrival_request a) w in
      let (responses, w2) := serve_all rest w1 in
      (response :: responses, w2)
  end.

End Serving.
End Main.

(* ================================================================== *)
(** ** Vocabulary of the properties *)
(* ================================================================== *)

Import Py Config Database FeatureFlags Api.

(** The order on sort keys: floats by [<=], infinity above them all. *)
Definition Key_le (a b : Key) : Prop :=
  match a, b with
  | Finite x, Finite y => (x <= y)%Q
  | _, Infinity => True
  | Infinity, Finite _ => False
  end.

Definition le_by {A} (key : A -> Key) (a b : A) : Prop :=
  Key_le (key a) (key b).



(** [m] is a least, resp. greatest, element of [l]. *)
Definition least_of (m : Q) (l : list Q) : Prop :=
  In m l /\ Forall (fun x => (m <= x)%Q) l.

Definition greatest_of (m : Q) (l : list Q) : Prop :=
  In m l /\ Forall (fun x => (x <= m)%Q) l.

(** A key that [toggle_demo_flag] refuses: absent, or not a boolean. *)
Definition not_toggleable (flags : gmap string FlagValue) (key : string)
  : Prop :=
  flags !! key = None \/ exists n, flags !! key = Some (FInt n).

(** What the flag guards of a handler see in a given state. *)
Definition region_flag (env : Env) (w : World) (request : Request)
    (region_id : string) : bool :=
  truthy (is_region_enabled (demo env) (ld_client env) (demo_flags w)
                            region_id (user_key_of request)).

Definition feature_flag (env : Env) (w : World) (request : Request)
    (feature : string) : bool :=
  truthy (is_feature_enabled (demo env) (ld_client env) (demo_flags w)
                             feature (user_key_of request)).

(** Which function the fan-out calls for a region: the simulator in
    demo mode or without a DSN, the connection test otherwise. *)
Definition callee_of (env : Env) (region_id : string) : Callee :=
  match od_get REGIONS region_id with
  | Some region =>
      if demo env || negb (dsn_truthy (dsn (environ env) region))
      then SimulateConnection
      else TestConnection
  | None => TestConnection
  end.

(** The entry and the return of that call, as the trace has them. *)
Definition calls_of (env : Env) (region_id : string) : list Event :=
  [Call (callee_of env region_id) region_id;
   Return (callee_of env region_id) region_id].

(** *** Concrete inputs *)

Definition sample_tape : nat -> Z :=
  fun n => Z.of_nat n * 1234567890123457 + 987654321.

Definition plain_request : Request := mkRequest ∅.

(** The state of a process that has just started. *)
Definition fresh_world : World := mkWorld initial_demo_flags 0 [].

(** Nothing set in the environment: demo mode, no DSN, no pool. *)
Definition demo_env : Env := mkEnv ∅ None ∅ sample_tape.

(** A connection whose queries all answer, after [seconds]. *)
Definition healthy_connection (seconds : Q) : Connection :=
  mkConnection
    (Ok (Some (mkInfoRow (Some "10.0.0.7") (Some 5432) (Some 4711)
                         (Some "defaultdb") (Some "PostgreSQL 16.2"))))
    (Ok (Some (mkCacheRow (Some (9912 # 100)))))
    (Ok (Some (mkCountsRow (Some 12) (Some 100))))
    (Ok (Some (mkSizeRow (Some (123456 # 1000)))))
    (Ok tt)
    (Ok tt)
    seconds.

(** The driver's timeout: an exception whose [str] is empty. *)
Definition timeout_error : Exception := mkException "TimeoutError" "".

(** A connection whose every query times out. *)
Definition timed_out_connection : Connection :=
  mkConnection (Raise timeout_error) (Raise timeout_error)
               (Raise timeout_error) (Raise timeout_error)
               (Raise timeout_error) (Ok tt) 5.

Definition healthy_pool (seconds : Q) : Pool :=
  mkPool (fun _ => Ok (healthy_connection seconds)).

Definition timed_out_pool : Pool :=
  mkPool (fun _ => Ok timed_out_connection).

(** A pool whose calls answer in turn after 10, 11, 12, ... ms, the
    first one apart, which times out. *)
Definition flaky_pool : Pool :=
  mkPool (fun n =>
    match n with
    | O => Ok timed_out_connection
    | S _ => Ok (healthy_connection (Qmake (10 + Z.of_nat n) 1000))
    end).

(** A deployment outside demo mode: two regions with a DSN and a pool,
    the third one left unconfigured, no flag service. *)
Definition live_environ : gmap string string :=
  <["DEMO_MODE" := "false"]>
  (<["AIVEN_PG_US_EAST" := "postgres://us-east.example/defaultdb"]>
  (<["AIVEN_PG_EU_WEST" := "postgres://eu-west.example/defaultdb"]> ∅)).

Definition live_pools : gmap string Pool :=
  <["us-east" := healthy_pool (12 # 1000)]>
  (<["eu-west" := timed_out_pool]> ∅).

Definition live_env : Env := mkEnv live_environ None live_pools sample_tape.

(** The same deployment with a flag service that switches the first
    region off and leaves every other flag at its default. *)
Definition region_switch : LdClient :=
  mkLdClient (fun flag_key _ dflt =>
    if String.eqb flag_key "region-us-east-enabled" then FBool false
    else dflt).

Definition flagged_env : Env :=
  mkEnv live_environ (Some region_switch) live_pools sample_tape.

(** The store after the operator switched the first region off. *)
Definition us_east_off : gmap string FlagValue :=
  <["region-us-east-enabled" := FBool false]> initial_demo_flags.

Definition us_east_off_world : World := mkWorld us_east_off 0 [].

(** The third region of the registry, which [live_env] leaves without
    a DSN, and what the simulator makes up for it on the sample tape. *)
Definition asia_pacific : RegionConfig :=
  mkRegion "Asia Pacific (Singapore)" "REPLICA" "AIVEN_PG_ASIA_PACIFIC"
           "#f59e0b".

Definition made_up : ConnectionResult :=
  mkConnectionResult true (17411 # 100) "10.51.178.50" 6543 48579
                     "defaultdb" "PostgreSQL 16.2" "".

(** The deployment of [live_env] with the third region configured as
    well, on a database that answers just that after 174.11 ms. *)
Definition answering_pool : Pool :=
  mkPool (fun _ =>
    Ok (mkConnection
          (Ok (Some (mkInfoRow (Some "10.51.178.50") (Some 6543)
                               (Some 48579) (Some "defaultdb")
                               (Some "PostgreSQL 16.2"))))
          (Ok None) (Ok None) (Ok None) (Ok tt) (Ok tt)
          (17411 # 100000))).

Definition configured_env : Env :=
  mkEnv (<["AIVEN_PG_ASIA_PACIFIC"
             := "postgres://asia-pacific.example/defaultdb"]> live_environ)
        None
        (<["asia-pacific" := answering_pool]> live_pools)
        sample_tape.

(** *** More vocabulary *)

(** An entry of the fan-out for a simulated region: a success inside
    the jitter band of the region. *)
Definition in_band (entry : string * ConnectionResult) : Prop :=
  success (snd entry) = true /\
  (inject_Z (base_latency (fst entry) - 10) <= latency_ms (snd entry))%Q /\
  (latency_ms (snd entry) <= inject_Z (base_latency (fst entry) + 20))%Q.

(** An entry of the fan-out as the loop makes it: in the band when the
    region is simulated, the result of the connection tester when it is
    tested. *)
Definition entry_of (env : Env) (entry : string * ConnectionResult)
  : Prop :=
  match callee_of env (fst entry) with
  | SimulateConnection => in_band entry
  | _ => snd entry = test_connection (pools env) (fst entry)
  end.

(** The failed entries of a list of results, in their order. *)
Definition failed_only (rs : list (string * ConnectionResult))
  : list (string * ConnectionResult) :=
  List.filter (fun entry => negb (success (snd entry))) rs.

(** The band of a region lies wholly below the band of another. *)
Definition band_below (a b : string) : Prop :=
  base_latency a + 20 <= base_latency b - 10.

(** A flag service that switches every region off. *)
Definition all_regions_off : LdClient :=
  mkLdClient (fun flag_key _ dflt =>
    if String.prefix "region-" flag_key then FBool false else dflt).

Definition dark_env : Env :=
  mkEnv live_environ (Some all_regions_off) live_pools sample_tape.

(** The flag key of a region, as [is_region_enabled] builds it. *)
Definition region_key (region_id : string) : string :=
  "region-" +:+ region_id +:+ "-enabled".

(** The store after a run of toggles. *)
Definition toggle_all (flags : gmap string FlagValue) (keys : list string)
  : gmap string FlagValue :=
  fold_left (fun store key => snd (toggle_demo_flag store key)) keys flags.

(** How often a key occurs in a run of toggles. *)
Definition occurrences (key : string) (keys : list string) : nat :=
  length (List.filter (String.eqb key) keys).

(** The pool that start-up gets for a region: none without a DSN, with
    an empty DSN, or when [create_pool] raises. *)
Definition pool_of (driver : DatabaseManager.Driver)
    (environ : gmap string string) (region : RegionConfig) : option Pool :=
  match dsn environ region with
  | Some (String c s as d) =>
      match DatabaseManager.create_pool driver d with
      | Ok pool => Some pool
      | Raise _ => None
      end
  | _ => None
  end.

(** A driver whose pool creation works for the first region and is
    refused for every other DSN. *)
Definition refused : Exception :=
  mkException "ConnectionRefusedError" "connection refused".

Definition picky_driver : DatabaseManager.Driver :=
  DatabaseManager.mkDriver
    true
    (fun d =>
       if String.eqb d "postgres://us-east.example/defaultdb"
       then Ok (healthy_pool (12 # 1000))
       else Raise refused)
    (fun region_id =>
       if String.eqb region_id "us-east" then Ok tt else Raise refused).

(** A computation that leaves the flag store as it found it. *)
Definition keeps_flags {A} (m : M A) : Prop :=
  forall w, demo_flags (snd (m w)) = demo_flags w.

(** The keys that a run of requests toggles: those of the arrivals that
    the routes hand to the toggle endpoint. *)
Fixpoint toggled_keys (arrivals : list Main.Arrival) : list string :=
  match arrivals with
  | [] => []
  | a :: rest =>
      match Main.dispatch Main.routes (Main.arrival_method a)
                          (Main.arrival_path a) with
      | Some (Main.ToggleFlag, [flag_key]) => flag_key :: toggled_keys rest
      | _ => toggled_keys rest
      end
  end.

(** The card that the dashboard shows for an item of the registry. *)
Definition card_of (env : Env) (w : World) (request : Request)
    (item : string * RegionConfig) : string * Pages.RegionCard :=
  (fst item,
   Pages.mkRegionCard
     (fst item)
     (Config.name (snd item))
     (Config.role (snd item))
     (Config.color (snd item))
     (is_region_enabled (demo env) (ld_client env) (demo_flags w)
                        (fst item) (user_key_of request))
     (match dsn (environ env) (snd item) with
      | Some _ => true
      | None => false
      end)).

(** A run of requests: two toggles of one region and a toggle of a
    feature, with a test and a page view in between. *)
Definition sample_run : list Main.Arrival :=
  [ Main.mkArrival Main.POST
      ["api"; "flags"; "region-eu-west-enabled"; "toggle"] plain_request;
    Main.mkArrival Main.POST ["api"; "regions"; "eu-west"; "test"]
      plain_request;
    Main.mkArrival Main.GET [] plain_request;
    Main.mkArrival Main.POST
      ["api"; "flags"; "enable-load-testing"; "toggle"] plain_request;
    Main.mkArrival Main.POST
      ["api"; "flags"; "region-eu-west-enabled"; "toggle"] plain_request ].

(* ================================================================== *)
(** ** Facts about the runtime *)
(* ================================================================== *)

(** *** Rounding stays between integer bounds *)

Lemma round_half_even_lower (m : Z) (x : Q) :
  (inject_Z m <= x)%Q -> m <= round_half_even x.
Proof.
  intros Hle. unfold round_half_even. cbv zeta.
  assert (Hf : m <= Qfloor x).
  { rewrite <- (Qfloor_Z m). now apply Qfloor_resp_le. }
  destruct (Qcompare _ _); [destruct (Z.even _) | |]; lia.
Qed.

Lemma round_half_even_upper (m : Z) (x : Q) :
  (x <= inject_Z m)%Q -> round_half_even x <= m.
Proof.
  intros Hle. unfold round_half_even. cbv zeta.
  assert (Hf : Qfloor x <= m).
  { rewrite <- (Qfloor_Z m). now apply Qfloor_resp_le. }
  assert (Hup : (0 < x - inject_Z (Qfloor x))%Q -> Qfloor x + 1 <= m).
  { intros Hpos.
    assert (Hlt : (inject_Z (Qfloor x) < inject_Z m)%Q).
    { apply Qlt_le_trans with x; [| exact Hle].
      apply Qlt_minus_iff. exact Hpos. }
    rewrite <- Zlt_Qlt in Hlt. lia. }
  destruct (Qcompare (x - inject_Z (Qfloor x)) (1 # 2)) eqn:Hc.
  - destruct (Z.even _); [lia |].
    apply Hup. apply Qeq_alt in Hc. rewrite Hc. reflexivity.
  - lia.
  - apply Hup. apply Qgt_alt in Hc.
    apply Qlt_trans with (1 # 2); [reflexivity | exact Hc].
Qed.

Lemma round2_lower (m : Z) (x : Q) :
  (inject_Z m <= x)%Q -> (inject_Z m <= round2 x)%Q.
Proof.
  intros Hle. unfold round2.
  assert (H : m * 100 <= round_half_even (x * 100)).
  { apply round_half_even_lower. rewrite inject_Z_mult.
    apply Qmult_le_compat_r; [exact Hle | discriminate]. }
  unfold Qle, inject_Z; simpl. lia.
Qed.

Lemma round2_upper (m : Z) (x : Q) :
  (x <= inject_Z m)%Q -> (round2 x <= inject_Z m)%Q.
Proof.
  intros Hle. unfold round2.
  assert (H : round_half_even (x * 100) <= m * 100).
  { apply round_half_even_upper. rewrite inject_Z_mult.
    apply Qmult_le_compat_r; [exact Hle | discriminate]. }
  unfold Qle, inject_Z; simpl. lia.
Qed.

(** *** The random module stays in its intervals *)

Lemma random_unit (tape : nat -> Z) (pos : nat) :
  (0 <= random tape pos)%Q /\ (random tape pos < 1)%Q.
Proof.
  pose proof (Z.mod_pos_bound (tape pos) two53 eq_refl) as Hb.
  unfold random, Qle, Qlt; cbn [Qnum Qden inject_Z].
  change (Z.pos (Z.to_pos two53)) with two53.
  generalize dependent (tape pos mod two53). generalize two53. lia.
Qed.

Lemma uniform_between (tape : nat -> Z) (pos : nat) (a b : Q) :
  (a <= b)%Q ->
  (a <= uniform tape pos a b)%Q /\ (uniform tape pos a b <= b)%Q.
Proof.
  intros Hab. unfold uniform.
  destruct (random_unit tape pos) as [H0 H1].
  set (r := random tape pos) in *.
  assert (Hd : (0 <= b - a)%Q) by (apply -> Qle_minus_iff; exact Hab).
  split.
  - rewrite <- (Qplus_0_r a) at 1.
    apply Qplus_le_r. apply Qmult_le_0_compat; assumption.
  - apply Qle_trans with (a + (b - a) * 1)%Q.
    + apply Qplus_le_r.
      rewrite (Qmult_comm (b - a) r), (Qmult_comm (b - a) 1).
      apply Qmult_le_compat_r; [apply Qlt_le_weak; exact H1 | exact Hd].
    + apply Qle_lteq. right. ring.
Qed.

(** *** [sorted] sorts, and loses nothing *)




Section SortedFacts.
Context {A : Type} (key : A -> Key).

Lemma insert_by_Permutation (x : A) (l : list A) :
  Permutation (insert_by key x l) (x :: l).
Proof.
  induction l as [|y l IH]; simpl; [reflexivity |].
  destruct (key_lt (key x) (key y)); [reflexivity |].
  rewrite IH. apply perm_swap.
Qed.



Lemma fold_insert_Permutation (l acc : list A) :
  Permutation (fold_left (fun acc x => insert_by key x acc) l acc)
              (acc ++ l).
Proof.
  revert acc. induction l as [|x l IH]; intros acc; simpl.
  - now rewrite app_nil_r.
  - rewrite IH, insert_by_Permutation. simpl.
    apply Permutation_middle.
Qed.


Lemma sorted_Permutation (l : list A) : Permutation (sorted key l) l.
Proof. apply (fold_insert_Permutation l []). Qed.
End SortedFacts.




(** *** [min] and [max] *)

Lemma min_of_least (x : Q) (l : list Q) : least_of (min_of x l) (x :: l).
Proof.
  unfold least_of, min_of. revert x.
  induction l as [|y l IH]; intros x; simpl.
  - split; [now left |]. constructor; [apply Qle_refl | constructor].
  - destruct (IH (qmin x y)) as [Hin Hall].
    assert (Hx : (qmin x y <= x)%Q /\ (qmin x y <= y)%Q
                 /\ (qmin x y = x \/ qmin x y = y)).
    { unfold qmin. destruct (Qle_bool x y) eqn:Hxy.
      - apply Qle_bool_iff in Hxy. repeat split; auto. apply Qle_refl.
      - repeat split; auto; [| apply Qle_refl].
        apply Qlt_le_weak, Qnot_le_lt. intros Hle.
        apply Qle_bool_iff in Hle. congruence. }
    destruct Hx as (Hmx & Hmy & Hm).
    inversion Hall as [|? ? Hhead Htail]; subst.
    split.
    + destruct Hin as [Hin | Hin]; [| now right; right].
        rewrite <- Hin. destruct Hm as [-> | ->]; [now left | now right; left].
    + repeat constructor; [eapply Qle_trans; eauto .. | exact Htail].
Qed.

Lemma max_of_greatest (x : Q) (l : list Q) :
  greatest_of (max_of x l) (x :: l).
Proof.
  unfold greatest_of, max_of. revert x.
  induction l as [|y l IH]; intros x; simpl.
  - split; [now left |]. constructor; [apply Qle_refl | constructor].
  - destruct (IH (qmax x y)) as [Hin Hall].
    assert (Hx : (x <= qmax x y)%Q /\ (y <= qmax x y)%Q
                 /\ (qmax x y = x \/ qmax x y = y)).
    { unfold qmax. destruct (Qle_bool y x) eqn:Hxy.
      - apply Qle_bool_iff in Hxy. repeat split; auto. apply Qle_refl.
      - repeat split; auto; [| apply Qle_refl].
        apply Qlt_le_weak, Qnot_le_lt. intros Hle.
        apply Qle_bool_iff in Hle. congruence. }
    destruct Hx as (Hmx & Hmy & Hm).
    inversion Hall as [|? ? Hhead Htail]; subst.
    split.
    + destruct Hin as [Hin | Hin]; [| now right; right].
        rewrite <- Hin. destruct Hm as [-> | ->]; [now left | now right; left].
    + repeat constructor; [eapply Qle_trans; eauto .. | exact Htail].
Qed.

(* ================================================================== *)
(** ** The database functions *)
(* ================================================================== *)

Lemma with_conn_Ok {A} (pool : Pool) (n : nat)
    (body : Connection -> Result A) (a : A) :
  with_conn pool n body = Ok a <->
  exists conn, acquire pool n = Ok conn /\ body conn = Ok a
               /\ release conn = Ok tt.
Proof.
  unfold with_conn. split.
  - destruct (acquire pool n) as [conn | e] eqn:Hacq; [| discriminate].
    destruct (body conn) as [a' | e1] eqn:Hbody,
             (release conn) as [[] | e2] eqn:Hrel; try discriminate.
    intros [= ->]. now exists conn.
  - intros (conn & -> & -> & ->). reflexivity.
Qed.

Lemma connection_attempt_success (pool : Pool) (r : ConnectionResult) :
  connection_attempt pool = Ok r -> success r = true /\ error r = "".
Proof.
  unfold connection_attempt. rewrite with_conn_Ok.
  intros (conn & _ & Hbody & _). revert Hbody. unfold rbind, subscript.
  destruct (fetch_info conn) as [[row |] | e]; try discriminate.
  intros [= <-]. split; reflexivity.
Qed.

Lemma valid_only_length (gathered : list (Result Q)) :
  (length (valid_only gathered) <= length gathered)%nat.
Proof.
  induction gathered as [|[r | e] rest IH]; simpl; lia.
Qed.

Lemma valid_only_all_raise {A} (task : A -> Result Q) (calls : list A) :
  (forall n, In n calls -> exists e, task n = Raise e) ->
  valid_only (map task calls) = [].
Proof.
  induction calls as [|n rest IH]; intros Hfail; simpl; [reflexivity |].
  destruct (Hfail n (or_introl eq_refl)) as [e ->].
  apply IH. intros k Hk. apply Hfail. now right.
Qed.

Lemma range_length (n : Z) : length (range n) = Z.to_nat n.
Proof. unfold range. apply length_seq. Qed.

Lemma range_below (n : Z) (i : nat) : In i (range n) -> (i < Z.to_nat n)%nat.
Proof. unfold range. rewrite in_seq. lia. Qed.

Lemma simulate_samples_length (env : Env) (base : Z) (calls : list nat)
    (w : World) :
  length (fst (simulate_samples env base calls w)) = length calls.
Proof.
  revert w. induction calls as [|i rest IH]; intros w; [reflexivity |].
  simpl. unfold bind.
  destruct (random_uniform env _ _ w) as [jitter w1].
  specialize (IH w1).
  destruct (simulate_samples env base rest w1) as [more w2].
  simpl in *. now rewrite IH.
Qed.

(** With no call to simulate, [min()] has nothing to look at and the
    simulated load test raises; the endpoint only ever asks for
    [load_test_concurrent] calls. *)
Lemma simulate_load_test_no_calls
    (env : Env) (region_id : string) (K : Z) (w : World) :
  K <= 0 -> simulate_load_test env region_id K w = (Raise min_empty, w).
Proof.
  intros HK. unfold simulate_load_test, range.
  replace (Z.to_nat K) with 0%nat by lia. reflexivity.
Qed.

Lemma valid_only_survivor {A} (task : A -> Result Q) (calls : list A)
    (n : A) (q : Q) :
  In n calls -> task n = Ok q -> valid_only (map task calls) <> [].
Proof.
  induction calls as [|k rest IH]; simpl; [tauto |].
  intros [-> | Hin] Hq.
  - now rewrite Hq.
  - destruct (task k); [discriminate | now apply IH].
Qed.

Lemma range_above (n : Z) (i : nat) : (i < Z.to_nat n)%nat -> In i (range n).
Proof. unfold range. rewrite in_seq. lia. Qed.

(** ** The properties of the database functions *)

(** C5, as the claim states it, fails when the caught exception has an
    empty message, as the driver's timeout has: the result has
    success=false and the empty string as its error. *)
Lemma test_connection_empty_error_counterexample :
  get_pool (<["eu-west" := timed_out_pool]> ∅) "eu-west"
    = Some timed_out_pool /\
  connection_attempt timed_out_pool = Raise timeout_error /\
  success (test_connection (<["eu-west" := timed_out_pool]> ∅) "eu-west")
    = false /\
  error (test_connection (<["eu-west" := timed_out_pool]> ∅) "eu-west") = "".
Proof. repeat split. Qed.

(** C5, amended. The connection tester always returns a result: with
    no pool for the region it has success=false and the error text
    [No connection pool available]; when acquiring, querying or
    releasing raises an exception it has success=false and the text of
    that exception as its error, which is empty when the exception has
    no message; and it has success=true only when the pool is there and
    the query went through, in which case it is the result built from
    the row. *)
Theorem test_connection_outcomes
    (pools : gmap string Pool) (region_id : string) :
  (get_pool pools region_id = None ->
     success (test_connection pools region_id) = false /\
     error (test_connection pools region_id)
       = "No connection pool available")
  /\ (forall pool e,
        get_pool pools region_id = Some pool ->
        connection_attempt pool = Raise e ->
        success (test_connection pools region_id) = false /\
        error (test_connection pools region_id) = str e)
  /\ (success (test_connection pools region_id) = true <->
      exists pool,
        get_pool pools region_id = Some pool /\
        connection_attempt pool = Ok (test_connection pools region_id)).
Proof.
  unfold test_connection. split; [| split; [| split]].
  - now intros ->.
  - now intros pool e -> ->.
  - destruct (get_pool pools region_id) as [pool |]; [| discriminate].
    destruct (connection_attempt pool) as [r | e] eqn:Hr; [| discriminate].
    intros _. now exists pool.
  - intros (pool & -> & Hr).
    destruct (connection_attempt pool) as [r | e] eqn:Hr'.
    + now apply connection_attempt_success in Hr'.
    + discriminate.
Qed.

Lemma test_connection_outcomes_witness :
  (success (test_connection live_pools "asia-pacific") = false /\
   error (test_connection live_pools "asia-pacific")
     = "No connection pool available")
  /\ (success (test_connection live_pools "eu-west") = false /\
      error (test_connection live_pools "eu-west") = str timeout_error)
  /\ success (test_connection live_pools "us-east") = true.
Proof.
  split; [| split].
  - apply (test_connection_outcomes live_pools "asia-pacific").
    reflexivity.
  - apply (test_connection_outcomes live_pools "eu-west") with timed_out_pool;
      reflexivity.
  - apply (test_connection_outcomes live_pools "us-east").
    exists (healthy_pool (12 # 1000)). split; reflexivity.
Defined.

(** C6. The health metrics fetcher returns a record exactly when the
    pool is there, the connection was acquired and released, and each of
    the three queries returned a row; the record then has all four
    fields, taken from those three rows. In every other case it returns
    nothing: there is no record with some fields only. *)
Theorem health_metrics_complete_or_nothing
    (pools : gmap string Pool) (region_id : string) (m : HealthMetrics) :
  get_health_metrics pools region_id = Some m <->
  exists pool conn c n s,
    get_pool pools region_id = Some pool /\
    acquire pool 0 = Ok conn /\
    fetch_cache conn = Ok (Some c) /\
    fetch_counts conn = Ok (Some n) /\
    fetch_size conn = Ok (Some s) /\
    release conn = Ok tt /\
    m = mkHealthMetrics
          (or_float (row_cache_hit_ratio c) 0)
          (or_int (row_active_connections n) 0)
          (or_int (row_max_connections n) 0)
          (round2 (or_float (row_db_size_mb s) 0)).
Proof.
  unfold get_health_metrics. split.
  - destruct (get_pool pools region_id) as [pool |]; [| discriminate].
    destruct (metrics_attempt pool) as [m' | e] eqn:Hm; [| discriminate].
    intros [= ->]. unfold metrics_attempt in Hm.
    apply with_conn_Ok in Hm. destruct Hm as (conn & Hacq & Hbody & Hrel).
    unfold rbind, subscript in Hbody.
    destruct (fetch_cache conn) as [[c |] | e1] eqn:Hc; try discriminate;
    destruct (fetch_counts conn) as [[n |] | e2] eqn:Hn; try discriminate;
    destruct (fetch_size conn) as [[s |] | e3] eqn:Hs; try discriminate.
    injection Hbody as <-.
    exists pool, conn, c, n, s. repeat split; assumption.
  - intros (pool & conn & c & n & s & -> & Hacq & Hc & Hn & Hs & Hrel & ->).
    assert (Hm : metrics_attempt pool = Ok
              (mkHealthMetrics
                 (or_float (row_cache_hit_ratio c) 0)
                 (or_int (row_active_connections n) 0)
                 (or_int (row_max_connections n) 0)
                 (round2 (or_float (row_db_size_mb s) 0)))).
    { unfold metrics_attempt. apply with_conn_Ok. exists conn.
      rewrite Hc, Hn, Hs. repeat split; assumption. }
    now rewrite Hm.
Qed.

Lemma health_metrics_complete_or_nothing_witness :
  get_health_metrics live_pools "us-east"
    = Some (mkHealthMetrics (9912 # 100) 12 100 (round2 (123456 # 1000)))
  /\ get_health_metrics live_pools "eu-west" = None
  /\ get_health_metrics live_pools "asia-pacific" = None.
Proof.
  split; [| split; reflexivity].
  apply (health_metrics_complete_or_nothing live_pools "us-east").
  exists (healthy_pool (12 # 1000)), (healthy_connection (12 # 1000)),
    (mkCacheRow (Some (9912 # 100))), (mkCountsRow (Some 12) (Some 100)),
    (mkSizeRow (Some (123456 # 1000))).
  repeat split.
Defined.

(** C3. A load test with concurrency K either returns nothing or a
    result for concurrency K with at least one and at most K samples:
    the samples are the rounded latencies of the calls that did not
    raise, and minimum, maximum and average are taken over those calls
    only. It returns a result as soon as the pool is there and one call
    goes through, and nothing when every one of the K calls raises. The
    simulated load test, when it returns a result for K, returns K
    samples, and it does so for every K of at least one. *)
Theorem load_test_sample_bound
    (pools : gmap string Pool) (region_id : string) (K : Z) :
  (forall r,
     run_load_test pools region_id K = Some r ->
     concurrent r = K /\
     0 < Z.of_nat (length (results r)) <= K /\
     exists pool survivors,
       get_pool pools region_id = Some pool /\
       survivors = valid_only (map (single_query pool) (range K)) /\
       results r = map round2 survivors /\
       (exists m, least_of m survivors /\ min_ms r = round2 m) /\
       (exists m, greatest_of m survivors /\ max_ms r = round2 m) /\
       avg_ms r = round2 (Py.sum survivors
                          / inject_Z (Z.of_nat (length survivors))))
  /\ (forall pool n q,
        get_pool pools region_id = Some pool ->
        (n < Z.to_nat K)%nat -> single_query pool n = Ok q ->
        exists r, run_load_test pools region_id K = Some r)
  /\ (forall pool,
        get_pool pools region_id = Some pool ->
        (forall n, (n < Z.to_nat K)%nat ->
                   exists e, single_query pool n = Raise e) ->
        run_load_test pools region_id K = None)
  /\ (forall env w r,
        fst (simulate_load_test env region_id K w) = Ok r ->
        concurrent r = K /\ Z.of_nat (length (results r)) = K)
  /\ (forall env w,
        0 < K -> exists r, fst (simulate_load_test env region_id K w) = Ok r).
Proof.
  split; [| split; [| split; [| split]]].
  - intros r. unfold run_load_test.
    destruct (get_pool pools region_id) as [pool |]; [| discriminate].
    pose proof (valid_only_length (map (single_query pool) (range K)))
      as Hlen.
    rewrite length_map, range_length in Hlen.
    destruct (valid_only (map (single_query pool) (range K)))
      as [|x rest] eqn:Hvalid; [discriminate |].
    intros [= <-]. simpl in *. split; [reflexivity |]. split.
    + rewrite length_map. lia.
    + exists pool, (x :: rest).
      split; [reflexivity |]. split; [now symmetry |].
      split; [reflexivity |]. split; [| split; [| reflexivity]].
      * exists (min_of x rest). split; [apply min_of_least | reflexivity].
      * exists (max_of x rest). split; [apply max_of_greatest | reflexivity].
  - intros pool n q Hpool Hn Hq. unfold run_load_test. rewrite Hpool.
    pose proof (valid_only_survivor (single_query pool) (range K) n q
                  (range_above K n Hn) Hq) as Hsome.
    destruct (valid_only (map (single_query pool) (range K)))
      as [|x rest]; [congruence | eexists; reflexivity].
  - intros pool Hpool Hfail. unfold run_load_test. rewrite Hpool.
    rewrite valid_only_all_raise; [reflexivity |].
    intros n Hn. apply Hfail, range_below, Hn.
  - intros env w r. unfold simulate_load_test, bind.
    pose proof (simulate_samples_length env (base_latency region_id)
                                        (range K) w) as Hlen.
    rewrite range_length in Hlen.
    destruct (simulate_samples env _ _ w) as [[|x rest] w1];
      [discriminate |].
    simpl in *. intros [= <-]. simpl. split; [reflexivity | lia].
  - intros env w HK. unfold simulate_load_test, bind.
    pose proof (simulate_samples_length env (base_latency region_id)
                                        (range K) w) as Hlen.
    rewrite range_length in Hlen.
    destruct (simulate_samples env _ _ w) as [[|x rest] w1].
    + simpl in Hlen. lia.
    + eexists. reflexivity.
Qed.

Lemma load_test_sample_bound_witness :
  (exists r,
     run_load_test (<["us-east" := flaky_pool]> ∅) "us-east" 5 = Some r /\
     results r = [(1100 # 100)%Q; (1200 # 100)%Q; (1300 # 100)%Q;
                  (1400 # 100)%Q] /\
     0 < Z.of_nat (length (results r)) <= 5)
  /\ run_load_test (<["us-east" := timed_out_pool]> ∅) "us-east" 5 = None.
Proof.
  split.
  - eexists. split; [vm_compute; reflexivity |]. split.
    + vm_compute. reflexivity.
    + apply (load_test_sample_bound (<["us-east" := flaky_pool]> ∅)
               "us-east" 5).
      vm_compute. reflexivity.
  - apply (load_test_sample_bound (<["us-east" := timed_out_pool]> ∅)
             "us-east" 5) with timed_out_pool; [reflexivity |].
    intros n _. exists timeout_error. reflexivity.
Defined.

(* ================================================================== *)
(** ** The flag store *)
(* ================================================================== *)

Lemma toggle_boolean (flags : gmap string FlagValue) (key : string)
    (b : bool) :
  flags !! key = Some (FBool b) ->
  toggle_demo_flag flags key = (true, <[key := FBool (negb b)]> flags).
Proof. unfold toggle_demo_flag. now intros ->. Qed.

Lemma toggle_refused (flags : gmap string FlagValue) (key : string) :
  not_toggleable flags key -> toggle_demo_flag flags key = (false, flags).
Proof.
  unfold toggle_demo_flag. now intros [-> | [n ->]].
Qed.

(** C4. Toggling a boolean flag twice gives back the store it started
    from: both toggles report success, the flag has its first value
    again, and no other flag has changed, neither in between nor at the
    end. *)
Theorem toggle_twice_restores
    (flags : gmap string FlagValue) (key : string) (b : bool) :
  flags !! key = Some (FBool b) ->
  let once := toggle_demo_flag flags key in
  let twice := toggle_demo_flag (snd once) key in
  fst once = true /\ fst twice = true /\
  snd once !! key = Some (FBool (negb b)) /\
  (forall other, other <> key -> snd once !! other = flags !! other) /\
  snd twice !! key = Some (FBool b) /\
  (forall other, other <> key -> snd twice !! other = flags !! other) /\
  snd twice = flags.
Proof.
  intros Hkey once twice. subst once twice.
  rewrite (toggle_boolean flags key b Hkey). simpl.
  rewrite (toggle_boolean _ key (negb b)) by apply lookup_insert_eq.
  simpl. rewrite negb_involutive, insert_insert_eq.
  rewrite (insert_id flags key (FBool b) Hkey).
  repeat split; auto.
  - apply lookup_insert_eq.
  - intros other Hother. now apply lookup_insert_ne.
Qed.

Lemma toggle_twice_restores_witness :
  initial_demo_flags !! "enable-load-testing" = Some (FBool true) /\
  snd (toggle_demo_flag
         (snd (toggle_demo_flag initial_demo_flags "enable-load-testing"))
         "enable-load-testing") = initial_demo_flags.
Proof.
  split; [reflexivity |].
  apply (toggle_twice_restores initial_demo_flags "enable-load-testing" true).
  reflexivity.
Defined.

(** C10, as the claim states it, fails outside demo mode: the endpoint
    answers with the error fragment and never reaches the toggle. *)
Lemma toggle_flag_outside_demo_counterexample :
  not_toggleable (demo_flags fresh_world) "no-such-flag" /\
  toggle_flag live_env "no-such-flag" plain_request fresh_world
    = (HTMLResponse not_in_demo_mode, fresh_world).
Proof. split; [left; reflexivity | reflexivity]. Qed.

(** C10, amended. For a key that is absent or holds a non-boolean, the
    toggle reports failure and leaves the store as it was; in demo mode
    the endpoint calls it once and then answers with the flag panel of
    the unchanged store; outside demo mode it answers with its
    not-in-demo-mode fragment without calling the toggle, and the whole
    state is as it was. The store is unchanged either way. *)
Theorem toggle_refused_leaves_store
    (env : Env) (request : Request) (w : World) (key : string) :
  not_toggleable (demo_flags w) key ->
  toggle_demo_flag (demo_flags w) key = (false, demo_flags w) /\
  demo_flags (snd (toggle_flag env key request w)) = demo_flags w /\
  fst (toggle_flag env key request w)
    = (if demo env
       then TemplateResponse "partials/flag_panel.html"
                             (CtxFlags (demo_flags w))
       else HTMLResponse not_in_demo_mode) /\
  (demo env = false -> snd (toggle_flag env key request w) = w) /\
  (demo env = true ->
   trace (snd (toggle_flag env key request w))
     = trace w ++ [Call ToggleDemoFlag key; Return ToggleDemoFlag key]).
Proof.
  intros Hkey. pose proof (toggle_refused _ _ Hkey) as Htoggle.
  split; [exact Htoggle |].
  unfold toggle_flag. destruct (demo env); simpl.
  - unfold logged, bind, log, read_flags, write_flags, flag_panel, ret;
      simpl.
    rewrite Htoggle. simpl.
    split; [reflexivity |]. split; [reflexivity |].
    split; [discriminate |]. intros _. now rewrite <- app_assoc.
  - split; [reflexivity |]. split; [reflexivity |].
    split; [reflexivity | discriminate].
Qed.

Lemma toggle_refused_leaves_store_witness :
  not_toggleable initial_demo_flags "dashboard-refresh-seconds" /\
  toggle_demo_flag initial_demo_flags "dashboard-refresh-seconds"
    = (false, initial_demo_flags) /\
  fst (toggle_flag demo_env "dashboard-refresh-seconds" plain_request
                   fresh_world)
    = TemplateResponse "partials/flag_panel.html"
                       (CtxFlags initial_demo_flags).
Proof.
  assert (Hkey : not_toggleable initial_demo_flags
                                "dashboard-refresh-seconds").
  { right. exists 30. reflexivity. }
  split; [exact Hkey |].
  destruct (toggle_refused_leaves_store
              demo_env plain_request fresh_world
              "dashboard-refresh-seconds" Hkey)
    as (Htoggle & _ & Hpanel & _).
  split; [exact Htoggle | exact Hpanel].
Defined.

(* ================================================================== *)
(** ** The handlers *)
(* ================================================================== *)

(** Running a handler: open the monad until the next call that matters. *)
Ltac run_handler :=
  repeat (progress
            (unfold bind, ret, region_enabled, feature_enabled, read_flags,
               write_flags, sleep, log, draw, random_uniform, logged;
             cbn beta iota zeta delta [fst snd demo_flags rng_pos trace
                                       negb])).

(** The simulator answers with a success inside its jitter band, and
    touches neither the trace nor the flag store. *)
Lemma simulate_connection_band (env : Env) (region_id : string) (w : World) :
  let result := fst (simulate_connection env region_id w) in
  let w' := snd (simulate_connection env region_id w) in
  success result = true /\
  (inject_Z (base_latency region_id - 10) <= latency_ms result)%Q /\
  (latency_ms result <= inject_Z (base_latency region_id + 20))%Q /\
  trace w' = trace w /\ demo_flags w' = demo_flags w.
Proof.
  unfold simulate_connection, bind, random_uniform, random_randint, draw,
    ret; simpl.
  destruct (uniform_between (tape env) (rng_pos w) (-10) 20) as [Hlo Hhi];
    [discriminate |].
  split; [reflexivity |]. split; [| split; [| split; reflexivity]].
  - apply round2_lower.
    replace (base_latency region_id - 10)
      with (base_latency region_id + (-10)) by lia.
    rewrite inject_Z_plus. apply Qplus_le_r. exact Hlo.
  - apply round2_upper.
    rewrite inject_Z_plus. apply Qplus_le_r. exact Hhi.
Qed.

(** *** The per-region test *)

Lemma test_region_unknown
    (env : Env) (region_id : string) (request : Request) (w : World) :
  od_get REGIONS region_id = None ->
  test_region env region_id request w = (HTMLResponse unknown_region, w).
Proof. unfold test_region. now intros ->. Qed.

Lemma test_region_disabled
    (env : Env) (region_id : string) (request : Request) (w : World)
    (region : RegionConfig) :
  od_get REGIONS region_id = Some region ->
  region_flag env w request region_id = false ->
  test_region env region_id request w
    = (TemplateResponse "partials/region_disabled.html" (CtxRegion region),
       w).
Proof.
  intros Hregion Hflag. unfold region_flag in Hflag.
  unfold test_region. rewrite Hregion. run_handler. now rewrite Hflag.
Qed.

Lemma test_region_simulated
    (env : Env) (region_id : string) (request : Request) (w : World)
    (region : RegionConfig) :
  od_get REGIONS region_id = Some region ->
  region_flag env w request region_id = true ->
  dsn (environ env) region = None ->
  let pause := ((3 # 10) + uniform (tape env) (rng_pos w) 0 (4 # 10))%Q in
  let called :=
    mkWorld (demo_flags w) (S (rng_pos w))
            (trace w ++ [Sleep pause; Call SimulateConnection region_id]) in
  let simulated := simulate_connection env region_id called in
  test_region env region_id request w
    = (TemplateResponse "partials/connection_result.html"
                        (CtxConnection region (fst simulated)),
       mkWorld (demo_flags (snd simulated)) (rng_pos (snd simulated))
               (trace (snd simulated)
                  ++ [Return SimulateConnection region_id])).
Proof.
  intros Hregion Hflag Hdsn. unfold region_flag in Hflag.
  unfold test_region. rewrite Hregion. run_handler.
  rewrite Hflag. cbn beta iota delta [negb].
  unfold connection_result. rewrite Hdsn, orb_true_r. run_handler.
  rewrite <- app_assoc. cbn [app].
  now destruct (simulate_connection env region_id _).
Qed.

(** *** The health and the load test endpoints, up to their guards *)

Lemma region_health_unknown
    (env : Env) (region_id : string) (request : Request) (w : World) :
  od_get REGIONS region_id = None ->
  region_health env region_id request w = (HTMLResponse unknown_region, w).
Proof. unfold region_health. now intros ->. Qed.

Lemma region_health_feature_off
    (env : Env) (region_id : string) (request : Request) (w : World)
    (region : RegionConfig) :
  od_get REGIONS region_id = Some region ->
  feature_flag env w request "health-checks" = false ->
  region_health env region_id request w
    = (HTMLResponse health_checks_disabled, w).
Proof.
  intros Hregion Hfeature. unfold feature_flag in Hfeature.
  unfold region_health. rewrite Hregion. run_handler. now rewrite Hfeature.
Qed.

Lemma region_health_region_off
    (env : Env) (region_id : string) (request : Request) (w : World)
    (region : RegionConfig) :
  od_get REGIONS region_id = Some region ->
  feature_flag env w request "health-checks" = true ->
  region_flag env w request region_id = false ->
  region_health env region_id request w = (HTMLResponse region_disabled, w).
Proof.
  intros Hregion Hfeature Hflag. unfold feature_flag in Hfeature.
  unfold region_flag in Hflag.
  unfold region_health. rewrite Hregion. run_handler.
  rewrite Hfeature. run_handler. now rewrite Hflag.
Qed.

Lemma region_health_simulated
    (env : Env) (region_id : string) (request : Request) (w : World)
    (region : RegionConfig) :
  od_get REGIONS region_id = Some region ->
  feature_flag env w request "health-checks" = true ->
  region_flag env w request region_id = true ->
  dsn (environ env) region = None ->
  exists metrics,
    fst (region_health env region_id request w)
      = TemplateResponse "partials/health_metrics.html" (CtxMetrics metrics).
Proof.
  intros Hregion Hfeature Hflag Hdsn. unfold feature_flag in Hfeature.
  unfold region_flag in Hflag.
  unfold region_health. rewrite Hregion. run_handler.
  rewrite Hfeature. run_handler. rewrite Hflag. run_handler.
  rewrite Hdsn, orb_true_r. run_handler.
  destruct (simulate_health env _) as [metrics w1].
  now exists metrics.
Qed.

Lemma load_test_unknown
    (env : Env) (region_id : string) (request : Request) (w : World) :
  od_get REGIONS region_id = None ->
  load_test env region_id request w = (HTMLResponse unknown_region, w).
Proof. unfold load_test. now intros ->. Qed.

Lemma load_test_feature_off
    (env : Env) (region_id : string) (request : Request) (w : World)
    (region : RegionConfig) :
  od_get REGIONS region_id = Some region ->
  feature_flag env w request "load-testing" = false ->
  load_test env region_id request w
    = (HTMLResponse load_testing_disabled, w).
Proof.
  intros Hregion Hfeature. unfold feature_flag in Hfeature.
  unfold load_test. rewrite Hregion. run_handler. now rewrite Hfeature.
Qed.

Lemma load_test_region_off
    (env : Env) (region_id : string) (request : Request) (w : World)
    (region : RegionConfig) :
  od_get REGIONS region_id = Some region ->
  feature_flag env w request "load-testing" = true ->
  region_flag env w request region_id = false ->
  load_test env region_id request w = (HTMLResponse region_disabled, w).
Proof.
  intros Hregion Hfeature Hflag. unfold feature_flag in Hfeature.
  unfold region_flag in Hflag.
  unfold load_test. rewrite Hregion. run_handler.
  rewrite Hfeature. run_handler. now rewrite Hflag.
Qed.

(** *** The fan-out *)

Lemma od_get_known {V} (d : list (string * V)) (k : string) :
  In k (od_keys d) -> exists v, od_get d k = Some v.
Proof.
  induction d as [|[k' v'] d IH]; simpl; [tauto |].
  intros [-> | Hin].
  - rewrite String.eqb_refl. now exists v'.
  - destruct (String.eqb k' k); [now exists v' | now apply IH].
Qed.

Lemma od_keys_od_set_fresh {V} (d : list (string * V)) (k : string) (v : V) :
  ~ In k (od_keys d) -> od_keys (od_set d k v) = od_keys d ++ [k].
Proof.
  induction d as [|[k' v'] d IH]; simpl; [reflexivity |].
  intros Hfresh. destruct (String.eqb k' k) eqn:Hk.
  - apply String.eqb_eq in Hk. tauto.
  - simpl. f_equal. apply IH. tauto.
Qed.

Lemma enabled_regions_filter
    (env : Env) (request : Request) (rids : list string) (w : World) :
  enabled_regions env (user_key_of request) rids w
    = (List.filter (region_flag env w request) rids, w).
Proof.
  induction rids as [|rid rest IH]; [reflexivity |].
  simpl. run_handler. rewrite IH. unfold region_flag.
  now destruct (truthy _).
Qed.

Lemma connection_result_calls
    (env : Env) (region_id : string) (region : RegionConfig) (w : World) :
  od_get REGIONS region_id = Some region ->
  exists result w',
    connection_result env region_id region w = (result, w') /\
    trace w' = trace w ++ calls_of env region_id /\
    demo_flags w' = demo_flags w.
Proof.
  intros Hregion. unfold connection_result, calls_of, callee_of.
  rewrite Hregion.
  destruct (demo env || negb (dsn_truthy (dsn (environ env) region)));
    run_handler.
  - match goal with
    | |- context [simulate_connection env region_id ?w0] =>
        pose proof (simulate_connection_band env region_id w0) as Hsim;
        destruct (simulate_connection env region_id w0) as [result w1]
    end.
    cbn beta iota zeta delta [fst snd demo_flags rng_pos trace] in Hsim.
    destruct Hsim as (_ & _ & _ & Htrace & Hflags).
    eexists _, _. split; [reflexivity |].
    cbn beta iota delta [fst snd demo_flags rng_pos trace].
    rewrite Htrace, <- app_assoc. now split.
  - eexists _, _. split; [reflexivity |].
    cbn beta iota delta [fst snd demo_flags rng_pos trace].
    rewrite <- app_assoc. now split.
Qed.

Lemma test_each_runs_in_turn (env : Env) (enabled : list string) :
  forall (results : list (string * ConnectionResult)) (w : World),
    (forall rid, In rid enabled -> In rid (od_keys REGIONS)) ->
    List.NoDup (od_keys results ++ enabled) ->
    exists results' w',
      test_each env enabled results w = (Ok results', w') /\
      od_keys results' = od_keys results ++ enabled /\
      trace w' = trace w ++ flat_map (calls_of env) enabled /\
      demo_flags w' = demo_flags w.
Proof.
  induction enabled as [|rid rest IH]; intros results w Hknown Hnodup.
  - exists results, w. simpl. now rewrite !app_nil_r.
  - destruct (od_get_known REGIONS rid (Hknown rid (or_introl eq_refl)))
      as [region Hregion].
    cbn [test_each]. rewrite Hregion. unfold bind.
    destruct (connection_result_calls env rid region w Hregion)
      as (result & w1 & -> & Htrace1 & Hflags1).
    assert (Hkeys : od_keys (od_set results rid result)
                    = od_keys results ++ [rid]).
    { apply od_keys_od_set_fresh. intros Hin.
      apply List.NoDup_remove_2 in Hnodup. apply Hnodup.
      apply in_or_app. now left. }
    destruct (IH (od_set results rid result) w1) as
      (results' & w' & -> & Hkeys' & Htrace' & Hflags').
    + intros k Hk. apply Hknown. now right.
    + rewrite Hkeys, <- app_assoc. exact Hnodup.
    + exists results', w'. split; [reflexivity |].
      rewrite Hkeys', Hkeys, Htrace', Htrace1, Hflags', Hflags1.
      cbn [flat_map]. rewrite <- !app_assoc. now repeat split.
Qed.

Lemma region_ids_distinct : List.NoDup (od_keys REGIONS).
Proof.
  apply NoDup_ListNoDup, (bool_decide_unpack _). vm_compute. reflexivity.
Qed.

Lemma fan_out_none (env : Env) (request : Request) (w : World) :
  List.filter (region_flag env w request) (od_keys REGIONS) = [] ->
  test_all_regions env request w = (HTMLResponse no_regions_enabled, w).
Proof.
  intros Hnone. unfold test_all_regions. unfold bind at 1.
  now rewrite enabled_regions_filter, Hnone.
Qed.

Lemma fan_out_some (env : Env) (request : Request) (w : World) :
  List.filter (region_flag env w request) (od_keys REGIONS) <> [] ->
  exists results pause w',
    test_all_regions env request w
      = (TemplateResponse "partials/all_results.html"
           (CtxAllResults (sorted latency_key results) REGIONS), w') /\
    od_keys results
      = List.filter (region_flag env w request) (od_keys REGIONS) /\
    trace w' = trace w ++ Sleep pause ::
                 flat_map (calls_of env)
                   (List.filter (region_flag env w request)
                                (od_keys REGIONS)).
Proof.
  intros Hsome. unfold test_all_regions. unfold bind at 1.
  rewrite enabled_regions_filter.
  pose proof (List.NoDup_filter (region_flag env w request)
                region_ids_distinct) as Hnodup.
  assert (Hknown : forall rid,
             In rid (List.filter (region_flag env w request)
                                 (od_keys REGIONS)) ->
             In rid (od_keys REGIONS)).
  { intros rid Hin. now apply filter_In in Hin. }
  destruct (List.filter (region_flag env w request) (od_keys REGIONS))
    as [|rid rest]; [congruence |].
  run_handler.
  match goal with
  | |- context [test_each env (rid :: rest) [] ?w0] =>
      destruct (test_each_runs_in_turn env (rid :: rest) [] w0 Hknown Hnodup)
        as (results & w' & -> & Hkeys & Htrace & _)
  end.
  eexists results, _, w'. split; [reflexivity |]. split; [exact Hkeys |].
  rewrite Htrace. cbn beta iota delta [fst snd demo_flags rng_pos trace].
  now rewrite <- app_assoc.
Qed.

Lemma load_test_simulated
    (env : Env) (region_id : string) (request : Request) (w : World)
    (region : RegionConfig) :
  od_get REGIONS region_id = Some region ->
  feature_flag env w request "load-testing" = true ->
  region_flag env w request region_id = true ->
  dsn (environ env) region = None ->
  exists result,
    fst (load_test env region_id request w)
      = TemplateResponse "partials/load_test_result.html"
                         (CtxLoadTest region result).
Proof.
  intros Hregion Hfeature Hflag Hdsn. unfold feature_flag in Hfeature.
  unfold region_flag in Hflag.
  unfold load_test. rewrite Hregion. run_handler.
  rewrite Hfeature. run_handler. rewrite Hflag. run_handler.
  rewrite Hdsn, orb_true_r. run_handler.
  unfold simulate_load_test. run_handler.
  match goal with
  | |- context [simulate_samples env ?b ?c ?w0] =>
      pose proof (simulate_samples_length env b c w0) as Hlen;
      destruct (simulate_samples env b c w0) as [[|x rest] w1]
  end.
  - discriminate Hlen.
  - eexists. reflexivity.
Qed.

(* ================================================================== *)
(** ** The properties of the handlers *)
(* ================================================================== *)



(** C2, as the claim states it, fails for a region that is switched
    off: with no DSN configured the handler still answers with the
    region-disabled partial, and nothing is simulated. *)
Lemma unconfigured_disabled_region_counterexample :
  od_get REGIONS "us-east"
    = Some (mkRegion "US East (Virginia)" "PRIMARY" "AIVEN_PG_US_EAST"
                     "#10b981") /\
  dsn (environ demo_env)
      (mkRegion "US East (Virginia)" "PRIMARY" "AIVEN_PG_US_EAST"
                "#10b981") = None /\
  test_region demo_env "us-east" plain_request us_east_off_world
    = (TemplateResponse "partials/region_disabled.html"
         (CtxRegion (mkRegion "US East (Virginia)" "PRIMARY"
                              "AIVEN_PG_US_EAST" "#10b981")),
       us_east_off_world).
Proof. repeat split. Qed.

(** C2, amended. For a known region whose flag evaluates to true and
    whose DSN variable is unset, the per-region test takes the simulator
    path (the trace shows the delay and the one call of the simulator,
    and no connection test) and answers with a result that has
    success=true and a latency between the region's baseline - 10 and
    its baseline + 20 milliseconds. *)
Theorem unconfigured_region_is_simulated
    (env : Env) (region_id : string) (request : Request) (w : World)
    (region : RegionConfig) :
  od_get REGIONS region_id = Some region ->
  region_flag env w request region_id = true ->
  dsn (environ env) region = None ->
  exists result pause w',
    test_region env region_id request w
      = (TemplateResponse "partials/connection_result.html"
                          (CtxConnection region result), w') /\
    trace w' = trace w ++ [Sleep pause;
                           Call SimulateConnection region_id;
                           Return SimulateConnection region_id] /\
    success result = true /\
    (inject_Z (base_latency region_id - 10) <= latency_ms result)%Q /\
    (latency_ms result <= inject_Z (base_latency region_id + 20))%Q.
Proof.
  intros Hregion Hflag Hdsn.
  rewrite (test_region_simulated env region_id request w region
             Hregion Hflag Hdsn).
  match goal with
  | |- context [simulate_connection env region_id ?called] =>
      destruct (simulate_connection_band env region_id called)
        as (Hok & Hlo & Hhi & Htrace & _)
  end.
  eexists _, _, _. split; [reflexivity |].
  cbn [trace]. rewrite Htrace. cbn [trace]. rewrite <- app_assoc.
  repeat split; assumption.
Qed.

Lemma unconfigured_region_is_simulated_witness :
  region_flag live_env fresh_world plain_request "asia-pacific" = true /\
  exists result pause w',
    test_region live_env "asia-pacific" plain_request fresh_world
      = (TemplateResponse "partials/connection_result.html"
           (CtxConnection
              (mkRegion "Asia Pacific (Singapore)" "REPLICA"
                        "AIVEN_PG_ASIA_PACIFIC" "#f59e0b") result), w') /\
    trace w' = trace fresh_world
                 ++ [Sleep pause;
                     Call SimulateConnection "asia-pacific";
                     Return SimulateConnection "asia-pacific"] /\
    success result = true /\
    (inject_Z (180 - 10) <= latency_ms result)%Q /\
    (latency_ms result <= inject_Z (180 + 20))%Q.
Proof.
  split; [reflexivity |].
  exact (unconfigured_region_is_simulated
           live_env "asia-pacific" plain_request fresh_world
           (mkRegion "Asia Pacific (Singapore)" "REPLICA"
                     "AIVEN_PG_ASIA_PACIFIC" "#f59e0b")
           eq_refl eq_refl eq_refl).
Defined.

(** C7. A known region whose flag evaluates to false gets the
    region-disabled partial, and the handler leaves its state as it
    found it: nothing is added to the trace, so neither the simulator
    nor the connection test was called, no delay was slept and no random
    number was drawn. *)
Theorem disabled_region_reports_disabled
    (env : Env) (region_id : string) (request : Request) (w : World)
    (region : RegionConfig) :
  od_get REGIONS region_id = Some region ->
  region_flag env w request region_id = false ->
  test_region env region_id request w
    = (TemplateResponse "partials/region_disabled.html" (CtxRegion region),
       w)
  /\ trace (snd (test_region env region_id request w)) = trace w.
Proof.
  intros Hregion Hflag.
  now rewrite (test_region_disabled env region_id request w region).
Qed.

Lemma disabled_region_reports_disabled_witness :
  region_flag flagged_env fresh_world plain_request "us-east" = false /\
  callee_of flagged_env "us-east" = TestConnection /\
  fst (test_region flagged_env "us-east" plain_request fresh_world)
    = TemplateResponse "partials/region_disabled.html"
        (CtxRegion (mkRegion "US East (Virginia)" "PRIMARY"
                             "AIVEN_PG_US_EAST" "#10b981")) /\
  trace (snd (test_region flagged_env "us-east" plain_request fresh_world))
    = [].
Proof.
  split; [reflexivity |]. split; [reflexivity |].
  destruct (disabled_region_reports_disabled
              flagged_env "us-east" plain_request fresh_world
              (mkRegion "US East (Virginia)" "PRIMARY"
                        "AIVEN_PG_US_EAST" "#10b981")
              eq_refl eq_refl) as [Hresponse Htrace].
  split; [now rewrite Hresponse | exact Htrace].
Defined.

(** C9. What the fan-out does: every enabled region contributes
    exactly one result, whatever the results of the other regions, but
    the regions are tested one after the other in the order of the
    registry, each call returning before the next one is made, where
    the docstring of the handler announces [asyncio.gather()]. *)
Theorem fan_out_tests_regions_in_turn
    (env : Env) (request : Request) (w : World) :
  List.filter (region_flag env w request) (od_keys REGIONS) <> [] ->
  exists rs pause w',
    test_all_regions env request w
      = (TemplateResponse "partials/all_results.html"
                          (CtxAllResults rs REGIONS), w') /\
    Permutation (od_keys rs)
                (List.filter (region_flag env w request) (od_keys REGIONS)) /\
    trace w' = trace w ++ Sleep pause ::
                 flat_map (calls_of env)
                   (List.filter (region_flag env w request)
                                (od_keys REGIONS)).
Proof.
  intros Hsome.
  destruct (fan_out_some env request w Hsome)
    as (results & pause & w' & Hrun & Hkeys & Htrace).
  exists (sorted latency_key results), pause, w'.
  split; [exact Hrun |]. split; [| exact Htrace].
  rewrite <- Hkeys. unfold od_keys.
  apply Permutation_map, sorted_Permutation.
Qed.

Lemma fan_out_tests_regions_in_turn_witness :
  List.filter (region_flag live_env fresh_world plain_request)
              (od_keys REGIONS)
    = ["us-east"; "eu-west"; "asia-pacific"] /\
  exists rs pause w',
    test_all_regions live_env plain_request fresh_world
      = (TemplateResponse "partials/all_results.html"
                          (CtxAllResults rs REGIONS), w') /\
    Permutation (od_keys rs) ["us-east"; "eu-west"; "asia-pacific"] /\
    trace w' = Sleep pause ::
                 [Call TestConnection "us-east";
                  Return TestConnection "us-east";
                  Call TestConnection "eu-west";
                  Return TestConnection "eu-west";
                  Call SimulateConnection "asia-pacific";
                  Return SimulateConnection "asia-pacific"].
Proof.
  split; [reflexivity |].
  apply (fan_out_tests_regions_in_turn live_env plain_request fresh_world).
  discriminate.
Defined.

(* ================================================================== *)
(** ** More about the runtime *)
(* ================================================================== *)

(** *** Rounding: monotone, accurate, and exact on hundredths *)

Lemma round_half_even_floor (x : Q) :
  Qfloor x <= round_half_even x <= Qfloor x + 1.
Proof.
  unfold round_half_even. cbv zeta.
  destruct (Qcompare _ _); [destruct (Z.even _) | |]; lia.
Qed.

Lemma round_half_even_mono (x y : Q) :
  (x <= y)%Q -> round_half_even x <= round_half_even y.
Proof.
  intros Hxy.
  pose proof (Qfloor_resp_le x y Hxy) as Hfloor.
  pose proof (round_half_even_floor x) as Hx.
  pose proof (round_half_even_floor y) as Hy.
  destruct (Z.eq_dec (Qfloor x) (Qfloor y)) as [Heq | Hne]; [| lia].
  clear Hx Hy Hfloor. unfold round_half_even. cbv zeta. rewrite <- Heq.
  destruct (Qcompare (x - inject_Z (Qfloor x)) (1 # 2)) eqn:Hcx;
    destruct (Qcompare (y - inject_Z (Qfloor x)) (1 # 2)) eqn:Hcy;
    try (destruct (Z.even (Qfloor x)); lia); try lia; exfalso.
  - apply Qeq_alt in Hcx. apply Qlt_alt in Hcy. lra.
  - apply Qgt_alt in Hcx. apply Qeq_alt in Hcy. lra.
  - apply Qgt_alt in Hcx. apply Qlt_alt in Hcy. lra.
Qed.

Lemma round2_mono (x y : Q) : (x <= y)%Q -> (round2 x <= round2 y)%Q.
Proof.
  intros Hxy. unfold round2.
  assert (H : round_half_even (x * 100) <= round_half_even (y * 100)).
  { apply round_half_even_mono. lra. }
  unfold Qle; simpl. lia.
Qed.

Lemma round2_lower_centi (m : Z) (x : Q) :
  (Qmake m 100 <= x)%Q -> (Qmake m 100 <= round2 x)%Q.
Proof.
  intros Hle. unfold round2.
  assert (H : m <= round_half_even (x * 100)).
  { apply round_half_even_lower.
    assert (E : (Qmake m 100 * 100 == inject_Z m)%Q)
      by (unfold Qeq; simpl; lia).
    rewrite <- E. apply Qmult_le_compat_r; [exact Hle | discriminate]. }
  unfold Qle; simpl. lia.
Qed.

Lemma round2_upper_centi (m : Z) (x : Q) :
  (x <= Qmake m 100)%Q -> (round2 x <= Qmake m 100)%Q.
Proof.
  intros Hle. unfold round2.
  assert (H : round_half_even (x * 100) <= m).
  { apply round_half_even_upper.
    assert (E : (Qmake m 100 * 100 == inject_Z m)%Q)
      by (unfold Qeq; simpl; lia).
    rewrite <- E. apply Qmult_le_compat_r; [exact Hle | discriminate]. }
  unfold Qle; simpl. lia.
Qed.

(** *** [random.randint] stays in its interval *)

Lemma randint_between (tape : nat -> Z) (pos : nat) (a b : Z) :
  a <= b -> a <= randint tape pos a b <= b.
Proof.
  intros Hab. unfold randint.
  pose proof (Z.mod_pos_bound (tape pos) (b - a + 1)). lia.
Qed.

(** *** Sums lie between the bounds of their terms *)

Lemma fold_sum_lower (m : Q) (l : list Q) (acc : Q) :
  Forall (fun x => (m <= x)%Q) l ->
  (acc + m * inject_Z (Z.of_nat (length l)) <= fold_left Qplus l acc)%Q.
Proof.
  revert acc. induction l as [|x l IH]; intros acc Hall.
  - cbn [length fold_left]. change (inject_Z (Z.of_nat 0)) with 0%Q. lra.
  - apply Forall_cons in Hall. destruct Hall as [Hx Hall].
    specialize (IH (acc + x)%Q Hall). cbn [fold_left].
    rewrite length_cons, Nat2Z.inj_succ, <- Z.add_1_r, inject_Z_plus.
    change (inject_Z 1) with 1%Q. lra.
Qed.

Lemma fold_sum_upper (m : Q) (l : list Q) (acc : Q) :
  Forall (fun x => (x <= m)%Q) l ->
  (fold_left Qplus l acc <= acc + m * inject_Z (Z.of_nat (length l)))%Q.
Proof.
  revert acc. induction l as [|x l IH]; intros acc Hall.
  - cbn [length fold_left]. change (inject_Z (Z.of_nat 0)) with 0%Q. lra.
  - apply Forall_cons in Hall. destruct Hall as [Hx Hall].
    specialize (IH (acc + x)%Q Hall). cbn [fold_left].
    rewrite length_cons, Nat2Z.inj_succ, <- Z.add_1_r, inject_Z_plus.
    change (inject_Z 1) with 1%Q. lra.
Qed.

Lemma mean_between (lo hi : Q) (l : list Q) :
  l <> [] ->
  Forall (fun x => (lo <= x)%Q) l -> Forall (fun x => (x <= hi)%Q) l ->
  (lo <= Py.sum l / inject_Z (Z.of_nat (length l)))%Q /\
  (Py.sum l / inject_Z (Z.of_nat (length l)) <= hi)%Q.
Proof.
  intros Hne Hlo Hhi.
  assert (Hlen : (0 < inject_Z (Z.of_nat (length l)))%Q).
  { destruct l; [congruence |]. rewrite <- (Zlt_Qlt 0). simpl. lia. }
  pose proof (fold_sum_lower lo l 0 Hlo) as Hl.
  pose proof (fold_sum_upper hi l 0 Hhi) as Hu.
  unfold Py.sum. split.
  - apply Qle_shift_div_l; [exact Hlen | lra].
  - apply Qle_shift_div_r; [exact Hlen | lra].
Qed.

(* ================================================================== *)
(** ** More about the simulators and the database functions *)
(* ================================================================== *)

(** X1. The simulated connection result is a success with a latency
    in the jitter band, between ten below and twenty above the baseline
    of the region, an address 10.a.b.c whose three octets are between 1
    and 255, port 6543, a backend pid between 10000 and 50000, the
    fixed database name and version, and no error text; it takes five
    draws from the random module and leaves trace and flags alone. *)
Theorem simulate_connection_fields
    (env : Env) (region_id : string) (w : World) :
  success (fst (simulate_connection env region_id w)) = true /\
  (inject_Z (base_latency region_id - 10)
     <= latency_ms (fst (simulate_connection env region_id w)))%Q /\
  (latency_ms (fst (simulate_connection env region_id w))
     <= inject_Z (base_latency region_id + 20))%Q /\
  exists a b c,
    1 <= a <= 255 /\ 1 <= b <= 255 /\ 1 <= c <= 255 /\
    server_ip (fst (simulate_connection env region_id w))
      = "10." +:+ pretty a +:+ "." +:+ pretty b +:+ "." +:+ pretty c /\
    server_port (fst (simulate_connection env region_id w)) = 6543 /\
    10000 <= backend_pid (fst (simulate_connection env region_id w))
          <= 50000 /\
    database (fst (simulate_connection env region_id w)) = "defaultdb" /\
    pg_version (fst (simulate_connection env region_id w))
      = "PostgreSQL 16.2" /\
    error (fst (simulate_connection env region_id w)) = "" /\
    snd (simulate_connection env region_id w)
      = mkWorld (demo_flags w) (5 + rng_pos w) (trace w).
Proof.
  destruct (simulate_connection_band env region_id w)
    as (Hsuccess & Hlo & Hhi & _).
  split; [exact Hsuccess |]. split; [exact Hlo |]. split; [exact Hhi |].
  clear Hsuccess Hlo Hhi.
  unfold simulate_connection, bind, random_uniform, random_randint, draw,
    ret; simpl.
  eexists _, _, _.
  split; [apply randint_between; lia |].
  split; [apply randint_between; lia |].
  split; [apply randint_between; lia |].
  split; [reflexivity |]. split; [reflexivity |].
  split; [apply randint_between; lia |].
  repeat split.
Qed.

(** The ranges of the simulated health metrics. *)
Lemma simulate_health_ranges (env : Env) (w : World) :
  (95 <= cache_hit_ratio (fst (simulate_health env w)))%Q /\
  (cache_hit_ratio (fst (simulate_health env w)) <= 9950 # 100)%Q /\
  5 <= active_connections (fst (simulate_health env w)) <= 25 /\
  max_connections (fst (simulate_health env w)) = 100 /\
  (100 <= db_size_mb (fst (simulate_health env w)))%Q /\
  (db_size_mb (fst (simulate_health env w)) <= 500)%Q.
Proof.
  unfold simulate_health, bind, random_uniform, random_randint, draw, ret;
    simpl.
  destruct (uniform_between (tape env) (rng_pos w) 0 (45 # 10))
    as [Hr0 Hr1]; [discriminate |].
  destruct (uniform_between (tape env) (S (S (rng_pos w))) 100 500)
    as [Hs0 Hs1]; [discriminate |].
  pose proof (randint_between (tape env) (S (rng_pos w)) 5 25) as Ha.
  split; [apply (round2_lower 95); change (inject_Z 95) with 95%Q; lra |].
  split; [apply round2_upper_centi; lra |].
  split; [lia |]. split; [reflexivity |].
  split.
  - apply (round2_lower 100). exact Hs0.
  - apply (round2_upper 500). exact Hs1.
Qed.

(** X2. The simulated health metrics are always plausible: a cache
    hit ratio between 95 and 99.5 percent, between 5 and 25 active
    connections out of a maximum of exactly 100, so never more active
    connections than the maximum, and a database size between 100 and
    500 MB; they take three draws from the random module and leave
    trace and flags alone. *)
Theorem simulate_health_bounds (env : Env) (w : World) :
  let m := fst (simulate_health env w) in
  (95 <= cache_hit_ratio m)%Q /\ (cache_hit_ratio m <= 9950 # 100)%Q /\
  5 <= active_connections m <= 25 /\
  max_connections m = 100 /\
  active_connections m <= max_connections m /\
  (100 <= db_size_mb m)%Q /\ (db_size_mb m <= 500)%Q /\
  snd (simulate_health env w)
    = mkWorld (demo_flags w) (3 + rng_pos w) (trace w).
Proof.
  cbv zeta.
  destruct (simulate_health_ranges env w)
    as (Hc0 & Hc1 & Ha & Hmax & Hs0 & Hs1).
  split; [exact Hc0 |]. split; [exact Hc1 |]. split; [exact Ha |].
  split; [exact Hmax |]. split; [rewrite Hmax; lia |].
  split; [exact Hs0 |]. split; [exact Hs1 |]. reflexivity.
Qed.

(** The samples of the simulated load test, call by call: each is a
    hundredth, and lies in the band of its call. *)
Lemma simulate_samples_bands
    (env : Env) (base : Z) (calls : list nat) (w : World) :
  Forall2
    (fun i x =>
       (exists z, x = Qmake z 100) /\
       (inject_Z base - 5 + inject_Z (Z.of_nat i) * (15 # 10) <= x)%Q /\
       (x <= inject_Z base + 30 + inject_Z (Z.of_nat i) * (15 # 10))%Q)
    calls (fst (simulate_samples env base calls w)).
Proof.
  revert w. induction calls as [|i rest IH]; intros w; [constructor |].
  cbn [simulate_samples]. run_handler.
  match goal with
  | |- context [simulate_samples env base rest ?w0] =>
      specialize (IH w0);
      destruct (simulate_samples env base rest w0) as [more w1]
  end.
  cbn [fst] in *. constructor; [| exact IH].
  destruct (uniform_between (tape env) (rng_pos w) (-5) 30) as [Hlo Hhi];
    [discriminate |].
  set (jitter := uniform (tape env) (rng_pos w) (-5) 30) in *.
  split; [eexists; reflexivity |].
  assert (Elo : (inject_Z base - 5 + inject_Z (Z.of_nat i) * (15 # 10)
                 == Qmake (100 * base - 500 + 150 * Z.of_nat i) 100)%Q)
    by (unfold Qeq; simpl; lia).
  assert (Ehi : (inject_Z base + 30 + inject_Z (Z.of_nat i) * (15 # 10)
                 == Qmake (100 * base + 3000 + 150 * Z.of_nat i) 100)%Q)
    by (unfold Qeq; simpl; lia).
  split.
  - rewrite Elo. apply round2_lower_centi. rewrite <- Elo. lra.
  - rewrite Ehi. apply round2_upper_centi. rewrite <- Ehi. lra.
Qed.

Lemma Forall2_right {A B} (P : A -> B -> Prop) (l : list A) (k : list B) :
  Forall2 P l k -> Forall (fun y => exists x, P x y) k.
Proof. induction 1; constructor; eauto. Qed.

(** X3. When the simulated load test returns a result, its i-th
    sample lies between baseline - 5 + 1.5 i and baseline + 30 + 1.5 i
    milliseconds; the reported minimum and maximum are samples and
    bound every sample, and the reported average lies between them. *)
Theorem simulate_load_test_bands
    (env : Env) (region_id : string) (K : Z) (w : World)
    (r : LoadTestResult) :
  fst (simulate_load_test env region_id K w) = Ok r ->
  (forall (i : nat) x,
     results r !! i = Some x ->
     (inject_Z (base_latency region_id) - 5
        + inject_Z (Z.of_nat i) * (15 # 10) <= x)%Q /\
     (x <= inject_Z (base_latency region_id) + 30
           + inject_Z (Z.of_nat i) * (15 # 10))%Q) /\
  In (min_ms r) (results r) /\ In (max_ms r) (results r) /\
  Forall (fun x => (min_ms r <= x)%Q) (results r) /\
  Forall (fun x => (x <= max_ms r)%Q) (results r) /\
  (min_ms r <= avg_ms r)%Q /\ (avg_ms r <= max_ms r)%Q.
Proof.
  unfold simulate_load_test, bind.
  pose proof (simulate_samples_bands env (base_latency region_id)
                                     (range K) w) as Hbands.
  destruct (simulate_samples env _ _ w) as [[|x rest] w1];
    [discriminate |].
  cbn [fst] in *. intros [= <-]. cbn [results min_ms max_ms avg_ms].
  destruct (min_of_least x rest) as [Hmin_in Hmin].
  destruct (max_of_greatest x rest) as [Hmax_in Hmax].
  pose proof (Forall2_right _ _ _ Hbands) as Hcenti.
  rewrite List.Forall_forall in Hcenti.
  destruct (Hcenti _ Hmin_in) as (_ & [zmin Ezmin] & _).
  destruct (Hcenti _ Hmax_in) as (_ & [zmax Ezmax] & _).
  destruct (mean_between (min_of x rest) (max_of x rest) (x :: rest))
    as [Hmean_lo Hmean_hi]; [discriminate | exact Hmin | exact Hmax |].
  split; [| repeat split; try assumption].
  - intros i y Hy.
    destruct (Forall2_lookup_r _ _ _ _ _ Hbands Hy) as (j & Hj & _ & Hband).
    unfold range in Hj. apply lookup_seq in Hj. destruct Hj as [-> _].
    exact Hband.
  - rewrite Ezmin in *. now apply round2_lower_centi.
  - rewrite Ezmax in *. now apply round2_upper_centi.
Qed.

Lemma simulate_load_test_bands_witness :
  exists r,
    fst (simulate_load_test demo_env "eu-west" 3 fresh_world) = Ok r /\
    length (results r) = 3%nat /\
    (min_ms r <= avg_ms r)%Q /\ (avg_ms r <= max_ms r)%Q.
Proof.
  eexists. split; [vm_compute; reflexivity |]. split; [reflexivity |].
  apply (simulate_load_test_bands demo_env "eu-west" 3 fresh_world).
  vm_compute. reflexivity.
Defined.

(** X4. The extremes of a real load test are consistent with its
    samples. The minimum and the maximum are rounded from the times as
    measured and the samples each on its own, and still the reported
    minimum and maximum are among the reported samples and bound every
    one of them; there is at least one sample, and the minimum is not
    above the maximum. *)
Theorem load_test_statistics_ordered
    (pools : gmap string Pool) (region_id : string) (K : Z)
    (r : LoadTestResult) :
  run_load_test pools region_id K = Some r ->
  results r <> [] /\
  In (min_ms r) (results r) /\ In (max_ms r) (results r) /\
  Forall (fun x => (min_ms r <= x)%Q) (results r) /\
  Forall (fun x => (x <= max_ms r)%Q) (results r) /\
  (min_ms r <= max_ms r)%Q.
Proof.
  unfold run_load_test.
  destruct (get_pool pools region_id) as [pool |]; [| discriminate].
  destruct (valid_only (map (single_query pool) (range K)))
    as [|x rest]; [discriminate |].
  intros [= <-]. cbn [results min_ms max_ms avg_ms].
  destruct (min_of_least x rest) as [Hmin_in Hmin].
  destruct (max_of_greatest x rest) as [Hmax_in Hmax].
  split; [discriminate |].
  split; [exact (in_map round2 (x :: rest) _ Hmin_in) |].
  split; [exact (in_map round2 (x :: rest) _ Hmax_in) |].
  split; [| split].
  - apply (proj2 (List.Forall_map round2 _ (x :: rest))).
    eapply List.Forall_impl; [| exact Hmin].
    intros y Hy. now apply round2_mono.
  - apply (proj2 (List.Forall_map round2 _ (x :: rest))).
    eapply List.Forall_impl; [| exact Hmax].
    intros y Hy. now apply round2_mono.
  - apply round2_mono. rewrite List.Forall_forall in Hmin.
    apply Hmin. exact Hmax_in.
Qed.

Lemma load_test_statistics_ordered_witness :
  exists r,
    run_load_test (<["us-east" := flaky_pool]> ∅) "us-east" 5 = Some r /\
    min_ms r = (1100 # 100)%Q /\ max_ms r = (1400 # 100)%Q /\
    In (min_ms r) (results r) /\ In (max_ms r) (results r).
Proof.
  eexists. split; [vm_compute; reflexivity |].
  split; [reflexivity |]. split; [reflexivity |].
  edestruct (load_test_statistics_ordered (<["us-east" := flaky_pool]> ∅)
               "us-east" 5) as (_ & Hmin & Hmax & _);
    [vm_compute; reflexivity |].
  split; [exact Hmin | exact Hmax].
Defined.

(** [x or 0] and [x or ""] only replace a NULL. *)
Lemma or_int_default (x : option Z) : or_int x 0 = default 0 x.
Proof.
  destruct x as [v |]; [| reflexivity]. cbn.
  now destruct (Z.eqb_spec v 0) as [-> |].
Qed.

Lemma or_str_default (x : option string) : or_str x "" = default "" x.
Proof. now destruct x as [[|c s] |]. Qed.

(** X5. The result of the connection tester has one of two shapes. A
    failure is the bare failure record: no latency, address, port, pid,
    database or version, only the error text. A success comes from a
    row of the info query on a connection that was acquired and
    released; it has no error text, its address, port, pid, database
    and version are the columns of that row, with the empty string or 0
    for a column that is NULL, and its latency is not negative when the
    measured time is not. *)
Theorem test_connection_shape
    (pools : gmap string Pool) (region_id : string) :
  (success (test_connection pools region_id) = false ->
   test_connection pools region_id
     = failed (error (test_connection pools region_id)))
  /\ (success (test_connection pools region_id) = true ->
      exists pool conn row,
        get_pool pools region_id = Some pool /\
        acquire pool 0 = Ok conn /\
        fetch_info conn = Ok (Some row) /\
        release conn = Ok tt /\
        error (test_connection pools region_id) = "" /\
        server_ip (test_connection pools region_id)
          = default "" (row_server_ip row) /\
        server_port (test_connection pools region_id)
          = default 0 (row_server_port row) /\
        backend_pid (test_connection pools region_id)
          = default 0 (row_backend_pid row) /\
        database (test_connection pools region_id)
          = default "" (row_database row) /\
        pg_version (test_connection pools region_id)
          = default "" (row_pg_version row) /\
        ((0 <= elapsed conn)%Q ->
         (0 <= latency_ms (test_connection pools region_id))%Q)).
Proof.
  unfold test_connection.
  destruct (get_pool pools region_id) as [pool |]; [| now split].
  destruct (connection_attempt pool) as [r | e] eqn:Hr; [| now split].
  pose proof Hr as Hok. apply connection_attempt_success in Hok.
  destruct Hok as [Hsuccess Herror].
  split; [congruence |]. intros _.
  unfold connection_attempt in Hr. apply with_conn_Ok in Hr.
  destruct Hr as (conn & Hacq & Hbody & Hrel).
  unfold rbind, subscript in Hbody.
  destruct (fetch_info conn) as [[row |] | e] eqn:Hrow; try discriminate.
  injection Hbody as <-.
  cbn [latency_ms error server_ip server_port backend_pid database
       pg_version].
  exists pool, conn, row.
  split; [reflexivity |]. split; [exact Hacq |].
  split; [exact Hrow |]. split; [exact Hrel |].
  split; [reflexivity |]. split; [now destruct (row_server_ip row) |].
  split; [apply or_int_default |]. split; [apply or_int_default |].
  split; [apply or_str_default |]. split; [apply or_str_default |].
  intros Hpos. apply (round2_lower 0). change (inject_Z 0) with 0%Q. lra.
Qed.

(* ================================================================== *)
(** ** More about the fan-out *)
(* ================================================================== *)

(** *** [sorted] on a list that is in order already, and on failures *)

Lemma Key_le_not_lt (a b : Key) : Key_le a b -> key_lt b a = false.
Proof.
  destruct a as [x|], b as [y|]; simpl; try easy.
  intros Hle. apply negb_false_iff. now apply Qle_bool_iff.
Qed.

Lemma insert_by_behind {A} (key : A -> Key) (x : A) (l : list A) :
  Forall (fun a => le_by key a x) l -> insert_by key x l = l ++ [x].
Proof.
  induction 1 as [|y l Hy _ IH]; simpl; [reflexivity |].
  rewrite (Key_le_not_lt _ _ Hy). now rewrite IH.
Qed.

Lemma StronglySorted_middle {A} (R : A -> A -> Prop) (l1 l2 : list A)
    (x : A) :
  StronglySorted R (l1 ++ x :: l2) -> Forall (fun a => R a x) l1.
Proof.
  induction l1 as [|a l1 IH]; simpl; intros Hsorted; [constructor |].
  apply StronglySorted_inv in Hsorted. destruct Hsorted as [Hrest Ha].
  constructor; [| now apply IH].
  rewrite List.Forall_forall in Ha. apply Ha, in_elt.
Qed.

Lemma fold_insert_ordered {A} (key : A -> Key) (l acc : list A) :
  StronglySorted (le_by key) (acc ++ l) ->
  fold_left (fun acc x => insert_by key x acc) l acc = acc ++ l.
Proof.
  revert acc. induction l as [|x l IH]; intros acc Hsorted; simpl.
  - now rewrite app_nil_r.
  - rewrite (insert_by_behind key x acc)
      by exact (StronglySorted_middle _ _ _ _ Hsorted).
    rewrite IH; rewrite <- app_assoc; [reflexivity | exact Hsorted].
Qed.

Lemma sorted_ordered {A} (key : A -> Key) (l : list A) :
  StronglySorted (le_by key) l -> sorted key l = l.
Proof. intros Hsorted. exact (fold_insert_ordered key l [] Hsorted). Qed.

Lemma insert_by_failed_only
    (x : string * ConnectionResult) (l : list (string * ConnectionResult)) :
  failed_only (insert_by latency_key x l)
    = failed_only l ++ failed_only [x].
Proof.
  unfold failed_only.
  induction l as [|y l IH]; [reflexivity |].
  cbn [insert_by]. destruct (key_lt (latency_key x) (latency_key y)) eqn:Hlt.
  - assert (Hx : success (snd x) = true).
    { unfold latency_key in Hlt. destruct (success (snd x)); [reflexivity |].
      discriminate. }
    cbn [List.filter]. rewrite Hx. cbn [negb]. now rewrite app_nil_r.
  - cbn [List.filter]. rewrite IH.
    destruct (negb (success (snd y))); reflexivity.
Qed.

Lemma sorted_failed_only (l : list (string * ConnectionResult)) :
  failed_only (sorted latency_key l) = failed_only l.
Proof.
  unfold sorted.
  assert (H : forall acc,
             failed_only (fold_left (fun acc x => insert_by latency_key x acc)
                                    l acc)
             = failed_only acc ++ failed_only l).
  { induction l as [|x l IH]; intros acc; simpl.
    - now rewrite app_nil_r.
    - rewrite IH, insert_by_failed_only, <- app_assoc. f_equal.
      unfold failed_only. cbn [List.filter].
      now destruct (negb (success (snd x))). }
  exact (H []).
Qed.

(** *** Sublists of the registry *)

Lemma filter_sublist {A} (p : A -> bool) (l : list A) :
  sublist (List.filter p l) l.
Proof.
  induction l as [|x l IH]; simpl; [constructor |].
  destruct (p x); now constructor.
Qed.

Lemma map_sublist {A B} (f : A -> B) (l1 l2 : list A) :
  sublist l1 l2 -> sublist (map f l1) (map f l2).
Proof. induction 1; simpl; now constructor. Qed.

Lemma StronglySorted_sublist {A} (R : A -> A -> Prop) (l1 l2 : list A) :
  sublist l1 l2 -> StronglySorted R l2 -> StronglySorted R l1.
Proof.
  induction 1 as [|x l1 l2 Hsub IH | x l1 l2 Hsub IH]; intros Hsorted.
  - constructor.
  - apply StronglySorted_inv in Hsorted. destruct Hsorted as [Hrest Hx].
    constructor; [now apply IH |].
    rewrite List.Forall_forall in *. intros y Hy. apply Hx.
    apply list_elem_of_In. eapply elem_of_sublist; [| exact Hsub].
    now apply list_elem_of_In.
  - apply StronglySorted_inv in Hsorted. now apply IH.
Qed.

Lemma registry_bands_apart : StronglySorted band_below (od_keys REGIONS).
Proof.
  repeat constructor; unfold band_below; vm_compute; discriminate.
Qed.

(** *** The entries that the loop collects *)

Lemma od_set_fresh {V} (d : list (string * V)) (k : string) (v : V) :
  ~ In k (od_keys d) -> od_set d k v = d ++ [(k, v)].
Proof.
  induction d as [|[k' v'] d IH]; simpl; [reflexivity |].
  intros Hfresh. destruct (String.eqb k' k) eqn:Hk.
  - apply String.eqb_eq in Hk. tauto.
  - f_equal. apply IH. tauto.
Qed.

Lemma connection_result_entry
    (env : Env) (region_id : string) (region : RegionConfig) (w : World) :
  od_get REGIONS region_id = Some region ->
  entry_of env (region_id, fst (connection_result env region_id region w)).
Proof.
  intros Hregion. unfold entry_of, callee_of, connection_result.
  cbn [fst snd]. rewrite Hregion.
  destruct (demo env || negb (dsn_truthy (dsn (environ env) region)));
    run_handler.
  - match goal with
    | |- context [simulate_connection env region_id ?w0] =>
        pose proof (simulate_connection_band env region_id w0) as Hsim;
        destruct (simulate_connection env region_id w0) as [result w1]
    end.
    cbn beta iota zeta delta [fst snd] in *.
    destruct Hsim as (Hok & Hlo & Hhi & _). now repeat split.
  - reflexivity.
Qed.

Lemma test_each_entries (env : Env) (enabled : list string) :
  forall (results : list (string * ConnectionResult)) (w : World),
    (forall rid, In rid enabled -> In rid (od_keys REGIONS)) ->
    List.NoDup (od_keys results ++ enabled) ->
    exists added w',
      test_each env enabled results w = (Ok (results ++ added), w') /\
      od_keys added = enabled /\
      Forall (entry_of env) added.
Proof.
  induction enabled as [|rid rest IH]; intros results w Hknown Hnodup.
  - exists [], w. rewrite app_nil_r. now repeat split.
  - destruct (od_get_known REGIONS rid (Hknown rid (or_introl eq_refl)))
      as [region Hregion].
    cbn [test_each]. rewrite Hregion. unfold bind.
    pose proof (connection_result_entry env rid region w Hregion) as Hentry.
    destruct (connection_result env rid region w) as [result w1].
    cbn [fst] in Hentry.
    assert (Hset : od_set results rid result = results ++ [(rid, result)]).
    { apply od_set_fresh. intros Hin.
      apply List.NoDup_remove_2 in Hnodup. apply Hnodup.
      apply in_or_app. now left. }
    rewrite Hset.
    destruct (IH (results ++ [(rid, result)]) w1) as
      (added & w' & -> & Hkeys & Hentries).
    + intros k Hk. apply Hknown. now right.
    + unfold od_keys in *. rewrite map_app, <- app_assoc. exact Hnodup.
    + exists ((rid, result) :: added), w'.
      rewrite <- app_assoc. split; [reflexivity |].
      split; [| now constructor].
      unfold od_keys in *. cbn [map fst]. now f_equal.
Qed.

(** The fan-out, with the entries it collected in the order of the
    registry. *)
Lemma fan_out_entries (env : Env) (request : Request) (w : World) :
  List.filter (region_flag env w request) (od_keys REGIONS) <> [] ->
  exists results w',
    test_all_regions env request w
      = (TemplateResponse "partials/all_results.html"
           (CtxAllResults (sorted latency_key results) REGIONS), w') /\
    od_keys results
      = List.filter (region_flag env w request) (od_keys REGIONS) /\
    Forall (entry_of env) results.
Proof.
  intros Hsome. unfold test_all_regions. unfold bind at 1.
  rewrite enabled_regions_filter.
  pose proof (List.NoDup_filter (region_flag env w request)
                region_ids_distinct) as Hnodup.
  assert (Hknown : forall rid,
             In rid (List.filter (region_flag env w request)
                                 (od_keys REGIONS)) ->
             In rid (od_keys REGIONS)).
  { intros rid Hin. now apply filter_In in Hin. }
  destruct (List.filter (region_flag env w request) (od_keys REGIONS))
    as [|rid rest]; [congruence |].
  run_handler.
  match goal with
  | |- context [test_each env (rid :: rest) [] ?w0] =>
      destruct (test_each_entries env (rid :: rest) [] w0 Hknown Hnodup)
        as (results & w' & -> & Hkeys & Hentries)
  end.
  exists results, w'. now repeat split.
Qed.

Lemma bands_in_order (results : list (string * ConnectionResult)) :
  StronglySorted band_below (od_keys results) ->
  Forall in_band results ->
  StronglySorted (le_by latency_key) results.
Proof.
  induction results as [|[a ra] results IH]; intros Hkeys Hbands;
    [constructor |].
  cbn in Hkeys. apply StronglySorted_inv in Hkeys.
  destruct Hkeys as [Hrest Ha].
  apply Forall_cons in Hbands. destruct Hbands as [Hra Hbands].
  constructor; [now apply IH |].
  rewrite List.Forall_forall in *. intros [b rb] Hb.
  assert (Hrb : in_band (b, rb)) by now apply Hbands.
  assert (Hab : band_below a b).
  { apply Ha. change b with (fst (b, rb)). now apply in_map. }
  destruct Hra as (Hsa & _ & Hhi). destruct Hrb as (Hsb & Hlo & _).
  cbn [fst snd] in *. unfold le_by, latency_key. cbn [snd].
  rewrite Hsa, Hsb. cbn [Key_le].
  apply Qle_trans with (inject_Z (base_latency a + 20)); [exact Hhi |].
  apply Qle_trans with (inject_Z (base_latency b - 10)); [| exact Hlo].
  rewrite <- Zle_Qle. exact Hab.
Qed.

(** X6. In demo mode the all-regions endpoint always lists the
    enabled regions in the order of the registry, whatever the random
    draws are: every entry is a simulated success inside the band of
    its region, and the bands of the registry do not overlap, so the
    sort by latency changes nothing. *)
Theorem demo_fan_out_in_registry_order
    (env : Env) (request : Request) (w : World) :
  demo env = true ->
  List.filter (region_flag env w request) (od_keys REGIONS) <> [] ->
  exists rs w',
    test_all_regions env request w
      = (TemplateResponse "partials/all_results.html"
                          (CtxAllResults rs REGIONS), w') /\
    od_keys rs = List.filter (region_flag env w request) (od_keys REGIONS) /\
    Forall in_band rs.
Proof.
  intros Hdemo Hsome.
  destruct (fan_out_entries env request w Hsome)
    as (results & w' & Hrun & Hkeys & Hentries).
  assert (Hbands : Forall in_band results).
  { rewrite List.Forall_forall in *. intros [rid r] Hin.
    specialize (Hentries _ Hin). unfold entry_of, callee_of in Hentries.
    cbn [fst snd] in Hentries.
    assert (Hknown : In rid (od_keys REGIONS)).
    { assert (Hrid : In rid (od_keys results))
        by (change rid with (fst (rid, r)); now apply in_map).
      rewrite Hkeys in Hrid. now apply filter_In in Hrid. }
    destruct (od_get_known REGIONS rid Hknown) as [region Hregion].
    rewrite Hregion, Hdemo in Hentries. exact Hentries. }
  assert (Hsorted : StronglySorted (le_by latency_key) results).
  { apply bands_in_order; [| exact Hbands]. rewrite Hkeys.
    exact (StronglySorted_sublist _ _ _ (filter_sublist _ _)
                                  registry_bands_apart). }
  rewrite (sorted_ordered latency_key results Hsorted) in Hrun.
  now exists results, w'.
Qed.

Lemma demo_fan_out_in_registry_order_witness :
  demo demo_env = true /\
  exists rs w',
    test_all_regions demo_env plain_request us_east_off_world
      = (TemplateResponse "partials/all_results.html"
                          (CtxAllResults rs REGIONS), w') /\
    od_keys rs = ["eu-west"; "asia-pacific"] /\
    Forall in_band rs.
Proof.
  split; [reflexivity |].
  apply (demo_fan_out_in_registry_order demo_env plain_request
           us_east_off_world); [reflexivity | discriminate].
Defined.

Lemma filter_nothing {A} (p : A -> bool) (l : list A) :
  (forall x, In x l -> p x = false) -> List.filter p l = [].
Proof.
  induction l as [|x l IH]; intros Hall; simpl; [reflexivity |].
  rewrite (Hall x (or_introl eq_refl)). apply IH.
  intros y Hy. apply Hall. now right.
Qed.

(** X7. When the flag of every region of the registry evaluates to
    false, the all-regions endpoint answers with the no-regions
    fragment and does nothing else: no delay, no random draw, no call,
    and the state is as it was. *)
Theorem fan_out_nothing_enabled
    (env : Env) (request : Request) (w : World) :
  (forall rid, In rid (od_keys REGIONS) ->
               region_flag env w request rid = false) ->
  test_all_regions env request w = (HTMLResponse no_regions_enabled, w).
Proof.
  intros Hoff. apply fan_out_none. now apply filter_nothing.
Qed.

Lemma fan_out_nothing_enabled_witness :
  test_all_regions dark_env plain_request fresh_world
    = (HTMLResponse no_regions_enabled, fresh_world).
Proof.
  apply (fan_out_nothing_enabled dark_env plain_request fresh_world).
  intros rid [<- | [<- | [<- | []]]]; reflexivity.
Defined.

(** X8. In the list of the all-regions endpoint the failed entries
    keep the order of the registry among themselves, and each of them
    is the result of the connection tester for its region: a simulated
    entry never fails. *)
Theorem failed_regions_in_registry_order
    (env : Env) (request : Request) (w : World)
    (name : string) (rs : list (string * ConnectionResult))
    (regions : list (string * RegionConfig)) :
  fst (test_all_regions env request w)
    = TemplateResponse name (CtxAllResults rs regions) ->
  sublist (od_keys (failed_only rs)) (od_keys REGIONS) /\
  Forall (fun entry =>
            snd entry = test_connection (pools env) (fst entry))
         (failed_only rs).
Proof.
  intros Hresponse.
  destruct (List.filter (region_flag env w request) (od_keys REGIONS))
    as [|rid rest] eqn:Henabled.
  { rewrite (fan_out_none env request w Henabled) in Hresponse.
    discriminate. }
  destruct (fan_out_entries env request w)
    as (results & w' & Hrun & Hkeys & Hentries).
  { now rewrite Henabled. }
  rewrite Hrun in Hresponse. injection Hresponse as _ <- _.
  rewrite sorted_failed_only. split.
  - transitivity (od_keys results).
    + apply map_sublist, filter_sublist.
    + rewrite Hkeys. apply filter_sublist.
  - rewrite List.Forall_forall in *. intros entry Hin.
    unfold failed_only in Hin. apply filter_In in Hin.
    destruct Hin as [Hin Hfailed].
    specialize (Hentries _ Hin). unfold entry_of in Hentries.
    destruct (callee_of env (fst entry)); try exact Hentries.
    destruct Hentries as [Hok _]. rewrite Hok in Hfailed. discriminate.
Qed.

Lemma failed_regions_in_registry_order_witness :
  exists rs,
    fst (test_all_regions live_env plain_request fresh_world)
      = TemplateResponse "partials/all_results.html"
                         (CtxAllResults rs REGIONS) /\
    od_keys (failed_only rs) = ["eu-west"] /\
    sublist (od_keys (failed_only rs)) (od_keys REGIONS).
Proof.
  eexists. split; [vm_compute; reflexivity |]. split; [reflexivity |].
  apply (failed_regions_in_registry_order live_env plain_request fresh_world
           "partials/all_results.html" _ REGIONS).
  vm_compute. reflexivity.
Defined.

(* ================================================================== *)
(** ** More about the flags *)
(* ================================================================== *)

Lemma list_ascii_of_append (a b : string) :
  String.list_ascii_of_string (a +:+ b)
    = String.list_ascii_of_string a ++ String.list_ascii_of_string b.
Proof.
  induction a as [|c a IH]; [reflexivity |].
  change (String c a +:+ b) with (String c (a +:+ b)).
  cbn [String.list_ascii_of_string]. now rewrite IH.
Qed.

Lemma append_inj_l (a b s : string) : a +:+ s = b +:+ s -> a = b.
Proof.
  intros H. apply (f_equal String.list_ascii_of_string) in H.
  rewrite !list_ascii_of_append in H. apply app_inv_tail in H.
  apply (f_equal String.string_of_list_ascii) in H.
  now rewrite !String.string_of_list_ascii_of_string in H.
Qed.

Lemma region_key_inj (a b : string) : region_key a = region_key b -> a = b.
Proof.
  unfold region_key. intros H.
  apply (String.app_inj "region-") in H. now apply append_inj_l in H.
Qed.

Lemma toggle_other (flags : gmap string FlagValue) (key k : string) :
  k <> key -> snd (toggle_demo_flag flags key) !! k = flags !! k.
Proof.
  intros Hne. unfold toggle_demo_flag.
  destruct (flags !! key) as [[b | n] |]; cbn [snd]; try reflexivity.
  now apply lookup_insert_ne.
Qed.

Lemma toggle_same (flags : gmap string FlagValue) (key : string) :
  snd (toggle_demo_flag flags key) !! key
    = match flags !! key with
      | Some (FBool b) => Some (FBool (negb b))
      | other => other
      end.
Proof.
  unfold toggle_demo_flag.
  destruct (flags !! key) as [[b | n] |] eqn:Hkey; cbn [snd];
    try exact Hkey.
  apply lookup_insert_eq.
Qed.

(** The toggle endpoint in demo mode: the panel of the store after the
    toggle, and the one call in the trace. *)
Lemma toggle_flag_demo
    (env : Env) (key : string) (request : Request) (w : World) :
  demo env = true ->
  toggle_flag env key request w
    = (TemplateResponse "partials/flag_panel.html"
         (CtxFlags (snd (toggle_demo_flag (demo_flags w) key))),
       mkWorld (snd (toggle_demo_flag (demo_flags w) key)) (rng_pos w)
               (trace w ++ [Call ToggleDemoFlag key;
                            Return ToggleDemoFlag key])).
Proof.
  intros Hdemo. unfold toggle_flag. rewrite Hdemo. cbn [negb].
  unfold flag_panel. run_handler.
  destruct (toggle_demo_flag (demo_flags w) key) as [toggled flags'].
  run_handler. now rewrite <- app_assoc.
Qed.

(** X9. In demo mode, toggling the flag of a region through the
    endpoint flips what the handlers see for that region: a region that
    was enabled is answered with the region-disabled partial by the
    next per-region test, and toggling it once more enables it again. *)
Theorem toggled_region_is_disabled
    (env : Env) (region_id : string) (region : RegionConfig)
    (request later : Request) (w : World) :
  demo env = true ->
  od_get REGIONS region_id = Some region ->
  demo_flags w !! region_key region_id = Some (FBool true) ->
  let off := snd (toggle_flag env (region_key region_id) request w) in
  let on := snd (toggle_flag env (region_key region_id) request off) in
  region_flag env off later region_id = false /\
  fst (test_region env region_id later off)
    = TemplateResponse "partials/region_disabled.html" (CtxRegion region) /\
  region_flag env on later region_id = true /\
  demo_flags on = demo_flags w.
Proof.
  intros Hdemo Hregion Hkey off on. subst on off.
  rewrite !(toggle_flag_demo env _ _ _ Hdemo). cbn [snd demo_flags].
  set (flags1 := snd (toggle_demo_flag (demo_flags w) (region_key region_id))).
  assert (H1 : flags1 !! region_key region_id = Some (FBool false)).
  { subst flags1. now rewrite toggle_same, Hkey. }
  assert (H2 : snd (toggle_demo_flag flags1 (region_key region_id))
               = demo_flags w).
  { subst flags1. rewrite (toggle_boolean _ _ true Hkey). cbn [snd].
    rewrite (toggle_boolean _ _ false) by apply lookup_insert_eq.
    cbn [snd negb]. rewrite insert_insert_eq. now apply insert_id. }
  assert (Hoff : forall w0, demo_flags w0 = flags1 ->
                   region_flag env w0 later region_id = false).
  { intros w0 Hw0. unfold region_flag, is_region_enabled.
    rewrite Hdemo, Hw0. fold (region_key region_id). now rewrite H1. }
  split; [now apply Hoff |]. split.
  - rewrite (test_region_disabled env region_id later _ region Hregion);
      [reflexivity | now apply Hoff].
  - rewrite H2. split; [| reflexivity].
    unfold region_flag, is_region_enabled. rewrite Hdemo. cbn [demo_flags].
    fold (region_key region_id). now rewrite Hkey.
Qed.

Lemma toggled_region_is_disabled_witness :
  fst (test_region demo_env "eu-west" plain_request
         (snd (toggle_flag demo_env (region_key "eu-west") plain_request
                           fresh_world)))
    = TemplateResponse "partials/region_disabled.html"
        (CtxRegion (mkRegion "EU West (Ireland)" "REPLICA"
                             "AIVEN_PG_EU_WEST" "#3b82f6")).
Proof.
  apply (toggled_region_is_disabled demo_env "eu-west"
           (mkRegion "EU West (Ireland)" "REPLICA" "AIVEN_PG_EU_WEST"
                     "#3b82f6")
           plain_request plain_request fresh_world);
    reflexivity.
Defined.

(** X10. In demo mode, toggling the flag of one region changes
    nothing for any other region and for any feature: the handlers see
    them as before. *)
Theorem toggle_leaves_the_others
    (env : Env) (region_id other : string) (request later : Request)
    (w : World) :
  demo env = true ->
  other <> region_id ->
  let w' := snd (toggle_flag env (region_key region_id) request w) in
  region_flag env w' later other = region_flag env w later other /\
  (forall feature,
     feature_flag env w' later feature = feature_flag env w later feature).
Proof.
  intros Hdemo Hother w'. subst w'.
  rewrite (toggle_flag_demo env _ _ _ Hdemo). cbn [snd].
  split.
  - unfold region_flag, is_region_enabled. rewrite Hdemo. cbn [demo_flags].
    fold (region_key other). rewrite toggle_other; [reflexivity |].
    intros Heq. apply Hother. now apply region_key_inj.
  - intros feature. unfold feature_flag, is_feature_enabled.
    rewrite Hdemo. cbn [demo_flags].
    rewrite toggle_other; [reflexivity |].
    unfold region_key. intros Heq.
    apply (f_equal String.list_ascii_of_string) in Heq.
    rewrite !list_ascii_of_append in Heq. discriminate Heq.
Qed.

Lemma toggle_leaves_the_others_witness :
  region_flag demo_env
    (snd (toggle_flag demo_env (region_key "us-east") plain_request
                      fresh_world))
    plain_request "eu-west" = true /\
  feature_flag demo_env
    (snd (toggle_flag demo_env (region_key "us-east") plain_request
                      fresh_world))
    plain_request "health-checks" = true.
Proof.
  destruct (toggle_leaves_the_others demo_env "us-east" "eu-west"
              plain_request plain_request fresh_world eq_refl)
    as [Hregion Hfeature]; [discriminate |].
  split; [now rewrite Hregion | now rewrite Hfeature].
Defined.

Lemma toggle_all_lookup
    (keys : list string) (flags : gmap string FlagValue) (k : string) :
  toggle_all flags keys !! k
    = match flags !! k with
      | Some (FBool b) => Some (FBool (xorb b (Nat.odd (occurrences k keys))))
      | other => other
      end.
Proof.
  unfold toggle_all, occurrences. revert flags.
  induction keys as [|key keys IH]; intros flags.
  - cbn. destruct (flags !! k) as [[b | n] |]; try reflexivity.
    now rewrite xorb_false_r.
  - cbn [fold_left List.filter]. rewrite IH.
    destruct (String.eqb k key) eqn:Hk.
    + apply String.eqb_eq in Hk. subst key. rewrite toggle_same.
      destruct (flags !! k) as [[b | n] |]; try reflexivity.
      cbn [length]. rewrite Nat.odd_succ, <- Nat.negb_odd.
      now destruct b, (Nat.odd _).
    + apply String.eqb_neq in Hk. now rewrite toggle_other.
Qed.

(** X11. After any run of toggles a flag is what the number of its
    own toggles makes it: a boolean flag has its first value when it was
    toggled an even number of times and the opposite value otherwise; a
    flag that is no boolean and a key that is absent stay as they were,
    however often they are toggled. So the refresh interval that the
    store gives is the same before and after, and is 30 when the key is
    absent. *)
Theorem toggles_count
    (keys : list string) (flags : gmap string FlagValue) :
  (forall k,
     toggle_all flags keys !! k
       = match flags !! k with
         | Some (FBool b) =>
             Some (FBool (xorb b (Nat.odd (occurrences k keys))))
         | other => other
         end)
  /\ (forall n user_key,
        flags !! "dashboard-refresh-seconds" = Some (FInt n) ->
        get_refresh_interval true None (toggle_all flags keys) user_key
          = FInt n)
  /\ (forall user_key,
        flags !! "dashboard-refresh-seconds" = None ->
        get_refresh_interval true None (toggle_all flags keys) user_key
          = FInt 30).
Proof.
  split; [intros k; apply toggle_all_lookup |].
  split; intros; unfold get_refresh_interval;
    rewrite toggle_all_lookup; now rewrite H.
Qed.

Lemma toggles_count_witness :
  toggle_all initial_demo_flags
    ["enable-load-testing"; "dashboard-refresh-seconds";
     "enable-load-testing"; "region-eu-west-enabled"]
    !! "enable-load-testing" = Some (FBool true)
  /\ get_refresh_interval true None
       (toggle_all initial_demo_flags
          ["enable-load-testing"; "dashboard-refresh-seconds";
           "enable-load-testing"; "region-eu-west-enabled"])
       "anonymous" = FInt 30.
Proof.
  destruct (toggles_count
              ["enable-load-testing"; "dashboard-refresh-seconds";
               "enable-load-testing"; "region-eu-west-enabled"]
              initial_demo_flags) as (Hlookup & Hrefresh & _).
  split; [now rewrite Hlookup | now apply Hrefresh].
Defined.

(** X12. A feature is named with hyphens or with underscores alike:
    [is_feature_enabled] answers the same for a name and for the name
    with its underscores replaced by hyphens. *)
Theorem feature_names_normalised
    (demo : bool) (ld_client : option LdClient)
    (flags : gmap string FlagValue) (feature user_key : string) :
  is_feature_enabled demo ld_client flags
                     (replace_char "_" "-" feature) user_key
    = is_feature_enabled demo ld_client flags feature user_key.
Proof.
  assert (Hidem : replace_char "_" "-" (replace_char "_" "-" feature)
                  = replace_char "_" "-" feature).
  { induction feature as [|c s IH]; [reflexivity |].
    cbn [replace_char]. rewrite IH. f_equal.
    destruct (Ascii.eqb c "_") eqn:Hc; [reflexivity | now rewrite Hc]. }
  unfold is_feature_enabled. now rewrite Hidem.
Qed.

(* ================================================================== *)
(** ** More about the health and the load test endpoints *)
(* ================================================================== *)

Lemma simulate_load_test_returns
    (env : Env) (region_id : string) (K : Z) (w : World) :
  0 < K ->
  exists r,
    fst (simulate_load_test env region_id K w) = Ok r /\
    concurrent r = K /\ Z.of_nat (length (results r)) = K.
Proof.
  intros HK. unfold simulate_load_test, bind.
  pose proof (simulate_samples_length env (base_latency region_id)
                                      (range K) w) as Hlen.
  rewrite range_length in Hlen.
  destruct (simulate_samples env _ _ w) as [[|x rest] w1].
  - simpl in Hlen. lia.
  - eexists. split; [reflexivity |]. cbn [concurrent results fst] in *.
    split; [reflexivity | lia].
Qed.

(** The two endpoints on the real path, past their guards. *)
Lemma region_health_real
    (env : Env) (region_id : string) (request : Request) (w : World)
    (region : RegionConfig) :
  od_get REGIONS region_id = Some region ->
  feature_flag env w request "health-checks" = true ->
  region_flag env w request region_id = true ->
  demo env || negb (dsn_truthy (dsn (environ env) region)) = false ->
  fst (region_health env region_id request w)
    = match get_health_metrics (pools env) region_id with
      | Some m =>
          TemplateResponse "partials/health_metrics.html" (CtxMetrics m)
      | None => HTMLResponse failed_to_fetch_metrics
      end.
Proof.
  intros Hregion Hfeature Hflag Hpath. unfold feature_flag in Hfeature.
  unfold region_flag in Hflag.
  unfold region_health. rewrite Hregion. run_handler.
  rewrite Hfeature. run_handler. rewrite Hflag. run_handler.
  rewrite Hpath. run_handler.
  now destruct (get_health_metrics (pools env) region_id).
Qed.

Lemma load_test_real
    (env : Env) (region_id : string) (request : Request) (w : World)
    (region : RegionConfig) :
  od_get REGIONS region_id = Some region ->
  feature_flag env w request "load-testing" = true ->
  region_flag env w request region_id = true ->
  demo env || negb (dsn_truthy (dsn (environ env) region)) = false ->
  fst (load_test env region_id request w)
    = match run_load_test (pools env) region_id 10 with
      | Some r =>
          TemplateResponse "partials/load_test_result.html"
                           (CtxLoadTest region r)
      | None => HTMLResponse load_test_failed
      end.
Proof.
  intros Hregion Hfeature Hflag Hpath. unfold feature_flag in Hfeature.
  unfold region_flag in Hflag.
  unfold load_test. rewrite Hregion. run_handler.
  rewrite Hfeature. run_handler. rewrite Hflag. run_handler.
  rewrite Hpath. run_handler. unfold load_test_concurrent.
  now destruct (run_load_test (pools env) region_id 10).
Qed.

(** X13. Past its guards, the health endpoint has three outcomes. A
    region that is simulated (demo mode, or no DSN) always gets the
    metrics partial, with plausible numbers, never the failure
    fragment. A region that is really queried gets the metrics partial
    with exactly the metrics that were fetched, and the failure fragment
    exactly when the fetcher returned nothing. *)
Theorem region_health_outcomes
    (env : Env) (region_id : string) (request : Request) (w : World)
    (region : RegionConfig) :
  od_get REGIONS region_id = Some region ->
  feature_flag env w request "health-checks" = true ->
  region_flag env w request region_id = true ->
  (demo env || negb (dsn_truthy (dsn (environ env) region)) = true ->
   exists m,
     fst (region_health env region_id request w)
       = TemplateResponse "partials/health_metrics.html" (CtxMetrics m) /\
     (95 <= cache_hit_ratio m)%Q /\ (cache_hit_ratio m <= 9950 # 100)%Q /\
     5 <= active_connections m <= 25 /\ max_connections m = 100 /\
     (100 <= db_size_mb m)%Q /\ (db_size_mb m <= 500)%Q)
  /\ (demo env || negb (dsn_truthy (dsn (environ env) region)) = false ->
      fst (region_health env region_id request w)
        = match get_health_metrics (pools env) region_id with
          | Some m =>
              TemplateResponse "partials/health_metrics.html" (CtxMetrics m)
          | None => HTMLResponse failed_to_fetch_metrics
          end).
Proof.
  intros Hregion Hfeature Hflag. unfold feature_flag in Hfeature.
  unfold region_flag in Hflag.
  unfold region_health. rewrite Hregion. run_handler.
  rewrite Hfeature. run_handler. rewrite Hflag. run_handler.
  split; intros Hpath; rewrite Hpath; run_handler.
  - match goal with
    | |- context [simulate_health env ?w0] =>
        pose proof (simulate_health_ranges env w0) as Hbounds;
        destruct (simulate_health env w0) as [m w1]
    end.
    cbn beta iota zeta delta [fst] in Hbounds.
    exists m. split; [reflexivity |]. tauto.
  - now destruct (get_health_metrics (pools env) region_id).
Qed.

Lemma region_health_outcomes_witness :
  fst (region_health live_env "us-east" plain_request fresh_world)
    = TemplateResponse "partials/health_metrics.html"
        (CtxMetrics (mkHealthMetrics (9912 # 100) 12 100
                                     (round2 (123456 # 1000))))
  /\ fst (region_health live_env "eu-west" plain_request fresh_world)
     = HTMLResponse failed_to_fetch_metrics.
Proof.
  split.
  - apply (region_health_outcomes live_env "us-east" plain_request
             fresh_world
             (mkRegion "US East (Virginia)" "PRIMARY" "AIVEN_PG_US_EAST"
                       "#10b981"));
      reflexivity.
  - apply (region_health_outcomes live_env "eu-west" plain_request
             fresh_world
             (mkRegion "EU West (Ireland)" "REPLICA" "AIVEN_PG_EU_WEST"
                       "#3b82f6"));
      reflexivity.
Defined.

(** X14. Past its guards, the load test endpoint asks for ten calls.
    A region that is simulated always gets the result partial with ten
    samples; a region that is really tested gets the result partial
    with the result of the load test, and the failure fragment exactly
    when the load test returned nothing. *)
Theorem load_test_outcomes
    (env : Env) (region_id : string) (request : Request) (w : World)
    (region : RegionConfig) :
  od_get REGIONS region_id = Some region ->
  feature_flag env w request "load-testing" = true ->
  region_flag env w request region_id = true ->
  (demo env || negb (dsn_truthy (dsn (environ env) region)) = true ->
   exists r,
     fst (load_test env region_id request w)
       = TemplateResponse "partials/load_test_result.html"
                          (CtxLoadTest region r) /\
     concurrent r = 10 /\ length (results r) = 10%nat)
  /\ (demo env || negb (dsn_truthy (dsn (environ env) region)) = false ->
      fst (load_test env region_id request w)
        = match run_load_test (pools env) region_id 10 with
          | Some r =>
              TemplateResponse "partials/load_test_result.html"
                               (CtxLoadTest region r)
          | None => HTMLResponse load_test_failed
          end).
Proof.
  intros Hregion Hfeature Hflag. unfold feature_flag in Hfeature.
  unfold region_flag in Hflag.
  unfold load_test. rewrite Hregion. run_handler.
  rewrite Hfeature. run_handler. rewrite Hflag. run_handler.
  split; intros Hpath; rewrite Hpath; run_handler.
  - match goal with
    | |- context [simulate_load_test env region_id ?k ?w0] =>
        destruct (simulate_load_test_returns env region_id k w0 eq_refl)
          as (r & Hr & Hk & Hlen);
        destruct (simulate_load_test env region_id k w0) as [outcome w1]
    end.
    cbn [fst] in Hr. subst outcome. exists r.
    split; [reflexivity |]. split; [exact Hk |].
    unfold load_test_concurrent in Hlen. lia.
  - unfold load_test_concurrent.
    now destruct (run_load_test (pools env) region_id 10).
Qed.

Lemma load_test_outcomes_witness :
  (exists r,
     fst (load_test live_env "asia-pacific" plain_request fresh_world)
       = TemplateResponse "partials/load_test_result.html"
           (CtxLoadTest (mkRegion "Asia Pacific (Singapore)" "REPLICA"
                                  "AIVEN_PG_ASIA_PACIFIC" "#f59e0b") r) /\
     concurrent r = 10 /\ length (results r) = 10%nat)
  /\ fst (load_test live_env "eu-west" plain_request fresh_world)
     = HTMLResponse load_test_failed.
Proof.
  split.
  - apply (load_test_outcomes live_env "asia-pacific" plain_request
             fresh_world
             (mkRegion "Asia Pacific (Singapore)" "REPLICA"
                       "AIVEN_PG_ASIA_PACIFIC" "#f59e0b"));
      reflexivity.
  - apply (load_test_outcomes live_env "eu-west" plain_request fresh_world
             (mkRegion "EU West (Ireland)" "REPLICA" "AIVEN_PG_EU_WEST"
                       "#3b82f6"));
      reflexivity.
Defined.

(* ================================================================== *)
(** ** The guards of the per-region endpoints *)
(* ================================================================== *)

Lemma simulate_connection_no_error
    (env : Env) (region_id : string) (w : World) :
  error (fst (simulate_connection env region_id w)) = "".
Proof. reflexivity. Qed.

(** C8, as the claim states it, fails for the unconfigured region,
    which has no message of its own. The third region of [live_env]
    has no DSN and is enabled: the test endpoint answers with the
    ordinary result partial, holding a success that the simulator made
    up, which is the very response that the region gets when it is
    configured and its database answers the same. The first region of
    [demo_env] has no DSN and is switched off: the endpoints answer
    with the response of a disabled region, so that the two conditions
    share one response. *)
Lemma unconfigured_region_message_counterexample :
  od_get REGIONS "asia-pacific" = Some asia_pacific /\
  dsn (environ live_env) asia_pacific = None /\
  dsn (environ configured_env) asia_pacific
    = Some "postgres://asia-pacific.example/defaultdb" /\
  fst (test_region live_env "asia-pacific" plain_request fresh_world)
    = TemplateResponse "partials/connection_result.html"
                       (CtxConnection asia_pacific made_up) /\
  fst (test_region configured_env "asia-pacific" plain_request fresh_world)
    = TemplateResponse "partials/connection_result.html"
                       (CtxConnection asia_pacific made_up) /\
  dsn (environ demo_env)
      (mkRegion "US East (Virginia)" "PRIMARY" "AIVEN_PG_US_EAST"
                "#10b981") = None /\
  fst (test_region demo_env "us-east" plain_request us_east_off_world)
    = TemplateResponse "partials/region_disabled.html"
        (CtxRegion (mkRegion "US East (Virginia)" "PRIMARY"
                             "AIVEN_PG_US_EAST" "#10b981")) /\
  fst (region_health demo_env "us-east" plain_request us_east_off_world)
    = HTMLResponse region_disabled /\
  fst (load_test demo_env "us-east" plain_request us_east_off_world)
    = HTMLResponse region_disabled.
Proof. repeat split. Qed.

(** C8, amended. On the per-region endpoints an unknown region, a
    disabled feature and a disabled region are each answered by a
    response of their own: the three fragments differ from one another
    and from the generic failure fragments of the endpoints, and the
    test endpoint answers a disabled region with a template, which is
    no fragment at all. When several of the conditions hold at once,
    the first guard in the order of the handler answers: unknown
    region, then disabled feature, then disabled region. An
    unconfigured region, one whose DSN is unset or empty, has no
    message of its own: past these guards it is answered with the
    ordinary partial filled by the simulator, a successful connection
    result without error text inside the jitter band of the region,
    health metrics in their plausible ranges, or a load test result of
    ten samples, and never with an error fragment. *)
Theorem guard_responses_distinct
    (env : Env) (request : Request) (w : World) (region_id : string) :
  (od_get REGIONS region_id = None ->
     fst (test_region env region_id request w)
       = HTMLResponse unknown_region /\
     fst (region_health env region_id request w)
       = HTMLResponse unknown_region /\
     fst (load_test env region_id request w)
       = HTMLResponse unknown_region)
  /\ (forall region,
        od_get REGIONS region_id = Some region ->
        (feature_flag env w request "health-checks" = false ->
           fst (region_health env region_id request w)
             = HTMLResponse health_checks_disabled) /\
        (feature_flag env w request "load-testing" = false ->
           fst (load_test env region_id request w)
             = HTMLResponse load_testing_disabled) /\
        (region_flag env w request region_id = false ->
           fst (test_region env region_id request w)
             = TemplateResponse "partials/region_disabled.html"
                                (CtxRegion region) /\
           (feature_flag env w request "health-checks" = true ->
              fst (region_health env region_id request w)
                = HTMLResponse region_disabled) /\
           (feature_flag env w request "load-testing" = true ->
              fst (load_test env region_id request w)
                = HTMLResponse region_disabled)) /\
        (region_flag env w request region_id = true ->
         dsn_truthy (dsn (environ env) region) = false ->
           (exists result,
              fst (test_region env region_id request w)
                = TemplateResponse "partials/connection_result.html"
                                   (CtxConnection region result) /\
              success result = true /\ error result = "" /\
              (inject_Z (base_latency region_id - 10)
                 <= latency_ms result)%Q /\
              (latency_ms result
                 <= inject_Z (base_latency region_id + 20))%Q) /\
           (feature_flag env w request "health-checks" = true ->
              exists metrics,
                fst (region_health env region_id request w)
                  = TemplateResponse "partials/health_metrics.html"
                                     (CtxMetrics metrics) /\
                (95 <= cache_hit_ratio metrics)%Q /\
                (cache_hit_ratio metrics <= 9950 # 100)%Q /\
                5 <= active_connections metrics <= 25 /\
                max_connections metrics = 100 /\
                (100 <= db_size_mb metrics)%Q /\
                (db_size_mb metrics <= 500)%Q) /\
           (feature_flag env w request "load-testing" = true ->
              exists result,
                fst (load_test env region_id request w)
                  = TemplateResponse "partials/load_test_result.html"
                                     (CtxLoadTest region result) /\
                concurrent result = 10 /\
                length (results result) = 10%nat)))
  /\ NoDup [unknown_region; health_checks_disabled; load_testing_disabled;
            region_disabled; failed_to_fetch_metrics; load_test_failed]
  /\ (forall name context body,
        TemplateResponse name context <> HTMLResponse body).
Proof.
  split; [| split; [| split]].
  - intros Hunknown.
    now rewrite test_region_unknown, region_health_unknown,
      load_test_unknown.
  - intros region Hregion. split; [| split; [| split]].
    + intros Hfeature.
      now rewrite (region_health_feature_off env region_id request w region).
    + intros Hfeature.
      now rewrite (load_test_feature_off env region_id request w region).
    + intros Hflag. split; [| split].
      * now rewrite (test_region_disabled env region_id request w region).
      * intros Hfeature.
        now rewrite (region_health_region_off env region_id request w region).
      * intros Hfeature.
        now rewrite (load_test_region_off env region_id request w region).
    + intros Hflag Hdsn. unfold region_flag in Hflag. split; [| split].
      * unfold test_region. rewrite Hregion. run_handler.
        rewrite Hflag. cbn beta iota delta [negb].
        unfold connection_result. rewrite Hdsn, orb_true_r. run_handler.
        match goal with
        | |- context [simulate_connection env region_id ?w0] =>
            destruct (simulate_connection_band env region_id w0)
              as (Hsuccess & Hlo & Hhi & _);
            pose proof (simulate_connection_no_error env region_id w0)
              as Herror;
            destruct (simulate_connection env region_id w0)
              as [result w1]
        end.
        cbn [fst] in *. exists result. now repeat split.
      * intros Hfeature. unfold feature_flag in Hfeature.
        unfold region_health. rewrite Hregion. run_handler.
        rewrite Hfeature. run_handler. rewrite Hflag. run_handler.
        rewrite Hdsn, orb_true_r. run_handler.
        match goal with
        | |- context [simulate_health env ?w0] =>
            pose proof (simulate_health_ranges env w0) as Hranges;
            destruct (simulate_health env w0) as [metrics w1]
        end.
        cbn [fst] in Hranges. exists metrics.
        split; [reflexivity | exact Hranges].
      * intros Hfeature. unfold feature_flag in Hfeature.
        unfold load_test. rewrite Hregion. run_handler.
        rewrite Hfeature. run_handler. rewrite Hflag. run_handler.
        rewrite Hdsn, orb_true_r. run_handler.
        match goal with
        | |- context [simulate_load_test env region_id ?k ?w0] =>
            destruct (simulate_load_test_returns env region_id k w0
                        eq_refl) as (r & Hr & Hk & Hlen);
            destruct (simulate_load_test env region_id k w0)
              as [outcome w1]
        end.
        cbn [fst] in Hr. subst outcome. exists r.
        split; [reflexivity |]. split; [exact Hk |].
        unfold load_test_concurrent in Hlen. lia.
  - apply (bool_decide_unpack _). vm_compute. reflexivity.
  - discriminate.
Qed.

Lemma guard_responses_distinct_witness :
  exists result,
    fst (test_region live_env "asia-pacific" plain_request fresh_world)
      = TemplateResponse "partials/connection_result.html"
                         (CtxConnection asia_pacific result) /\
    success result = true /\ error result = "" /\
    (170 <= latency_ms result)%Q /\ (latency_ms result <= 200)%Q.
Proof.
  destruct (guard_responses_distinct live_env plain_request fresh_world
              "asia-pacific") as (_ & Hknown & _).
  destruct (Hknown asia_pacific eq_refl) as (_ & _ & _ & Hunconfigured).
  destruct (Hunconfigured eq_refl eq_refl) as (Hresult & _).
  exact Hresult.
Defined.

(* ================================================================== *)
(** ** The pool manager *)
(* ================================================================== *)

Lemma od_get_od_set {V} (d : list (string * V)) (k k' : string) (v : V) :
  od_get (od_set d k v) k' = if String.eqb k k' then Some v else od_get d k'.
Proof.
  induction d as [|[k0 v0] d IH]; cbn [od_set od_get]; [reflexivity |].
  destruct (String.eqb_spec k0 k) as [-> | Hk0]; cbn [od_get].
  - now destruct (String.eqb k k').
  - rewrite IH. destruct (String.eqb_spec k0 k') as [-> | Hk0'];
      [| reflexivity].
    destruct (String.eqb_spec k k') as [-> | _]; [congruence | reflexivity].
Qed.

Lemma od_get_unknown {V} (d : list (string * V)) (k : string) :
  ~ In k (od_keys d) -> od_get d k = None.
Proof.
  induction d as [|[k' v'] d IH]; simpl; [reflexivity |].
  intros Hfresh. destruct (String.eqb k' k) eqn:Hk.
  - apply String.eqb_eq in Hk. tauto.
  - apply IH. tauto.
Qed.

(** The manager's dictionary and the map of the database functions
    answer alike. *)
Lemma pool_map_lookup (pools : list (string * Pool)) (region_id : string) :
  Database.get_pool (DatabaseManager.pool_map pools) region_id
    = DatabaseManager.get_pool pools region_id.
Proof.
  unfold Database.get_pool, DatabaseManager.get_pool,
    DatabaseManager.pool_map.
  induction pools as [|[k p] pools IH]; [apply lookup_empty |].
  cbn [list_to_map foldr od_get]. 
  destruct (String.eqb k region_id) eqn:Hk.
  - apply String.eqb_eq in Hk. subst k. apply lookup_insert_eq.
  - apply String.eqb_neq in Hk. now rewrite lookup_insert_ne.
Qed.

Lemma connect_regions_lookup
    (driver : DatabaseManager.Driver) (environ : gmap string string)
    (regions : list (string * RegionConfig)) :
  List.NoDup (od_keys regions) ->
  forall (pools : list (string * Pool)) (region_id : string),
    od_get (fst (DatabaseManager.connect_regions driver environ regions
                                                 pools)) region_id
      = match od_get regions region_id with
        | Some region =>
            match pool_of driver environ region with
            | Some pool => Some pool
            | None => od_get pools region_id
            end
        | None => od_get pools region_id
        end.
Proof.
  induction regions as [|[rid config] regions IH]; intros Hnodup pools k;
    [reflexivity |].
  cbn in Hnodup. apply List.NoDup_cons_iff in Hnodup.
  destruct Hnodup as [Hfresh Hnodup].
  assert (Hstep : forall pools',
            od_get (fst (DatabaseManager.connect_regions
                           driver environ regions pools')) k
            = if String.eqb rid k then od_get pools' k
              else match od_get regions k with
                   | Some region =>
                       match pool_of driver environ region with
                       | Some pool => Some pool
                       | None => od_get pools' k
                       end
                   | None => od_get pools' k
                   end).
  { intros pools'. rewrite (IH Hnodup).
    destruct (String.eqb rid k) eqn:Hk; [| reflexivity].
    apply String.eqb_eq in Hk. subst k.
    now rewrite (od_get_unknown regions rid Hfresh). }
  assert (Hfst : forall pools0 (line : string),
            fst (let (pools', out) :=
                   DatabaseManager.connect_regions driver environ regions
                                                   pools0 in
                 (pools', line :: out))
            = fst (DatabaseManager.connect_regions driver environ regions
                                                   pools0)).
  { intros pools0 line.
    now destruct (DatabaseManager.connect_regions _ _ _ _). }
  cbn [DatabaseManager.connect_regions od_get].
  destruct (String.eqb rid k) eqn:Hk; unfold pool_of;
    (destruct (dsn environ config) as [[|c s] |];
     [| destruct (DatabaseManager.create_pool driver (String c s))
          as [pool | e] |]);
    rewrite Hfst, Hstep, ?od_get_od_set, ?Hk; reflexivity.
Qed.

Lemma connect_regions_lines
    (driver : DatabaseManager.Driver) (environ : gmap string string)
    (regions : list (string * RegionConfig)) (pools : list (string * Pool)) :
  length (snd (DatabaseManager.connect_regions driver environ regions pools))
    = length regions.
Proof.
  revert pools. induction regions as [|[rid config] regions IH];
    intros pools; [reflexivity |].
  cbn [DatabaseManager.connect_regions].
  destruct (dsn environ config) as [[|c s] |];
    [| destruct (DatabaseManager.create_pool driver (String c s)) |];
    match goal with
    | |- context [DatabaseManager.connect_regions _ _ regions ?p] =>
        specialize (IH p);
        destruct (DatabaseManager.connect_regions driver environ regions p)
    end;
    cbn [snd length] in *; now rewrite IH.
Qed.

Lemma initialize_lookup
    (driver : DatabaseManager.Driver) (environ : gmap string string)
    (region_id : string) :
  DatabaseManager.get_pool
    (fst (DatabaseManager.initialize driver environ [])) region_id
    = (if DatabaseManager.ASYNCPG_AVAILABLE driver then
         match od_get REGIONS region_id with
         | Some region => pool_of driver environ region
         | None => None
         end
       else None).
Proof.
  unfold DatabaseManager.initialize, DatabaseManager.get_pool.
  destruct (DatabaseManager.ASYNCPG_AVAILABLE driver); cbn [negb];
    [| reflexivity].
  rewrite (connect_regions_lookup driver environ REGIONS
             region_ids_distinct).
  destruct (od_get REGIONS region_id) as [region |]; [| reflexivity].
  now destruct (pool_of driver environ region).
Qed.

(** X15. After [initialize] on an empty manager, a region has a pool
    exactly when the driver was importable, the region is in the
    registry, its DSN variable is set to a non-empty string and
    [create_pool] did not raise for it; the pool is then the one that
    [create_pool] returned. When the driver is importable one line is
    printed for every region of the registry, and one line in all when
    it is not. *)
Theorem initialize_pools
    (driver : DatabaseManager.Driver) (environ : gmap string string)
    (region_id : string) :
  DatabaseManager.get_pool
    (fst (DatabaseManager.initialize driver environ [])) region_id
    = (if DatabaseManager.ASYNCPG_AVAILABLE driver then
         match od_get REGIONS region_id with
         | Some region => pool_of driver environ region
         | None => None
         end
       else None)
  /\ length (snd (DatabaseManager.initialize driver environ []))
     = (if DatabaseManager.ASYNCPG_AVAILABLE driver then length REGIONS
        else 1%nat).
Proof.
  split; [apply initialize_lookup |].
  unfold DatabaseManager.initialize.
  destruct (DatabaseManager.ASYNCPG_AVAILABLE driver); cbn [negb];
    [apply connect_regions_lines | reflexivity].
Qed.

Lemma running_pools
    (driver : DatabaseManager.Driver) (environ : gmap string string)
    (tape : nat -> Z) (region_id : string) :
  Database.get_pool (pools (Main.running driver environ tape)) region_id
    = (if DatabaseManager.ASYNCPG_AVAILABLE driver then
         match od_get REGIONS region_id with
         | Some region => pool_of driver environ region
         | None => None
         end
       else None).
Proof.
  rewrite <- initialize_lookup, <- pool_map_lookup.
  unfold Main.running, Main.startup.
  now destruct (DatabaseManager.initialize driver environ []).
Qed.

Lemma running_environ
    (driver : DatabaseManager.Driver) (environ : gmap string string)
    (tape : nat -> Z) :
  Api.environ (Main.running driver environ tape) = environ /\
  ld_client (Main.running driver environ tape) = None.
Proof.
  unfold Main.running, Main.startup.
  now destruct (DatabaseManager.initialize driver environ []).
Qed.

Lemma test_region_tested
    (env : Env) (region_id : string) (request : Request) (w : World)
    (region : RegionConfig) :
  od_get REGIONS region_id = Some region ->
  region_flag env w request region_id = true ->
  demo env || negb (dsn_truthy (dsn (environ env) region)) = false ->
  fst (test_region env region_id request w)
    = TemplateResponse "partials/connection_result.html"
        (CtxConnection region (test_connection (pools env) region_id)).
Proof.
  intros Hregion Hflag Hpath. unfold region_flag in Hflag.
  unfold test_region. rewrite Hregion. run_handler.
  rewrite Hflag. cbn beta iota delta [negb].
  unfold connection_result. rewrite Hpath. run_handler. reflexivity.
Qed.

(** X16. A region whose pool could not be made at start-up (the
    driver missing, or [create_pool] raising for its DSN) stays
    reachable for the handlers of the started application, and fails
    the same way every time: the connection tester answers with the
    no-pool failure, the health fetcher and the load test with nothing;
    outside demo mode the three per-region endpoints show that as a
    failed connection result, the failed-metrics fragment and the
    failed-load-test fragment. *)
Theorem region_without_pool
    (driver : DatabaseManager.Driver) (environ : gmap string string)
    (tape : nat -> Z) (region_id : string) (region : RegionConfig)
    (request : Request) (w : World) :
  od_get REGIONS region_id = Some region ->
  (if DatabaseManager.ASYNCPG_AVAILABLE driver
   then pool_of driver environ region else None) = None ->
  let env := Main.running driver environ tape in
  (test_connection (pools env) region_id
     = failed "No connection pool available" /\
   get_health_metrics (pools env) region_id = None /\
   (forall K, run_load_test (pools env) region_id K = None))
  /\ (demo env = false ->
      dsn_truthy (dsn environ region) = true ->
      region_flag env w request region_id = true ->
      fst (test_region env region_id request w)
        = TemplateResponse "partials/connection_result.html"
            (CtxConnection region (failed "No connection pool available"))
      /\ (feature_flag env w request "health-checks" = true ->
          fst (region_health env region_id request w)
            = HTMLResponse failed_to_fetch_metrics)
      /\ (feature_flag env w request "load-testing" = true ->
          fst (load_test env region_id request w)
            = HTMLResponse load_test_failed)).
Proof.
  intros Hregion Hnone env.
  assert (Hpool : Database.get_pool (pools env) region_id = None).
  { subst env. rewrite running_pools, Hregion.
    now destruct (DatabaseManager.ASYNCPG_AVAILABLE driver). }
  assert (Htest : test_connection (pools env) region_id
                  = failed "No connection pool available")
    by (unfold test_connection; now rewrite Hpool).
  assert (Hhealth : get_health_metrics (pools env) region_id = None)
    by (unfold get_health_metrics; now rewrite Hpool).
  assert (Hload : forall K, run_load_test (pools env) region_id K = None)
    by (intros K; unfold run_load_test; now rewrite Hpool).
  split; [now repeat split |].
  intros Hdemo Hdsn Hflag.
  assert (Hpath : demo env
                  || negb (dsn_truthy (dsn (Api.environ env) region))
                  = false).
  { rewrite Hdemo. subst env.
    rewrite (proj1 (running_environ driver environ tape)).
    now rewrite Hdsn. }
  split; [| split].
  - rewrite (test_region_tested env region_id request w region
               Hregion Hflag Hpath).
    now rewrite Htest.
  - intros Hfeature.
    rewrite (region_health_real env region_id request w region
               Hregion Hfeature Hflag Hpath).
    now rewrite Hhealth.
  - intros Hfeature.
    rewrite (load_test_real env region_id request w region
               Hregion Hfeature Hflag Hpath).
    now rewrite Hload.
Qed.

Lemma region_without_pool_witness :
  pool_of picky_driver live_environ
          (mkRegion "EU West (Ireland)" "REPLICA" "AIVEN_PG_EU_WEST"
                    "#3b82f6") = None /\
  test_connection (pools (Main.running picky_driver live_environ sample_tape))
                  "eu-west"
    = failed "No connection pool available" /\
  fst (test_region (Main.running picky_driver live_environ sample_tape)
                   "eu-west" plain_request fresh_world)
    = TemplateResponse "partials/connection_result.html"
        (CtxConnection
           (mkRegion "EU West (Ireland)" "REPLICA" "AIVEN_PG_EU_WEST"
                     "#3b82f6")
           (failed "No connection pool available")).
Proof.
  split; [reflexivity |].
  destruct (region_without_pool
              picky_driver live_environ sample_tape "eu-west"
              (mkRegion "EU West (Ireland)" "REPLICA" "AIVEN_PG_EU_WEST"
                        "#3b82f6")
              plain_request fresh_world eq_refl eq_refl)
    as [(Htest & _ & _) Hshown].
  split; [exact Htest |].
  now destruct (Hshown eq_refl eq_refl eq_refl) as [Hregion _].
Defined.

Lemma close_pools_through
    (driver : DatabaseManager.Driver) (items : list (string * Pool)) :
  (forall rid, In rid (od_keys items) -> In rid (od_keys REGIONS)) ->
  match DatabaseManager.close_pools driver items with
  | (out, Ok _) =>
      length out = length items /\
      forall rid, In rid (od_keys items) ->
                  DatabaseManager.close_pool driver rid = Ok tt
  | (out, Raise e) =>
      (length out < length items)%nat /\
      exists rid, In rid (od_keys items) /\
                  DatabaseManager.close_pool driver rid = Raise e
  end.
Proof.
  induction items as [|[rid pool] items IH]; intros Hknown.
  - cbn. split; [reflexivity | intros rid []].
  - cbn [DatabaseManager.close_pools].
    destruct (DatabaseManager.close_pool driver rid) as [[] | e] eqn:Hclose.
    + destruct (od_get_known REGIONS rid (Hknown rid (or_introl eq_refl)))
        as [region ->].
      assert (Hrest : forall k, In k (od_keys items) ->
                                In k (od_keys REGIONS))
        by (intros k Hk; apply Hknown; now right).
      specialize (IH Hrest).
      destruct (DatabaseManager.close_pools driver items)
        as [out [[] | e]].
      * destruct IH as [Hlen Hall]. split; [cbn; now rewrite Hlen |].
        intros k [<- | Hk]; [exact Hclose | now apply Hall].
      * destruct IH as [Hlen (k & Hk & Hraise)].
        split; [cbn; lia |]. exists k. split; [now right | exact Hraise].
    + split; [cbn; lia |]. exists rid. split; [now left | exact Hclose].
Qed.

(** X17. Closing the manager is all or nothing for its dictionary.
    When the [close()] of every pool goes through, one line is printed
    for each pool and the dictionary is empty afterwards, so that no
    region has a pool any more. When the [close()] of some pool raises,
    that exception leaves [close], fewer lines than pools were printed,
    and the dictionary is left as it was, the pools already closed
    included. *)
Theorem close_is_all_or_nothing
    (driver : DatabaseManager.Driver) (pools : list (string * Pool)) :
  (forall rid, In rid (od_keys pools) -> In rid (od_keys REGIONS)) ->
  match DatabaseManager.close driver pools with
  | (pools', out, Ok _) =>
      pools' = [] /\ length out = length pools /\
      (forall rid, DatabaseManager.get_pool pools' rid = None) /\
      (forall rid, In rid (od_keys pools) ->
                   DatabaseManager.close_pool driver rid = Ok tt)
  | (pools', out, Raise e) =>
      pools' = pools /\ (length out < length pools)%nat /\
      exists rid, In rid (od_keys pools) /\
                  DatabaseManager.close_pool driver rid = Raise e
  end.
Proof.
  intros Hknown. unfold DatabaseManager.close.
  pose proof (close_pools_through driver pools Hknown) as Hloop.
  destruct (DatabaseManager.close_pools driver pools) as [out [[] | e]].
  - destruct Hloop as [Hlen Hall]. now repeat split.
  - destruct Hloop as [Hlen Hraise]. now repeat split.
Qed.

Lemma close_is_all_or_nothing_witness :
  fst (fst (DatabaseManager.close picky_driver
              [("us-east", healthy_pool (12 # 1000))])) = []
  /\ fst (fst (DatabaseManager.close picky_driver
                 [("us-east", healthy_pool (12 # 1000));
                  ("eu-west", timed_out_pool)]))
     = [("us-east", healthy_pool (12 # 1000)); ("eu-west", timed_out_pool)].
Proof.
  split.
  - assert (Hknown : forall rid,
               In rid (od_keys [("us-east", healthy_pool (12 # 1000))]) ->
               In rid (od_keys REGIONS)).
    { intros rid [<- | []]. now left. }
    pose proof (close_is_all_or_nothing picky_driver _ Hknown) as H.
    hnf in H. now destruct H as [H _].
  - assert (Hknown : forall rid,
               In rid (od_keys [("us-east", healthy_pool (12 # 1000));
                                ("eu-west", timed_out_pool)]) ->
               In rid (od_keys REGIONS)).
    { intros rid [<- | [<- | []]]; [now left | now right; left]. }
    pose proof (close_is_all_or_nothing picky_driver _ Hknown) as H.
    hnf in H. now destruct H as [H _].
Defined.

(* ================================================================== *)
(** ** The dashboard page *)
(* ================================================================== *)

Lemma od_get_cards (env : Env) (w : World) (request : Request)
    (items : list (string * RegionConfig)) (region_id : string) :
  od_get (map (card_of env w request) items) region_id
    = match od_get items region_id with
      | Some region => Some (snd (card_of env w request (region_id, region)))
      | None => None
      end.
Proof.
  induction items as [|[k region] items IH]; [reflexivity |].
  cbn [map od_get card_of fst snd].
  destruct (String.eqb_spec k region_id) as [-> | Hk]; [reflexivity |].
  exact IH.
Qed.

Lemma region_cards_run (env : Env) (request : Request) (w : World)
    (items : list (string * RegionConfig)) :
  forall acc : list (string * Pages.RegionCard),
    List.NoDup (od_keys acc ++ od_keys items) ->
    Pages.region_cards env (user_key_of request) items acc w
      = (acc ++ map (card_of env w request) items, w).
Proof.
  induction items as [|[rid region] items IH]; intros acc Hnodup.
  - cbn. now rewrite app_nil_r.
  - cbn [Pages.region_cards]. unfold bind at 1, read_flags.
    assert (Hset : forall card, od_set acc rid card = acc ++ [(rid, card)]).
    { intros card. apply od_set_fresh. intros Hin.
      apply List.NoDup_remove_2 in Hnodup. apply Hnodup.
      apply in_or_app. now left. }
    rewrite Hset, IH.
    + now rewrite <- app_assoc.
    + unfold od_keys in *. rewrite map_app, <- app_assoc. exact Hnodup.
Qed.

(** X18. The dashboard shows one card for every region of the
    registry, in the order of the registry, and leaves the state alone.
    What a card says agrees with what the per-region test does in the
    same state: a card whose enabled value is false belongs to a region
    that the test answers with the region-disabled partial, and a card
    that says not configured belongs to a region that is simulated. The
    flags of the page are the store in demo mode and empty outside. *)
Theorem dashboard_agrees_with_the_test
    (env : Env) (request : Request) (w : World) :
  exists context,
    Pages.dashboard env request w = (("index.html", context), w) /\
    od_keys (Pages.regions context) = od_keys REGIONS /\
    (forall region_id card,
       od_get (Pages.regions context) region_id = Some card ->
       exists region,
         od_get REGIONS region_id = Some region /\
         Pages.id card = region_id /\
         Pages.name card = Config.name region /\
         truthy (Pages.enabled card) = region_flag env w request region_id /\
         (truthy (Pages.enabled card) = false ->
          fst (test_region env region_id request w)
            = TemplateResponse "partials/region_disabled.html"
                               (CtxRegion region)) /\
         (Pages.configured card = false ->
          callee_of env region_id = SimulateConnection)) /\
    truthy (Pages.health_checks_enabled context)
      = feature_flag env w request "health-checks" /\
    truthy (Pages.load_testing_enabled context)
      = feature_flag env w request "load-testing" /\
    Pages.demo_mode context = demo env /\
    Pages.flags context = (if demo env then demo_flags w else ∅).
Proof.
  unfold Pages.dashboard. unfold bind at 1.
  rewrite (region_cards_run env request w REGIONS [])
    by exact region_ids_distinct.
  cbn [app]. unfold bind, read_flags, ret.
  eexists. split; [reflexivity |].
  cbn [Pages.regions Pages.health_checks_enabled Pages.load_testing_enabled
       Pages.demo_mode Pages.flags].
  split; [| split; [| now repeat split]].
  - unfold od_keys. rewrite map_map. reflexivity.
  - intros region_id card. rewrite od_get_cards.
    destruct (od_get REGIONS region_id) as [region |] eqn:Hregion;
      [| discriminate].
    intros [= <-]. exists region. cbn [card_of fst snd Pages.id Pages.name
                                       Pages.enabled Pages.configured].
    split; [reflexivity |]. split; [reflexivity |]. split; [reflexivity |].
    split; [reflexivity |]. split.
    + intros Hoff.
      now rewrite (test_region_disabled env region_id request w region).
    + unfold callee_of. rewrite Hregion.
      destruct (dsn (environ env) region); [discriminate |].
      intros _. cbn. now rewrite orb_true_r.
Qed.

(* ================================================================== *)
(** ** The application *)
(* ================================================================== *)

(** *** Which computations keep the flag store *)

Lemma keeps_ret {A} (a : A) : keeps_flags (ret a).
Proof. intros w. reflexivity. Qed.

Lemma keeps_bind {A B} (m : M A) (k : A -> M B) :
  keeps_flags m -> (forall a, keeps_flags (k a)) -> keeps_flags (bind m k).
Proof.
  intros Hm Hk w. unfold bind. specialize (Hm w).
  destruct (m w) as [a w1]. cbn [snd] in Hm. now rewrite Hk.
Qed.

Lemma keeps_log (ev : Event) : keeps_flags (log ev).
Proof. intros w. reflexivity. Qed.

Lemma keeps_draw : keeps_flags draw.
Proof. intros w. reflexivity. Qed.

Lemma keeps_read_flags : keeps_flags read_flags.
Proof. intros w. reflexivity. Qed.

Ltac keeps :=
  repeat first
    [ apply keeps_ret
    | apply keeps_log
    | apply keeps_draw
    | apply keeps_read_flags
    | assumption
    | apply keeps_bind; [| intros ?]
    | progress unfold sleep, random_uniform, random_randint, logged,
        region_enabled, feature_enabled, flag_panel, Main.fragment
    | match goal with
      | |- keeps_flags (if ?b then _ else _) => destruct b
      | |- keeps_flags (match ?x with _ => _ end) => destruct x
      end ].

Lemma keeps_simulate_connection (env : Env) (region_id : string) :
  keeps_flags (simulate_connection env region_id).
Proof. unfold simulate_connection. keeps. Qed.

Lemma keeps_simulate_health (env : Env) : keeps_flags (simulate_health env).
Proof. unfold simulate_health. keeps. Qed.

Lemma keeps_simulate_samples (env : Env) (base : Z) (calls : list nat) :
  keeps_flags (simulate_samples env base calls).
Proof. induction calls; cbn [simulate_samples]; keeps. Qed.

Lemma keeps_simulate_load_test (env : Env) (region_id : string) (K : Z) :
  keeps_flags (simulate_load_test env region_id K).
Proof.
  unfold simulate_load_test. cbv zeta.
  apply keeps_bind; [apply keeps_simulate_samples |]. intros results. keeps.
Qed.

Lemma keeps_connection_result
    (env : Env) (region_id : string) (region : RegionConfig) :
  keeps_flags (connection_result env region_id region).
Proof.
  unfold connection_result.
  pose proof (keeps_simulate_connection env region_id). keeps.
Qed.

Lemma keeps_test_region (env : Env) (region_id : string) (request : Request) :
  keeps_flags (test_region env region_id request).
Proof.
  unfold test_region. cbv zeta.
  destruct (od_get REGIONS region_id) as [region |]; [| keeps].
  pose proof (keeps_connection_result env region_id region). keeps.
Qed.

Lemma keeps_enabled_regions
    (env : Env) (user_key : string) (rids : list string) :
  keeps_flags (enabled_regions env user_key rids).
Proof. induction rids; cbn [enabled_regions]; keeps. Qed.

Lemma keeps_test_each (env : Env) (enabled : list string) :
  forall results, keeps_flags (test_each env enabled results).
Proof.
  induction enabled as [|rid rest IH]; intros results; cbn [test_each];
    [keeps |].
  destruct (od_get REGIONS rid) as [region |]; [| keeps].
  pose proof (keeps_connection_result env rid region).
  apply keeps_bind; [assumption |]. intros result. apply IH.
Qed.

Lemma keeps_test_all_regions (env : Env) (request : Request) :
  keeps_flags (test_all_regions env request).
Proof.
  unfold test_all_regions. cbv zeta.
  apply keeps_bind; [apply keeps_enabled_regions |].
  intros [|rid rest]; [keeps |].
  pose proof (keeps_test_each env (rid :: rest) []). keeps.
Qed.

Lemma keeps_region_health
    (env : Env) (region_id : string) (request : Request) :
  keeps_flags (region_health env region_id request).
Proof.
  unfold region_health. cbv zeta.
  destruct (od_get REGIONS region_id) as [region |]; [| keeps].
  pose proof (keeps_simulate_health env). keeps.
Qed.

Lemma keeps_load_test (env : Env) (region_id : string) (request : Request) :
  keeps_flags (load_test env region_id request).
Proof.
  unfold load_test. cbv zeta.
  destruct (od_get REGIONS region_id) as [region |]; [| keeps].
  pose proof (keeps_simulate_load_test env region_id load_test_concurrent).
  keeps.
Qed.

Lemma keeps_region_cards (env : Env) (user_key : string)
    (items : list (string * RegionConfig)) :
  forall acc, keeps_flags (Pages.region_cards env user_key items acc).
Proof.
  induction items as [|[rid region] items IH]; intros acc;
    cbn [Pages.region_cards]; [keeps |].
  apply keeps_bind; [keeps |]. intros store. apply IH.
Qed.

Lemma keeps_dashboard (env : Env) (request : Request) :
  keeps_flags (Pages.dashboard env request).
Proof.
  unfold Pages.dashboard. cbv zeta.
  apply keeps_bind; [apply keeps_region_cards |]. intros cards. keeps.
Qed.

Lemma toggle_flag_store
    (env : Env) (key : string) (request : Request) (w : World) :
  demo_flags (snd (toggle_flag env key request w))
    = (if demo env then snd (toggle_demo_flag (demo_flags w) key)
       else demo_flags w).
Proof.
  destruct (demo env) eqn:Hdemo.
  - now rewrite (toggle_flag_demo env key request w Hdemo).
  - unfold toggle_flag. now rewrite Hdemo.
Qed.

(** *** The routes *)

Lemma dispatch_found (table : list Main.Route) (method : Main.Method)
    (path : list string) (endpoint : Main.Endpoint)
    (captured : list string) :
  Main.dispatch table method path = Some (endpoint, captured) ->
  exists route,
    In route table /\
    Main.match_route route method path = Some (endpoint, captured).
Proof.
  induction table as [|route table IH]; [discriminate |].
  cbn [Main.dispatch].
  destruct (Main.match_route route method path) as [found |] eqn:Hmatch.
  - intros [= ->]. exists route. split; [now left | exact Hmatch].
  - intros Hrest. destruct (IH Hrest) as (r & Hin & Hr).
    exists r. split; [now right | exact Hr].
Qed.

Lemma match_route_endpoint (route : Main.Route) (method : Main.Method)
    (path : list string) (endpoint : Main.Endpoint)
    (captured : list string) :
  Main.match_route route method path = Some (endpoint, captured) ->
  endpoint = match route with
             | Main.Mount _ e => e
             | Main.At _ _ e => e
             end.
Proof.
  destruct route as [prefix e | m pattern e]; cbn [Main.match_route].
  - destruct (Main.starts_with prefix path); [| discriminate].
    now intros [= <- _].
  - destruct (Main.method_eqb m method); [| discriminate].
    destruct (Main.match_pattern pattern path); [| discriminate].
    now intros [= <- _].
Qed.

(** X19. The page at [/] is always the dashboard: the route of
    [pages.py] comes before the route that [main.py] adds for the same
    path, so that [root] is never called, whatever the method and the
    path of a request. *)
Theorem root_is_never_served
    (method : Main.Method) (path : list string) (endpoint : Main.Endpoint)
    (captured : list string) :
  Main.dispatch Main.routes method path = Some (endpoint, captured) ->
  endpoint <> Main.Root /\
  Main.dispatch Main.routes Main.GET [] = Some (Main.Dashboard, []).
Proof.
  intros Hdispatch. split; [| reflexivity].
  intros ->. pose proof Hdispatch as Hfound.
  apply dispatch_found in Hfound. destruct Hfound as (route & Hin & Hmatch).
  pose proof (match_route_endpoint _ _ _ _ _ Hmatch) as Hendpoint.
  cbn in Hin.
  repeat (destruct Hin as [<- | Hin]; [try discriminate Hendpoint |]);
    [| destruct Hin].
  cbn [Main.match_route] in Hmatch.
  destruct method; [| discriminate]. destruct path; [| discriminate].
  discriminate Hdispatch.
Qed.

Lemma root_is_never_served_witness :
  Main.dispatch Main.routes Main.POST ["api"; "regions"; "eu-west"; "test"]
    = Some (Main.TestRegion, ["eu-west"]) /\
  Main.TestRegion <> Main.Root.
Proof.
  split; [reflexivity |].
  apply (root_is_never_served Main.POST
           ["api"; "regions"; "eu-west"; "test"] Main.TestRegion
           ["eu-west"]).
  reflexivity.
Defined.

(** *** The flag store under the routes *)

Lemma fragment_run (m : M Response) (w : World) :
  Main.fragment m w = (Main.Fragment (fst (m w)), snd (m w)).
Proof. unfold Main.fragment, bind, ret. now destruct (m w). Qed.

Lemma keeps_fragment (m : M Response) :
  keeps_flags m -> keeps_flags (Main.fragment m).
Proof. intros Hm w. rewrite fragment_run. apply Hm. Qed.

Lemma serve_store (env : Env) (method : Main.Method) (path : list string)
    (request : Request) (w : World) :
  demo_flags (snd (Main.serve env method path request w))
    = match Main.dispatch Main.routes method path with
      | Some (Main.ToggleFlag, [flag_key]) =>
          if demo env then snd (toggle_demo_flag (demo_flags w) flag_key)
          else demo_flags w
      | _ => demo_flags w
      end.
Proof.
  unfold Main.serve.
  destruct (Main.dispatch Main.routes method path) as [[endpoint captured] |];
    [| reflexivity].
  destruct endpoint; destruct captured as [|x [|y captured]];
    cbn [Main.call];
    try reflexivity;
    try (rewrite fragment_run; cbn [snd]; apply toggle_flag_store);
    first
      [ apply keeps_fragment;
        first [ apply keeps_test_region | apply keeps_test_all_regions
              | apply keeps_region_health | apply keeps_load_test
              | unfold get_flags, get_flag_panel; keeps ]
      | apply keeps_bind; [apply keeps_dashboard | intros ?; apply keeps_ret]
      | idtac ].
Qed.

Lemma serve_all_store (env : Env) (arrivals : list Main.Arrival) :
  forall w,
    demo_flags (snd (Main.serve_all env arrivals w))
      = (if demo env then toggle_all (demo_flags w) (toggled_keys arrivals)
         else demo_flags w).
Proof.
  induction arrivals as [|a rest IH]; intros w.
  - cbn. now destruct (demo env).
  - cbn [Main.serve_all toggled_keys].
    pose proof (serve_store env (Main.arrival_method a)
                  (Main.arrival_path a) (Main.arrival_request a) w) as Hstep.
    destruct (Main.serve env _ _ _ w) as [response w1]. cbn [snd] in Hstep.
    specialize (IH w1).
    destruct (Main.serve_all env rest w1) as [responses w2].
    cbn [snd] in *. rewrite IH, Hstep.
    destruct (demo env); [| now destruct (Main.dispatch _ _ _)
                                  as [[[] [|? [|? ?]]] |]].
    destruct (Main.dispatch Main.routes _ _) as [[[] [|x [|y c]]] |];
      reflexivity.
Qed.

(** X20. After any run of requests, a flag of the store is what the
    toggle requests of the run make it: in demo mode a boolean flag is
    flipped exactly when an odd number of requests of the run were
    toggles of its key, and outside demo mode no request changes
    anything. No other route, the dashboard included, writes to the
    store, and no request adds or removes a key or changes a flag that
    is no boolean. *)
Theorem flags_after_a_run
    (env : Env) (arrivals : list Main.Arrival) (w : World) (k : string) :
  demo_flags (snd (Main.serve_all env arrivals w)) !! k
    = match demo_flags w !! k with
      | Some (FBool b) =>
          Some (FBool (xorb b (demo env
                               && Nat.odd (occurrences k
                                             (toggled_keys arrivals)))))
      | other => other
      end.
Proof.
  rewrite serve_all_store. destruct (demo env); cbn [andb].
  - apply toggle_all_lookup.
  - destruct (demo_flags w !! k) as [[b | n] |]; try reflexivity.
    now rewrite xorb_false_r.
Qed.

Lemma flags_after_a_run_witness :
  toggled_keys sample_run
    = ["region-eu-west-enabled"; "enable-load-testing";
       "region-eu-west-enabled"] /\
  demo_flags (snd (Main.serve_all demo_env sample_run fresh_world))
    !! "region-eu-west-enabled" = Some (FBool true) /\
  demo_flags (snd (Main.serve_all demo_env sample_run fresh_world))
    !! "enable-load-testing" = Some (FBool false) /\
  demo_flags (snd (Main.serve_all live_env sample_run fresh_world))
    !! "enable-load-testing" = Some (FBool true).
Proof.
  split; [reflexivity |].
  split; [| split].
  - now rewrite (flags_after_a_run demo_env sample_run fresh_world).
  - now rewrite (flags_after_a_run demo_env sample_run fresh_world).
  - now rewrite (flags_after_a_run live_env sample_run fresh_world).
Defined.

(** *** No exception leaves a handler *)

Lemma test_region_handled
    (env : Env) (region_id : string) (request : Request) (w : World)
    (e : Exception) :
  fst (test_region env region_id request w) <> Unhandled e.
Proof.
  unfold test_region. cbv zeta.
  destruct (od_get REGIONS region_id) as [region |]; [| discriminate].
  run_handler. destruct (truthy _); cbn [negb]; [| discriminate].
  run_handler. now destruct (connection_result env region_id region _).
Qed.

Lemma test_all_regions_handled
    (env : Env) (request : Request) (w : World) (e : Exception) :
  fst (test_all_regions env request w) <> Unhandled e.
Proof.
  destruct (List.filter (region_flag env w request) (od_keys REGIONS))
    as [|rid rest] eqn:Henabled.
  - now rewrite (fan_out_none env request w Henabled).
  - destruct (fan_out_some env request w) as (results & ? & ? & -> & _);
      [now rewrite Henabled | discriminate].
Qed.

Lemma region_health_handled
    (env : Env) (region_id : string) (request : Request) (w : World)
    (e : Exception) :
  fst (region_health env region_id request w) <> Unhandled e.
Proof.
  unfold region_health. cbv zeta.
  destruct (od_get REGIONS region_id) as [region |]; [| discriminate].
  run_handler. destruct (truthy _); cbn [negb]; [| discriminate].
  run_handler. destruct (truthy _); cbn [negb]; [| discriminate].
  run_handler.
  destruct (demo env || negb (dsn_truthy (dsn (environ env) region)));
    run_handler.
  - now destruct (simulate_health env _).
  - now destruct (get_health_metrics (pools env) region_id).
Qed.

Lemma load_test_handled
    (env : Env) (region_id : string) (request : Request) (w : World)
    (e : Exception) :
  fst (load_test env region_id request w) <> Unhandled e.
Proof.
  unfold load_test. cbv zeta.
  destruct (od_get REGIONS region_id) as [region |]; [| discriminate].
  run_handler. destruct (truthy _); cbn [negb]; [| discriminate].
  run_handler. destruct (truthy _); cbn [negb]; [| discriminate].
  run_handler.
  destruct (demo env || negb (dsn_truthy (dsn (environ env) region)));
    run_handler.
  - match goal with
    | |- context [simulate_load_test env region_id ?k ?w0] =>
        destruct (simulate_load_test_returns env region_id k w0 eq_refl)
          as (r & Hr & _);
        destruct (simulate_load_test env region_id k w0) as [outcome w1]
    end.
    cbn [fst] in Hr. subst outcome. discriminate.
  - now destruct (run_load_test (pools env) region_id load_test_concurrent).
Qed.

Lemma toggle_flag_handled
    (env : Env) (key : string) (request : Request) (w : World)
    (e : Exception) :
  fst (toggle_flag env key request w) <> Unhandled e.
Proof.
  unfold toggle_flag. destruct (demo env); cbn [negb]; [| discriminate].
  unfold flag_panel. run_handler.
  now destruct (toggle_demo_flag (demo_flags w) key).
Qed.

(** X21. Whatever the method, the path, the request and the state,
    the application never answers with an exception that left a
    handler: the empty minimum of the simulated load test and the
    missing key of the registry cannot occur on any route. *)
Theorem no_exception_leaves_a_handler
    (env : Env) (method : Main.Method) (path : list string)
    (request : Request) (w : World) (e : Exception) :
  fst (Main.serve env method path request w) <> Main.Fragment (Unhandled e).
Proof.
  unfold Main.serve.
  destruct (Main.dispatch Main.routes method path) as [[endpoint captured] |];
    [| discriminate].
  destruct endpoint; destruct captured as [|x [|y captured]];
    cbn [Main.call]; try discriminate;
    try (unfold bind; destruct (Pages.dashboard env request w);
         discriminate);
    rewrite fragment_run; cbn [fst]; intros [= Hresponse]; revert Hresponse;
    first [ apply test_region_handled | apply test_all_regions_handled
          | apply region_health_handled | apply load_test_handled
          | apply toggle_flag_handled | discriminate ].
Qed.

(** *** The started application outside demo mode *)

Lemma fresh_regions_enabled (region_id : string) :
  truthy (default (FBool true) (initial_demo_flags !! region_key region_id))
    = true.
Proof.
  unfold initial_demo_flags.
  repeat (rewrite lookup_insert; destruct (decide _) as [_ | _];
          [reflexivity |]).
  now rewrite lookup_empty.
Qed.

Lemma test_region_enabled
    (env : Env) (region_id : string) (request : Request) (w : World)
    (region : RegionConfig) :
  od_get REGIONS region_id = Some region ->
  region_flag env w request region_id = true ->
  exists result,
    fst (test_region env region_id request w)
      = TemplateResponse "partials/connection_result.html"
                         (CtxConnection region result).
Proof.
  intros Hregion Hflag. unfold region_flag in Hflag.
  unfold test_region. rewrite Hregion. run_handler.
  rewrite Hflag. cbn [negb]. run_handler.
  destruct (connection_result env region_id region _) as [result w1].
  now exists result.
Qed.

(** X22. Nothing starts the flag service, so the started application
    has no client; outside demo mode the toggle endpoint refuses, so
    the store stays as the module made it. After any run of requests
    from start-up every region and both features are therefore still
    enabled, the refresh interval is still 30, and the per-region test
    of a region of the registry never answers with the region-disabled
    partial. *)
Theorem flags_frozen_outside_demo
    (driver : DatabaseManager.Driver) (environ : gmap string string)
    (tape : nat -> Z) (arrivals : list Main.Arrival) (request : Request) :
  DEMO_MODE environ = false ->
  let env := Main.running driver environ tape in
  let w := snd (Main.serve_all env arrivals fresh_world) in
  ld_client env = None /\
  demo_flags w = initial_demo_flags /\
  (forall region_id, region_flag env w request region_id = true) /\
  feature_flag env w request "health-checks" = true /\
  feature_flag env w request "load-testing" = true /\
  get_refresh_interval (demo env) (ld_client env) (demo_flags w)
                       (user_key_of request) = FInt 30 /\
  (forall region_id region,
     od_get REGIONS region_id = Some region ->
     exists result,
       fst (test_region env region_id request w)
         = TemplateResponse "partials/connection_result.html"
                            (CtxConnection region result)).
Proof.
  intros Hdemo env w.
  destruct (running_environ driver environ tape) as [Henviron Hclient].
  fold env in Henviron, Hclient.
  assert (Hdemo' : demo env = false) by (unfold demo; now rewrite Henviron).
  assert (Hflags : demo_flags w = initial_demo_flags).
  { subst w. now rewrite serve_all_store, Hdemo'. }
  assert (Hregions : forall region_id,
             region_flag env w request region_id = true).
  { intros region_id. unfold region_flag, is_region_enabled.
    rewrite Hdemo', Hclient, Hflags. apply fresh_regions_enabled. }
  split; [exact Hclient |]. split; [exact Hflags |].
  split; [exact Hregions |].
  split; [unfold feature_flag, is_feature_enabled;
          now rewrite Hdemo', Hclient, Hflags |].
  split; [unfold feature_flag, is_feature_enabled;
          now rewrite Hdemo', Hclient, Hflags |].
  split; [unfold get_refresh_interval;
          now rewrite Hdemo', Hclient, Hflags |].
  intros region_id region Hregion.
  exact (test_region_enabled env region_id request w region Hregion
                             (Hregions region_id)).
Qed.

Lemma flags_frozen_outside_demo_witness :
  DEMO_MODE live_environ = false /\
  demo_flags
    (snd (Main.serve_all (Main.running picky_driver live_environ sample_tape)
                         sample_run fresh_world))
    = initial_demo_flags /\
  region_flag (Main.running picky_driver live_environ sample_tape)
    (snd (Main.serve_all (Main.running picky_driver live_environ sample_tape)
                         sample_run fresh_world))
    plain_request "eu-west" = true.
Proof.
  split; [reflexivity |].
  destruct (flags_frozen_outside_demo picky_driver live_environ sample_tape
              sample_run plain_request eq_refl)
    as (_ & Hflags & Hregions & _).
  split; [exact Hflags | exact (Hregions "eu-west")].
Defined.

(** X23. Whether a flag service is consulted is decided by
    [init_launchdarkly] alone. It installs no client in demo mode, when
    the SDK is missing, and when the SDK key is unset or empty; every
    flag then evaluates from the store, and a key that the store lacks
    counts as enabled. In every other case it installs the client for
    the key, also when that client reports that it failed to
    initialize, and every evaluation goes to the client. One line is
    printed either way. *)
Theorem flag_service_or_store
    (sdk : FlagService.Sdk) (environ : gmap string string)
    (flags : gmap string FlagValue) (region_id user_key : string) :
  let demo := DEMO_MODE environ in
  let client := fst (FlagService.init_launchdarkly demo sdk environ) in
  (client = None <->
   demo = true \/ FlagService.LD_AVAILABLE sdk = false \/
   environ !! "LAUNCHDARKLY_SDK_KEY" = None \/
   environ !! "LAUNCHDARKLY_SDK_KEY" = Some "")
  /\ (client = None ->
      is_region_enabled demo client flags region_id user_key
        = default (FBool true) (flags !! region_key region_id))
  /\ (forall sdk_key,
        client <> None ->
        environ !! "LAUNCHDARKLY_SDK_KEY" = Some sdk_key ->
        client = Some (FlagService.LDClient sdk sdk_key) /\
        is_region_enabled demo client flags region_id user_key
          = variation (FlagService.LDClient sdk sdk_key)
                      (region_key region_id) user_key (FBool true))
  /\ length (snd (FlagService.init_launchdarkly demo sdk environ)) = 1%nat.
Proof.
  intros demo client. subst client. unfold FlagService.init_launchdarkly.
  destruct demo eqn:Hdemo.
  { cbn [fst snd]. split; [tauto |]. split; [reflexivity |].
    split; [congruence | reflexivity]. }
  destruct (FlagService.LD_AVAILABLE sdk) eqn:Hsdk; cbn [negb].
  2: { cbn [fst snd]. split; [tauto |]. split; [reflexivity |].
       split; [congruence | reflexivity]. }
  destruct (environ !! "LAUNCHDARKLY_SDK_KEY") as [[|c s] |] eqn:Hkey;
    cbn [fst snd].
  - split; [tauto |]. split; [reflexivity |].
    split; [congruence | reflexivity].
  - split.
    { split; [discriminate |]. intros [H | [H | [H | H]]]; discriminate. }
    split; [discriminate |]. split; [| reflexivity].
    intros sdk_key _ [= <-]. split; reflexivity.
  - split; [tauto |]. split; [reflexivity |].
    split; [congruence | reflexivity].
Qed.

(** *** Shutdown *)

Lemma prefix_append (p s : string) : String.prefix p (p +:+ s) = true.
Proof.
  induction p as [|c p IH].
  - now destruct s.
  - change (String c p +:+ s) with (String c (p +:+ s)).
    cbn [String.prefix]. destruct (ascii_dec c c); [exact IH | congruence].
Qed.

Lemma close_pools_lines
    (driver : DatabaseManager.Driver) (items : list (string * Pool)) :
  Forall (fun line => String.prefix "✅ Closed pool for " line = true)
         (fst (DatabaseManager.close_pools driver items)).
Proof.
  induction items as [|[rid pool] items IH]; [constructor |].
  cbn [DatabaseManager.close_pools].
  destruct (DatabaseManager.close_pool driver rid) as [[] | e];
    [| constructor].
  destruct (od_get REGIONS rid) as [region |]; [| constructor].
  destruct (DatabaseManager.close_pools driver items) as [out outcome].
  cbn [fst] in *. constructor; [apply prefix_append | exact IH].
Qed.

(** X24. Shutdown closes the flag service only after the pools. When
    closing every pool goes through, the manager is empty afterwards
    and the client, if there is one, is closed last. When closing some
    pool raises, the exception leaves the shutdown, the manager keeps
    every pool, and the flag service client is never closed. *)
Theorem shutdown_outcomes
    (driver : DatabaseManager.Driver) (pools : list (string * Pool))
    (ld_client : option LdClient) :
  (forall rid, In rid (od_keys pools) -> In rid (od_keys REGIONS)) ->
  match Main.shutdown driver pools ld_client with
  | (pools', out, Ok _) =>
      pools' = [] /\
      (forall rid, In rid (od_keys pools) ->
                   DatabaseManager.close_pool driver rid = Ok tt) /\
      length out
        = (1 + length pools
           + match ld_client with Some _ => 1 | None => 0 end)%nat /\
      (In "✅ LaunchDarkly client closed" out <-> ld_client <> None)
  | (pools', out, Raise e) =>
      pools' = pools /\
      (exists rid, In rid (od_keys pools) /\
                   DatabaseManager.close_pool driver rid = Raise e) /\
      ~ In "✅ LaunchDarkly client closed" out
  end.
Proof.
  intros Hknown. unfold Main.shutdown, DatabaseManager.close.
  pose proof (close_pools_through driver pools Hknown) as Hloop.
  pose proof (close_pools_lines driver pools) as Hlines.
  destruct (DatabaseManager.close_pools driver pools) as [out [[] | e]].
  - destruct Hloop as [Hlen Hall]. cbn [fst] in Hlines.
    assert (Hnot : ~ In "✅ LaunchDarkly client closed" out).
    { intros Hin. rewrite List.Forall_forall in Hlines.
      specialize (Hlines _ Hin). discriminate Hlines. }
    split; [reflexivity |]. split; [exact Hall |]. split.
    + cbn [length]. rewrite length_app, Hlen.
      destruct ld_client; cbn; lia.
    + split.
      * intros [Hin | Hin]; [discriminate Hin |].
        apply in_app_or in Hin. destruct Hin as [Hin | Hin]; [tauto |].
        destruct ld_client; [discriminate | destruct Hin].
      * intros Hclient. right. apply in_or_app. right.
        destruct ld_client; [now left | congruence].
  - destruct Hloop as [Hlen Hraise]. cbn [fst] in Hlines.
    split; [reflexivity |]. split; [exact Hraise |].
    intros [Hin | Hin]; [discriminate Hin |].
    rewrite List.Forall_forall in Hlines.
    specialize (Hlines _ Hin). discriminate Hlines.
Qed.

Lemma shutdown_outcomes_witness :
  snd (Main.shutdown picky_driver
         [("us-east", healthy_pool (12 # 1000)); ("eu-west", timed_out_pool)]
         (Some region_switch)) = Raise refused /\
  ~ In "✅ LaunchDarkly client closed"
       (snd (fst (Main.shutdown picky_driver
                    [("us-east", healthy_pool (12 # 1000));
                     ("eu-west", timed_out_pool)]
                    (Some region_switch)))).
Proof.
  split; [reflexivity |].
  assert (Hknown : forall rid,
             In rid (od_keys [("us-east", healthy_pool (12 # 1000));
                              ("eu-west", timed_out_pool)]) ->
             In rid (od_keys REGIONS)).
  { intros rid [<- | [<- | []]]; [now left | now right; left]. }
  pose proof (shutdown_outcomes picky_driver _ (Some region_switch) Hknown)
    as H.
  hnf in H. now destruct H as (_ & _ & H).
Defined.

(** *** The compatibility routes *)

(** X25. The four compatibility routes answer exactly like the routes
    they stand for, in every state: GET test-connection like the
    per-region test, GET health like the health endpoint, GET
    all-results like the fan-out, and POST load-test like the load test
    endpoint. A region id is one non-empty segment of the path. *)
Theorem compatibility_routes
    (env : Env) (region_id : string) (request : Request) (w : World) :
  region_id <> "" ->
  Main.serve env Main.GET ["api"; "test-connection"; region_id] request w
    = Main.serve env Main.POST ["api"; "regions"; region_id; "test"]
                 request w
  /\ Main.serve env Main.GET ["api"; "health"; region_id] request w
     = Main.serve env Main.POST ["api"; "regions"; region_id; "health"]
                  request w
  /\ Main.serve env Main.GET ["api"; "all-results"] request w
     = Main.serve env Main.POST ["api"; "regions"; "test-all"] request w
  /\ Main.serve env Main.POST ["api"; "load-test"; region_id] request w
     = Main.serve env Main.POST ["api"; "regions"; region_id; "load-test"]
                  request w
  /\ Main.serve env Main.POST ["api"; "regions"; region_id; "test"]
                request w
     = Main.fragment (test_region env region_id request) w.
Proof.
  intros Hsegment. destruct region_id as [|c s]; [congruence |].
  unfold Main.serve.
  cbn [Main.dispatch Main.routes Main.match_route Main.match_pattern
       Main.starts_with Main.include_router Main.pages_router
       Main.api_router Main.method_eqb app map].
  repeat split;
    try (destruct (String.eqb "test-all" (String c s)));
    reflexivity.
Qed.

Lemma compatibility_routes_witness :
  Main.serve demo_env Main.GET ["api"; "test-connection"; "eu-west"]
             plain_request fresh_world
    = Main.fragment (test_region demo_env "eu-west" plain_request)
                    fresh_world.
Proof.
  destruct (compatibility_routes demo_env "eu-west" plain_request
              fresh_world) as (Hget & _ & _ & _ & Hpost);
    [discriminate |].
  now rewrite Hget, Hpost.
Defined.
